(** * odds_compact: market extraction, snapshot persistence and retention

    A shallow embedding of [scripts/odds_compact.py] and the properties
    of its market extractor, bookmaker ranker, snapshot store and
    retention pruner.

    Modelling conventions.
    - JSON scalars read by the script are [pyval]s: null, a string or an
      integer.  Text is 8-bit ([string]); case folding and the classes
      [\s], [\d] are the ASCII ones.
    - A JSON object with a known set of keys is a record whose fields are
      [option]s: [None] is an absent key.
    - A Python [dict] built by the script is an insertion-ordered
      association list ([PyDict]).
    - A Python exception is the [Raise] branch of [result].
    - Python floats that only carry decimal literals and time stamps are
      rationals ([Q]). *)

From Stdlib Require Import List String Ascii Bool Arith ZArith QArith Qabs Lia.
From Stdlib Require Import Permutation Sorted.
From Stdlib Require OrderedTypeEx.
From Stdlib Require Import Lqa.
From Stdlib Require Import DecimalString.
Import ListNotations.

Close Scope Q_scope.
Local Open Scope string_scope.
Local Open Scope list_scope.
Local Open Scope nat_scope.

Set Implicit Arguments.

(* ------------------------------------------------------------------ *)
(** ** Exceptions *)

Inductive exn : Type :=
| TypeError
| KeyError
| FileNotFoundError
| PermissionError
| OSError
| OverflowError.

Inductive result (A : Type) : Type :=
| Ok (a : A)
| Raise (e : exn).

Arguments Ok {A} a.
Arguments Raise {A} e.

Definition rbind {A B} (m : result A) (f : A -> result B) : result B :=
  match m with
  | Ok a => f a
  | Raise e => Raise e
  end.

Notation "x <- m ;; k" := (rbind m (fun x => k))
  (at level 61, m at next level, right associativity).

(* ------------------------------------------------------------------ *)
(** ** Python values *)

Inductive pyval : Type :=
| PNone
| PStr (s : string)
| PInt (z : Z).

(** [str(x)] *)
Definition str (x : pyval) : string :=
  match x with
  | PNone => "None"
  | PStr s => s
  | PInt z => NilZero.string_of_int (Z.to_int z)
  end.

(** Truth value of a scalar, as [if x] and [x or y] test it. *)
Definition truthy (x : pyval) : bool :=
  match x with
  | PNone => false
  | PStr s => negb (s =? "")%string
  | PInt z => negb (z =? 0)%Z
  end.

(** [x or y] *)
Definition py_or (x y : pyval) : pyval := if truthy x then x else y.

(** [d.get(k)] and [d.get(k, dflt)] on a record field. *)
Definition get (f : option pyval) : pyval :=
  match f with Some x => x | None => PNone end.

Definition get_default (f : option pyval) (dflt : pyval) : pyval :=
  match f with Some x => x | None => dflt end.

(** [next((x for x in l if p(x)), None)] *)
Definition next {A} (p : A -> bool) (l : list A) : option A := find p l.

(* ------------------------------------------------------------------ *)
(** ** Strings

    A text is the list of its characters, a character a code point
    below 256; texts with characters beyond are outside the model. *)

(** [c.lower()]: the capitals of ASCII and of Latin-1 (192 to 222 but
    215, the multiplication sign). *)
Definition lower_ascii (c : ascii) : ascii :=
  let n := nat_of_ascii c in
  if ((65 <=? n) && (n <=? 90))
     || ((192 <=? n) && (n <=? 222) && negb (n =? 215))
  then ascii_of_nat (n + 32) else c.

(** [s.lower()] *)
Fixpoint lower (s : string) : string :=
  match s with
  | EmptyString => EmptyString
  | String c s' => String (lower_ascii c) (lower s')
  end.

(** [s.startswith(p)] *)
Definition startswith (p s : string) : bool := String.prefix p s.

(** [p in s] *)
Fixpoint contains (p s : string) : bool :=
  String.prefix p s ||
  match s with
  | EmptyString => false
  | String _ s' => contains p s'
  end.

(** [s.endswith(p)] *)
Definition endswith (p s : string) : bool :=
  (String.length p <=? String.length s) &&
  (substring (String.length s - String.length p) (String.length p) s =? p)%string.

(* ------------------------------------------------------------------ *)
(** ** Regular expressions

    The patterns of the script, matched the way [re] matches them: a
    backtracking search that tries alternatives left to right and
    repetitions greedily.  The continuation receives the position and
    the rest of the subject and returns the end position of the match. *)

Module Re.

Inductive pat : Type :=
| Emp                        (* empty pattern *)
| Chr (c : ascii)            (* a literal character *)
| Cls (f : ascii -> bool)    (* a character class *)
| Seq (a b : pat)
| Alt (a b : pat)            (* a|b *)
| Star (a : pat)             (* a* *)
| Bol                        (* ^ *)
| Eol                        (* $ *)
| NotAhead (a : pat).        (* (?!a) *)

Definition Opt (a : pat) : pat := Alt a Emp.      (* a? *)
Definition Plus (a : pat) : pat := Seq a (Star a). (* a+ *)

Fixpoint lit (s : string) : pat :=
  match s with
  | EmptyString => Emp
  | String c EmptyString => Chr c
  | String c s' => Seq (Chr c) (lit s')
  end.

Definition newline : ascii := ascii_of_nat 10.

(** [\s], which is also what [strip] removes: the white space of
    ASCII, the next-line control 133 and the no-break space 160. *)
Definition is_space (c : ascii) : bool :=
  let n := nat_of_ascii c in
  ((9 <=? n) && (n <=? 13)) || ((28 <=? n) && (n <=? 32))
  || (n =? 133) || (n =? 160).

(** [\d] *)
Definition is_digit (c : ascii) : bool :=
  let n := nat_of_ascii c in (48 <=? n) && (n <=? 57).

(** [.] *)
Definition is_dot (c : ascii) : bool := negb (Ascii.eqb c newline).

Definition ws : pat := Cls is_space.
Definition digit : pat := Cls is_digit.
Definition dot : pat := Cls is_dot.

Definition orelse {A} (x y : option A) : option A :=
  match x with Some _ => x | None => y end.

(** [mt ci p pos s k]: match [p] at position [pos] where the subject
    continues with [s]; [ci] is the flag [re.I]. *)
Fixpoint mt (ci : bool) (p : pat) (pos : nat) (s : string)
         (k : nat -> string -> option nat) {struct p} : option nat :=
  match p with
  | Emp => k pos s
  | Chr c =>
      match s with
      | String x s' =>
          if (if ci then Ascii.eqb (lower_ascii x) (lower_ascii c)
              else Ascii.eqb x c)
          then k (S pos) s' else None
      | EmptyString => None
      end
  | Cls f =>
      match s with
      | String x s' => if f x then k (S pos) s' else None
      | EmptyString => None
      end
  | Seq a b => mt ci a pos s (fun pos' s' => mt ci b pos' s' k)
  | Alt a b => orelse (mt ci a pos s k) (mt ci b pos s k)
  | Star a =>
      (fix loop (fuel : nat) (pos : nat) (s : string) {struct fuel} : option nat :=
         match fuel with
         | O => k pos s
         | S fuel' =>
             orelse
               (mt ci a pos s
                   (fun pos' s' =>
                      if String.length s' <? String.length s
                      then loop fuel' pos' s' else None))
               (k pos s)
         end) (String.length s) pos s
  | Bol => if pos =? 0 then k pos s else None
  | Eol =>
      match s with
      | EmptyString => k pos s
      | String x EmptyString => if Ascii.eqb x newline then k pos s else None
      | _ => None
      end
  | NotAhead a =>
      match mt ci a pos s (fun pos' _ => Some pos') with
      | Some _ => None
      | None => k pos s
      end
  end.

(** A compiled pattern: the expression and the flag [re.I]. *)
Record regex : Type := compile { body : pat; flag_I : bool }.

(** [rx.match(s)]: the end of the match at position 0. *)
Definition match_at (rx : regex) (pos : nat) (s : string) : option nat :=
  mt (flag_I rx) (body rx) pos s (fun pos' _ => Some pos').

(** [rx.search(s)]: the span of the leftmost match. *)
Fixpoint search_from (rx : regex) (pos : nat) (s : string) : option (nat * nat) :=
  match match_at rx pos s with
  | Some e => Some (pos, e)
  | None =>
      match s with
      | EmptyString => None
      | String _ s' => search_from rx (S pos) s'
      end
  end.

Definition search_span (rx : regex) (s : string) : option (nat * nat) :=
  search_from rx 0 s.

(** [bool(rx.search(s))] and [bool(rx.match(s))] *)
Definition search (rx : regex) (s : string) : bool :=
  match search_span rx s with Some _ => true | None => false end.

Definition matches (rx : regex) (s : string) : bool :=
  match match_at rx 0 s with Some _ => true | None => false end.

(** [rx.search(s).group(0)] *)
Definition search_group0 (rx : regex) (s : string) : option string :=
  match search_span rx s with
  | Some (b, e) => Some (substring b (e - b) s)
  | None => None
  end.

End Re.

Import Re.

Declare Scope re_scope.
Delimit Scope re_scope with re.
Bind Scope re_scope with pat.
Infix "++" := Seq (right associativity, at level 60) : re_scope.
Infix "<|>" := Alt (right associativity, at level 70) : re_scope.

(** The market patterns, [re.I] on each. *)

(** [^(match\s*winner|1x2|win\s*draw\s*win)$] *)
Definition RX_MATCH_WINNER : regex :=
  compile (Bol ++ (lit "match" ++ Star ws ++ lit "winner"
                   <|> lit "1x2"
                   <|> lit "win" ++ Star ws ++ lit "draw" ++ Star ws ++ lit "win")
               ++ Eol)%re true.

(** [(over\s*/\s*under|totals?)] *)
Definition RX_OVER_UNDER : regex :=
  compile (lit "over" ++ Star ws ++ Chr "/" ++ Star ws ++ lit "under"
           <|> lit "total" ++ Opt (Chr "s"))%re true.

(** [(^both\s*teams\s*to\s*score$|^BTTS$)] *)
Definition RX_BTTS : regex :=
  compile (Bol ++ lit "both" ++ Star ws ++ lit "teams" ++ Star ws ++ lit "to"
               ++ Star ws ++ lit "score" ++ Eol
           <|> Bol ++ lit "BTTS" ++ Eol)%re true.

(** [(^asian\s*handicap$|^handicap(?!.*corners|.*cards))] *)
Definition RX_HANDICAP : regex :=
  compile (Bol ++ lit "asian" ++ Star ws ++ lit "handicap" ++ Eol
           <|> Bol ++ lit "handicap"
                   ++ NotAhead (Star dot ++ lit "corners" <|> Star dot ++ lit "cards"))%re
          true.

(** [^(1(st)?|first)\s*half\s*(winner|1x2)] *)
Definition RX_FIRST_HALF_WIN : regex :=
  compile (Bol ++ (Chr "1" ++ Opt (lit "st") <|> lit "first")
               ++ Star ws ++ lit "half" ++ Star ws
               ++ (lit "winner" <|> lit "1x2"))%re true.

(** [-?\d+(?:\.\d+)?] *)
Definition RX_NUMBER : regex :=
  compile (Opt (Chr "-") ++ Plus digit ++ Opt (Chr "." ++ Plus digit))%re false.

(* ------------------------------------------------------------------ *)
(** ** Dictionaries built by the script *)

(** Hashable keys: the script uses strings and integers. *)
Class Key (K : Type) : Type := {
  keq : K -> K -> bool;
  keq_spec : forall a b : K, keq a b = true <-> a = b
}.

#[export] Instance Key_string : Key string :=
  {| keq := String.eqb; keq_spec := String.eqb_eq |}.

#[export] Instance Key_Z : Key Z :=
  {| keq := Z.eqb; keq_spec := Z.eqb_eq |}.

Module PyDict.
Section Dict.
Context {K : Type} `{Key K}.
Variable V : Type.

Definition dict : Type := list (K * V).

Definition keys (d : dict) : list K := map fst d.

(** [d.get(k)] *)
Fixpoint dict_get (k : K) (d : dict) : option V :=
  match d with
  | [] => None
  | (k', v) :: d' => if keq k' k then Some v else dict_get k d'
  end.

(** [k in d] *)
Definition dict_mem (k : K) (d : dict) : bool :=
  match dict_get k d with Some _ => true | None => false end.

(** [d[k] = v]: an existing key keeps its place. *)
Fixpoint dict_set (k : K) (v : V) (d : dict) : dict :=
  match d with
  | [] => [(k, v)]
  | (k', v') :: d' =>
      if keq k' k then (k, v) :: d' else (k', v') :: dict_set k v d'
  end.

(** [d.update(e)] *)
Definition dict_update (d e : dict) : dict :=
  fold_left (fun acc kv => dict_set (fst kv) (snd kv) acc) e d.

(** [{k: v for k, v in d.items() if p(v)}] *)
Definition dict_filter (p : V -> bool) (d : dict) : dict :=
  filter (fun kv => p (snd kv)) d.

(** [d.values()] *)
Definition dict_values (d : dict) : list V := map snd d.
End Dict.
Arguments dict K V : clear implicits.
Arguments dict_get {K _ V} k d.
Arguments dict_mem {K _ V} k d.
Arguments dict_set {K _ V} k v d.
Arguments dict_update {K _ V} d e.
Arguments dict_filter {K V} p d.
Arguments dict_values {K V} d.
Arguments keys {K V} d.
End PyDict.

Import PyDict.

(* ------------------------------------------------------------------ *)
(** ** The odds feed *)

(** A list-valued key: absent ([None]), null or an array. *)
Inductive jarr (A : Type) : Type :=
| JNull
| JArr (l : list A).

Arguments JNull {A}.
Arguments JArr {A} l.

(** [d.get(k) or []] *)
Definition get_list {A} (f : option (jarr A)) : list A :=
  match f with
  | Some (JArr l) => l
  | _ => []
  end.

Definition is_some {A} (o : option A) : bool :=
  match o with Some _ => true | None => false end.

(** One priced outcome, [{"value": .., "odd": .., "handicap": ..}]. *)
Record outcome : Type := mk_outcome {
  ov_value : option pyval;
  ov_handicap : option pyval;
  ov_odd : option pyval
}.

(** One bet of a bookmaker, [{"id": .., "name": .., "values": [..]}]. *)
Record bet : Type := mk_bet {
  bet_id : option pyval;
  bet_name : option pyval;
  bet_values : option (jarr outcome)
}.

(** One bookmaker, [{"id": .., "name": .., "bets": [..]}]. *)
Record book : Type := mk_book {
  book_id : option pyval;
  book_name : option pyval;
  book_bets : option (jarr bet)
}.

(** Truth value of an object: a [dict] is true when it has a key. *)
Definition outcome_truthy (v : outcome) : bool :=
  is_some (ov_value v) || is_some (ov_handicap v) || is_some (ov_odd v).

Definition bet_truthy (b : bet) : bool :=
  is_some (bet_id b) || is_some (bet_name b) || is_some (bet_values b).

(** Truth value of an [Optional] object. *)
Definition opt_truthy {A} (t : A -> bool) (o : option A) : bool :=
  match o with Some a => t a | None => false end.

Definition PREFERRED_BOOKMAKERS : list string :=
  ["Pinnacle"; "bet365"; "Betfair"; "Betway"; "William Hill"; "Bwin"].

(* ------------------------------------------------------------------ *)
(** ** Parsing helpers *)

(** [_val_eq(v)], a predicate on outcomes. *)
Definition _val_eq (v : string) : outcome -> bool :=
  let lv := lower v in
  fun ov => (lower (str (get_default (ov_value ov) (PStr ""))) =? lv)%string.

(** [_line_from(v)] *)
Definition _line_from (v : option outcome) : string :=
  if negb (opt_truthy outcome_truthy v) then ""
  else
    match v with
    | None => ""
    | Some v =>
        let h := str (py_or (get (ov_handicap v)) (PStr "")) in
        if negb (h =? "")%string then h
        else
          match search_group0 RX_NUMBER (str (get_default (ov_value v) (PStr ""))) with
          | Some g => g
          | None => ""
          end
    end.

(** [float(s)] on a decimal literal [-?\d+(\.\d+)?]. *)
Fixpoint digits (s : string) (acc : Z) (n : nat) : Z * nat * string :=
  match s with
  | String c s' =>
      if is_digit c
      then digits s' (acc * 10 + Z.of_nat (nat_of_ascii c - 48))%Z (S n)
      else (acc, n, s)
  | EmptyString => (acc, n, s)
  end.

Definition float_abs (s : string) : Q :=
  let '(ip, _, rest) := digits s 0%Z 0 in
  match rest with
  | String "." rest' =>
      let '(fp, k, _) := digits rest' 0%Z 0 in
      Qmake (ip * 10 ^ Z.of_nat k + fp)%Z (Pos.pow 10 (Pos.of_nat k))
  | _ => inject_Z ip
  end.

Definition float (s : string) : Q :=
  match s with
  | String "-" s' => Qopp (float_abs s')
  | _ => float_abs s
  end.

(** [a < b] on rationals *)
Definition Qltb (a b : Q) : bool := negb (Qle_bool b a).

(** What the third argument of [_nearest_to] may be bound to. *)
Inductive pyobj : Type :=
| PyFloat (q : Q)
| PyFunction (f : outcome -> bool).

(** [predicate(ov)]: calling a float raises [TypeError]. *)
Definition call (predicate : pyobj) (ov : outcome) : result bool :=
  match predicate with
  | PyFunction f => Ok (f ov)
  | PyFloat _ => Raise TypeError
  end.

(** The loop of [_nearest_to] with its two variables [best], [best_dist];
    [best_dist] is [None] exactly as long as [best] is, and is compared
    only after the test [best is None] failed.  The distances are
    computed exactly here and in binary floating point by the script:
    two lines as far from the target as each other, such as 1.7 and 3.3
    from 2.5, may compare differently there.  The script reaches the
    distance with no predicate it passes: [extract_markets] passes a
    float, and the call of it raises first. *)
Fixpoint nearest_loop (target : Q) (predicate : pyobj) (arr : list outcome)
         (best : option outcome) (best_dist : option Q) : result (option outcome) :=
  match arr with
  | [] => Ok best
  | ov :: arr' =>
      p <- call predicate ov ;;
      if negb p then nearest_loop target predicate arr' best best_dist
      else
        let raw := str (py_or (py_or (get (ov_handicap ov)) (get (ov_value ov)))
                              (PStr "")) in
        match search_group0 RX_NUMBER raw with
        | None => nearest_loop target predicate arr' best best_dist
        | Some g =>
            let n := float g in
            let d := Qabs (n - target)%Q in
            if negb (is_some best)
               || match best_dist with Some bd => Qltb d bd | None => false end
            then nearest_loop target predicate arr' (Some ov) (Some d)
            else nearest_loop target predicate arr' best best_dist
        end
  end.

Definition _nearest_to (target : Q) (arr : list outcome) (predicate : pyobj)
  : result (option outcome) :=
  nearest_loop target predicate arr None None.

(** [l.index(x)] when [x in l] *)
Fixpoint index (x : string) (l : list string) : option nat :=
  match l with
  | [] => None
  | y :: l' =>
      if (y =? x)%string then Some 0
      else match index x l' with Some i => Some (S i) | None => None end
  end.

Definition len {A} (l : list A) : Z := Z.of_nat (List.length l).

(** The bet of [book] that [_pick_bookmaker] considers, if any. *)
Definition first_bet (bet_name_rx : regex) (bk : book) : option bet :=
  next (fun b => search bet_name_rx (str (get_default (bet_name b) (PStr ""))))
       (get_list (book_bets bk)).

Definition pref_rank (name : string) : Z :=
  match index name PREFERRED_BOOKMAKERS with
  | Some i => Z.of_nat i
  | None => len PREFERRED_BOOKMAKERS + 1
  end.

Definition score_of (bk : book) (b : bet) : Z :=
  let name := str (get_default (book_name bk) (PStr "")) in
  let richness := len (get_list (bet_values b)) in
  (len PREFERRED_BOOKMAKERS + 2 - pref_rank name) * 100 + richness.

(** The loop of [_pick_bookmaker] with its variables [best], [best_score];
    [best_score] is [None] exactly as long as [best] is. *)
Fixpoint pick_loop (bet_name_rx : regex) (books : list book)
         (best : option (book * bet)) (best_score : option Z) : option (book * bet) :=
  match books with
  | [] => best
  | bk :: books' =>
      match first_bet bet_name_rx bk with
      | Some b =>
          if negb (bet_truthy b) then pick_loop bet_name_rx books' best best_score
          else
            let score := score_of bk b in
            if negb (is_some best)
               || match best_score with Some bs => (bs <? score)%Z | None => false end
            then pick_loop bet_name_rx books' (Some (bk, b)) (Some score)
            else pick_loop bet_name_rx books' best best_score
      | None => pick_loop bet_name_rx books' best best_score
      end
  end.

(** [_pick_bookmaker(books, bet_name_rx)]; [books or []] is [books] on a
    list. *)
Definition _pick_bookmaker (books : list book) (bet_name_rx : regex)
  : option (book * bet) :=
  pick_loop bet_name_rx books None None.

(* ------------------------------------------------------------------ *)
(** ** Market extraction *)

(** The value dictionaries of the canonical markets. *)
Definition market : Type := dict string pyval.
Definition markets : Type := dict string market.

(** [next((v.get("odd") for v in vals if p(v)), None)] *)
Definition next_odd (p : outcome -> bool) (vals : list outcome) : pyval :=
  match next p vals with
  | Some v => get (ov_odd v)
  | None => PNone
  end.

(** [str(v.get("value", ""))] *)
Definition label (v : outcome) : string :=
  str (get_default (ov_value v) (PStr "")).

(** [str(v.get("handicap") or v.get("value", ""))] *)
Definition line_text (v : outcome) : string :=
  str (py_or (get (ov_handicap v)) (get_default (ov_value v) (PStr ""))).

(** The patterns written inline in [extract_markets]. *)
Definition RX_DRAW : regex := compile (lit "draw") true.
Definition RX_OVER : regex := compile (Bol ++ lit "over")%re true.
Definition RX_UNDER : regex := compile (Bol ++ lit "under")%re true.
Definition RX_HOME : regex := compile (lit "home") true.
Definition RX_AWAY : regex := compile (lit "away") true.
(** [-?1(?:\.0)?$] *)
Definition RX_LINE_M1 : regex :=
  compile (Opt (Chr "-") ++ Chr "1" ++ Opt (lit ".0") ++ Eol)%re false.
(** [^\+?1(?:\.0)?$] *)
Definition RX_LINE_P1 : regex :=
  compile (Bol ++ Opt (Chr "+") ++ Chr "1" ++ Opt (lit ".0") ++ Eol)%re false.
(** [(?i)^home\s*-1(?:\.0)?$] *)
Definition RX_HOME_M1 : regex :=
  compile (Bol ++ lit "home" ++ Star ws ++ lit "-1" ++ Opt (lit ".0") ++ Eol)%re true.
(** [(?i)^away\s*\+1(?:\.0)?$] *)
Definition RX_AWAY_P1 : regex :=
  compile (Bol ++ lit "away" ++ Star ws ++ lit "+1" ++ Opt (lit ".0") ++ Eol)%re true.

Definition is_home (v : outcome) : bool := _val_eq "Home" v || _val_eq "1" v.
Definition is_away (v : outcome) : bool := _val_eq "Away" v || _val_eq "2" v.
Definition is_draw_mw (v : outcome) : bool :=
  _val_eq "Draw" v || _val_eq "X" v || search RX_DRAW (label v).
Definition is_draw_fh (v : outcome) : bool := _val_eq "Draw" v || _val_eq "X" v.

Definition is_over (v : outcome) : bool := matches RX_OVER (label v).
Definition is_under (v : outcome) : bool := matches RX_UNDER (label v).
Definition over_exact_p (v : outcome) : bool := is_over v && contains "2.5" (line_text v).
Definition under_exact_p (v : outcome) : bool := is_under v && contains "2.5" (line_text v).

Definition is_home_m1 (v : outcome) : bool :=
  (search RX_HOME (label v) && search RX_LINE_M1 (line_text v))
  || matches RX_HOME_M1 (label v).
Definition is_away_p1 (v : outcome) : bool :=
  (search RX_AWAY (label v) && search RX_LINE_P1 (line_text v))
  || matches RX_AWAY_P1 (label v).

(** [x or f()] on an [Optional] outcome, [f] being able to raise. *)
Definition opt_or (x : option outcome) (y : result (option outcome))
  : result (option outcome) :=
  if opt_truthy outcome_truthy x then Ok x else y.

(** [(pick or {}).get("odd")] *)
Definition odd_of (pick : option outcome) : pyval :=
  if opt_truthy outcome_truthy pick
  then match pick with Some v => get (ov_odd v) | None => PNone end
  else PNone.

(** The five blocks of [extract_markets], each from [out] to [out]. *)

Definition block_match_winner (books : list book) (out : markets) : markets :=
  match _pick_bookmaker books RX_MATCH_WINNER with
  | Some (bk, b) =>
      let vals := get_list (bet_values b) in
      let home := next_odd is_home vals in
      let draw := next_odd is_draw_mw vals in
      let away := next_odd is_away vals in
      if truthy home || truthy draw || truthy away
      then dict_set "matchWinner"
             [("home", home); ("draw", draw); ("away", away);
              ("bookmaker", get (book_name bk))] out
      else out
  | None => out
  end.

Definition target : Q := 2.5%Q.

Definition block_over_under (books : list book) (out : markets) : result markets :=
  match _pick_bookmaker books RX_OVER_UNDER with
  | Some (bk, b) =>
      let vals := get_list (bet_values b) in
      let over_exact := next over_exact_p vals in
      let under_exact := next under_exact_p vals in
      over_pick <- opt_or over_exact
                     (_nearest_to target (filter is_over vals) (PyFloat target)) ;;
      under_pick <- opt_or under_exact
                      (_nearest_to target (filter is_under vals) (PyFloat target)) ;;
      if opt_truthy outcome_truthy over_pick || opt_truthy outcome_truthy under_pick
      then
        let pick := if opt_truthy outcome_truthy over_pick then over_pick else under_pick in
        let line := py_or (PStr (_line_from pick)) (PStr "2.5") in
        Ok (dict_set "overUnder"
              [("line", line); ("over", odd_of over_pick); ("under", odd_of under_pick);
               ("bookmaker", get (book_name bk))] out)
      else Ok out
  | None => Ok out
  end.

Definition block_btts (books : list book) (out : markets) : markets :=
  match _pick_bookmaker books RX_BTTS with
  | Some (bk, b) =>
      let vals := get_list (bet_values b) in
      let yes := next_odd (_val_eq "Yes") vals in
      let no := next_odd (_val_eq "No") vals in
      if truthy yes || truthy no
      then dict_set "btts"
             [("yes", yes); ("no", no); ("bookmaker", get (book_name bk))] out
      else out
  | None => out
  end.

Definition block_handicap (books : list book) (out : markets) : markets :=
  match _pick_bookmaker books RX_HANDICAP with
  | Some (bk, b) =>
      let vals := get_list (bet_values b) in
      let home_m1 := next_odd is_home_m1 vals in
      let away_p1 := next_odd is_away_p1 vals in
      if truthy home_m1 || truthy away_p1
      then dict_set "handicap"
             [("homeMinus1", home_m1); ("awayPlus1", away_p1);
              ("bookmaker", get (book_name bk))] out
      else out
  | None => out
  end.

Definition block_first_half (books : list book) (out : markets) : markets :=
  match _pick_bookmaker books RX_FIRST_HALF_WIN with
  | Some (bk, b) =>
      let vals := get_list (bet_values b) in
      let home := next_odd is_home vals in
      let draw := next_odd is_draw_fh vals in
      let away := next_odd is_away vals in
      if truthy home || truthy draw || truthy away
      then dict_set "firstHalfWinner"
             [("home", home); ("draw", draw); ("away", away);
              ("bookmaker", get (book_name bk))] out
      else out
  | None => out
  end.

Definition extract_markets (books : list book) : result markets :=
  let out := block_match_winner books [] in
  out <- block_over_under books out ;;
  let out := block_btts books out in
  let out := block_handicap books out in
  let out := block_first_half books out in
  Ok out.

(** Feed objects as the API writes them. *)
Definition val (v o : string) : outcome :=
  mk_outcome (Some (PStr v)) None (Some (PStr o)).
Definition val_h (v h o : string) : outcome :=
  mk_outcome (Some (PStr v)) (Some (PStr h)) (Some (PStr o)).
Definition a_bet (n : string) (vs : list outcome) : bet :=
  mk_bet (Some (PInt 1)) (Some (PStr n)) (Some (JArr vs)).
Definition a_book (n : string) (bs : list bet) : book :=
  mk_book (Some (PInt 1)) (Some (PStr n)) (Some (JArr bs)).


(* ------------------------------------------------------------------ *)
(** ** The daily snapshot *)

(** [s.strip()] *)
Fixpoint lstrip (s : string) : string :=
  match s with
  | String c s' => if is_space c then lstrip s' else s
  | EmptyString => EmptyString
  end.

Fixpoint rstrip (s : string) : string :=
  match s with
  | String c s' =>
      let r := rstrip s' in
      if is_space c && (r =? "")%string then "" else String c r
  | EmptyString => EmptyString
  end.

Definition strip (s : string) : string := rstrip (lstrip s).

(** One element of a [/fixtures] response, the nested objects
    flattened; the two ids are integers, on which [int] is the
    identity. *)
Record fixture_item : Type := mk_fixture_item {
  fi_id : Z;                          (* fixture.id *)
  fi_date : pyval;                    (* fixture.date *)
  fi_status_short : option pyval;     (* fixture.status.short *)
  fi_league_id : Z;                   (* league.id *)
  fi_league_country : option pyval;   (* league.country *)
  fi_league_name : option pyval;      (* league.name *)
  fi_home_name : option pyval;        (* teams.home.name *)
  fi_away_name : option pyval         (* teams.away.name *)
}.

(** One element of an [/odds] response. *)
Record odds_item : Type := mk_odds_item {
  oi_fixture_id : option Z;           (* fixture.id *)
  oi_bookmakers : option (jarr book)  (* bookmakers *)
}.

(** The record kept per fixture. *)
Record fixture_record : Type := mk_fixture_record {
  fixtureId : Z;
  date : string;
  status : pyval;
  leagueId : Z;
  league : string;
  home : pyval;
  away : pyval;
  fr_markets : markets
}.

Definition with_markets (r : fixture_record) (m : markets) : fixture_record :=
  mk_fixture_record (fixtureId r) (date r) (status r) (leagueId r) (league r)
                    (home r) (away r) m.

(** The document handed to the snapshot store. *)
Record snapshot : Type := mk_snapshot {
  sn_date : string;
  sn_count : Z;
  sn_items : list fixture_record
}.

(** Truth value of a [dict]. *)
Definition nonempty {A} (l : list A) : bool :=
  match l with [] => false | _ => true end.

(** [sorted(l, key=...)] is stable: insertion before the first element
    that is not smaller. *)
Section Sorted.
Variable A : Type.
Variable le : A -> A -> bool.

Fixpoint insert_sorted (x : A) (l : list A) : list A :=
  match l with
  | [] => [x]
  | y :: l' => if le x y then x :: l else y :: insert_sorted x l'
  end.

Definition sorted (l : list A) : list A := fold_right insert_sorted [] l.
End Sorted.

(** Order of the keys [(r["date"], r["leagueId"], r["fixtureId"])]. *)
Definition key_le (a b : fixture_record) : bool :=
  match String.compare (date a) (date b) with
  | Lt => true
  | Gt => false
  | Eq =>
      match Z.compare (leagueId a) (leagueId b) with
      | Lt => true
      | Gt => false
      | Eq => (fixtureId a <=? fixtureId b)%Z
      end
  end.

(** The update of one fixture's markets with a later extraction. *)
Definition merge_markets (old new : markets) : markets :=
  if nonempty new then dict_update old (dict_filter nonempty new) else old.

Section Pipeline.
(** The kick-off time rewritten in the zone of Sao Paulo, or [str(dt)]
    when it does not parse: the time-zone arithmetic is the library's. *)
Variable to_sao_paulo : pyval -> string.

Definition record_of (f : fixture_item) : fixture_record :=
  mk_fixture_record
    (fi_id f)
    (to_sao_paulo (fi_date f))
    (get_default (fi_status_short f) (PStr ""))
    (fi_league_id f)
    (strip (str (py_or (get_default (fi_league_country f) (PStr "")) (PStr ""))
            ++ " " ++ str (get_default (fi_league_name f) (PStr ""))))
    (get (fi_home_name f))
    (get (fi_away_name f))
    [].

(** The index by fixture id. *)
Definition index_fixtures (fixtures_all : list fixture_item)
  : dict Z fixture_record :=
  fold_left (fun by_fixture f => dict_set (fi_id f) (record_of f) by_fixture)
            fixtures_all [].

(** The body of the loop over the odds items. *)
Definition odds_step (by_fixture : dict Z fixture_record) (it : odds_item)
  : result (dict Z fixture_record) :=
  let fid := match oi_fixture_id it with Some z => z | None => 0%Z end in
  if (fid =? 0)%Z || negb (dict_mem fid by_fixture) then Ok by_fixture
  else
    let books := get_list (oi_bookmakers it) in
    mk <- extract_markets books ;;
    if nonempty mk then
      match dict_get fid by_fixture with
      | Some r =>
          Ok (dict_set fid
                (with_markets r (dict_update (fr_markets r) (dict_filter nonempty mk)))
                by_fixture)
      | None => Raise KeyError
      end
    else Ok by_fixture.

Fixpoint odds_loop (by_fixture : dict Z fixture_record) (items : list odds_item)
  : result (dict Z fixture_record) :=
  match items with
  | [] => Ok by_fixture
  | it :: items' =>
      by_fixture' <- odds_step by_fixture it ;;
      odds_loop by_fixture' items'
  end.

(** The loop over the leagues, one odds response each. *)
Fixpoint leagues_loop (by_fixture : dict Z fixture_record)
         (responses : list (list odds_item)) : result (dict Z fixture_record) :=
  match responses with
  | [] => Ok by_fixture
  | items :: responses' =>
      by_fixture' <- odds_loop by_fixture items ;;
      leagues_loop by_fixture' responses'
  end.

(** [main], from the fetched responses to the document [out]. *)
Definition build_snapshot (date_ymd : string) (fixtures_all : list fixture_item)
           (responses : list (list odds_item)) : result snapshot :=
  by_fixture <- leagues_loop (index_fixtures fixtures_all) responses ;;
  let items_out := sorted key_le (dict_values by_fixture) in
  Ok (mk_snapshot date_ymd (len items_out) items_out).
End Pipeline.

(* ------------------------------------------------------------------ *)
(** ** The file system *)

(** [os.path.join] *)
Definition join2 (path b : string) : string :=
  if startswith "/" b then b
  else if (path =? "")%string || endswith "/" path then path ++ b
  else path ++ "/" ++ b.

Definition path_join (a : string) (p : list string) : string :=
  fold_left join2 p a.

(** A directory: the names of its files and its sub-directories. *)
#[local] Set Warnings "-register-all".
Inductive tree : Type :=
| Dir (files : list string) (subdirs : list (string * tree)).

(** [os.walk(top)], top-down: the pairs [(root, files)]. *)
Fixpoint os_walk (top : string) (t : tree) : list (string * list string) :=
  match t with
  | Dir files subdirs =>
      (top, files) ::
      (fix walk_subdirs (l : list (string * tree)) : list (string * list string) :=
         match l with
         | [] => []
         | (n, t') :: l' => os_walk (path_join top [n]) t' ++ walk_subdirs l'
         end) subdirs
  end.

(** The operations the script asks of the operating system. *)
Inductive fs_op : Type :=
| Makedirs (path : string)                  (* os.makedirs(path, exist_ok=True) *)
| GzipDump (path : string) (doc : snapshot) (* gzip.open(path, "wt") + json.dump *)
| PlainDump (path : string) (doc : snapshot)(* open(path, "w") + json.dump *)
| Stat (path : string)                      (* os.stat(path) *)
| Remove (path : string).                   (* os.remove(path) *)

(** An operation that was attempted and the error it raised, if any. *)
Definition event : Type := (fs_op * option exn)%type.

Record world : Type := mk_world {
  w_log : list event;        (* the operations attempted so far *)
  w_deleted : list string;   (* the files unlinked so far *)
  w_stdout : list (string * exn)  (* the warnings printed so far *)
}.

Definition io (A : Type) : Type := world -> world * result A.

Definition io_ret {A} (a : A) : io A := fun w => (w, Ok a).

Definition io_raise {A} (e : exn) : io A := fun w => (w, Raise e).

Definition io_bind {A B} (m : io A) (f : A -> io B) : io B :=
  fun w =>
    match m w with
    | (w', Ok a) => f a w'
    | (w', Raise e) => (w', Raise e)
    end.

Notation "x <~ m ;; k" := (io_bind m (fun x => k))
  (at level 61, m at next level, right associativity).

(** [try: m  except <handled>: h(e)] *)
Definition try_except {A} (m : io A) (h : exn -> io A) : io A :=
  fun w =>
    match m w with
    | (w', Ok a) => (w', Ok a)
    | (w', Raise e) => h e w'
    end.

Definition mem_string (x : string) (l : list string) : bool :=
  existsb (String.eqb x) l.

(** The integers [float] refuses with [OverflowError]: those that round
    to 2^1024, the first of which is 2^1024 - 2^970. *)
Definition float_limit : Z := (2 ^ 1024 - 2 ^ 970)%Z.

Definition float_overflows (n : Z) : bool := (float_limit <=? Z.abs n)%Z.

Section FileSystem.
(** The error, if any, with which the operating system answers an
    operation after a given history; the modification time of a file;
    the clock; the directory found at a path. *)
Variable fault : list event -> fs_op -> option exn.
Variable st_mtime : string -> Q.
Variable now : Q.
Variable tree_at : string -> option tree.

(** A file this run unlinked is gone for [os.stat] and [os.remove]. *)
Definition answer (w : world) (op : fs_op) : option exn :=
  match op with
  | Stat p | Remove p =>
      if mem_string p (w_deleted w) then Some FileNotFoundError
      else fault (w_log w) op
  | _ => fault (w_log w) op
  end.

Definition perform (op : fs_op) : io unit :=
  fun w =>
    let r := answer w op in
    let deleted :=
      match op, r with
      | Remove p, None => w_deleted w ++ [p]
      | _, _ => w_deleted w
      end in
    (mk_world (w_log w ++ [(op, r)]) deleted (w_stdout w),
     match r with Some e => Raise e | None => Ok tt end).

Definition os_stat (fp : string) : io Q :=
  _ <~ perform (Stat fp) ;; io_ret (st_mtime fp).

Definition os_remove (fp : string) : io unit := perform (Remove fp).

Definition print_warn (fp : string) (e : exn) : io unit :=
  fun w => (mk_world (w_log w) (w_deleted w) (w_stdout w ++ [(fp, e)]), Ok tt).

(** [save_snapshot(out, out_dir)] *)
Definition gz_path_of (out_dir date_str : string) : string :=
  let year := substring 0 4 date_str in
  let month := substring 5 2 date_str in
  let dir_ym := path_join out_dir [year; month] in
  path_join dir_ym [(date_str ++ ".json.gz")%string].

Definition latest_path_of (out_dir : string) : string :=
  path_join out_dir ["latest.json"].

Definition save_snapshot (out : snapshot) (out_dir : string) : io string :=
  let date_str := sn_date out in
  let year := substring 0 4 date_str in
  let month := substring 5 2 date_str in
  let dir_ym := path_join out_dir [year; month] in
  _ <~ perform (Makedirs dir_ym) ;;
  let gz_path := path_join dir_ym [(date_str ++ ".json.gz")%string] in
  let latest_path := path_join out_dir ["latest.json"] in
  _ <~ perform (Makedirs out_dir) ;;
  _ <~ perform (GzipDump gz_path out) ;;
  _ <~ perform (PlainDump latest_path out) ;;
  io_ret gz_path.

(** The body of the inner loop of [prune_old_snapshots]. *)
Definition prune_file (cutoff : Q) (root : string) (removed : list string)
           (fn : string) : io (list string) :=
  if (fn =? "latest.json")%string then io_ret removed
  else if negb (endswith ".json.gz" fn) then io_ret removed
  else
    let fp := path_join root [fn] in
    try_except
      (mtime <~ os_stat fp ;;
       if Qltb mtime cutoff
       then _ <~ os_remove fp ;; io_ret (removed ++ [fp])
       else io_ret removed)
      (fun e =>
         match e with
         | FileNotFoundError => io_ret removed
         | _ => _ <~ print_warn fp e ;; io_ret removed
         end).

Fixpoint prune_files (cutoff : Q) (root : string) (removed : list string)
         (files : list string) : io (list string) :=
  match files with
  | [] => io_ret removed
  | fn :: files' =>
      removed' <~ prune_file cutoff root removed fn ;;
      prune_files cutoff root removed' files'
  end.

Fixpoint prune_dirs (cutoff : Q) (removed : list string)
         (walk : list (string * list string)) : io (list string) :=
  match walk with
  | [] => io_ret removed
  | (root, files) :: walk' =>
      removed' <~ prune_files cutoff root removed files ;;
      prune_dirs cutoff removed' walk'
  end.

Definition walk_of (out_dir : string) : list (string * list string) :=
  match tree_at out_dir with
  | Some t => os_walk out_dir t
  | None => []
  end.

(** [time.time() - (retention_days * 86400)]: the integer is turned
    into a float first, which raises [OverflowError] from [float_limit]
    on; the rounding of the conversion and of the subtraction is left
    out, the times are rationals. *)
Definition cutoff_of (retention_days : Z) : Q :=
  (now - inject_Z (retention_days * 86400))%Q.

Definition prune_old_snapshots (out_dir : string) (retention_days : Z)
  : io (list string) :=
  let removed := [] in
  if (retention_days <=? 0)%Z then io_ret removed
  else if float_overflows (retention_days * 86400) then io_raise OverflowError
  else
    let cutoff := cutoff_of retention_days in
    prune_dirs cutoff removed (walk_of out_dir).
End FileSystem.

(* ------------------------------------------------------------------ *)
(** ** The vocabulary of the specification *)

(** The five market types, in the order of the taxonomy, with the
    pattern and the key the extractor uses for each. *)
Inductive MarketType : Type :=
| MatchWinner
| OverUnder
| BothTeamsToScore
| Handicap
| FirstHalfWinner.

Definition taxonomy : list MarketType :=
  [MatchWinner; OverUnder; BothTeamsToScore; Handicap; FirstHalfWinner].

Definition rule_of (T : MarketType) : regex :=
  match T with
  | MatchWinner => RX_MATCH_WINNER
  | OverUnder => RX_OVER_UNDER
  | BothTeamsToScore => RX_BTTS
  | Handicap => RX_HANDICAP
  | FirstHalfWinner => RX_FIRST_HALF_WIN
  end.

Definition key_of (T : MarketType) : string :=
  match T with
  | MatchWinner => "matchWinner"
  | OverUnder => "overUnder"
  | BothTeamsToScore => "btts"
  | Handicap => "handicap"
  | FirstHalfWinner => "firstHalfWinner"
  end.

(** The keys of the record emitted for a market type. *)
Definition shape_of (T : MarketType) : list string :=
  match T with
  | MatchWinner | FirstHalfWinner => ["home"; "draw"; "away"; "bookmaker"]
  | OverUnder => ["line"; "over"; "under"; "bookmaker"]
  | BothTeamsToScore => ["yes"; "no"; "bookmaker"]
  | Handicap => ["homeMinus1"; "awayPlus1"; "bookmaker"]
  end.

(** The legs of each type, with the label test an outcome has to pass
    to fill the leg. *)
Definition legs_of (T : MarketType) : list (string * (outcome -> bool)) :=
  match T with
  | MatchWinner => [("home", is_home); ("draw", is_draw_mw); ("away", is_away)]
  | OverUnder => [("over", is_over); ("under", is_under)]
  | BothTeamsToScore => [("yes", _val_eq "Yes"); ("no", _val_eq "No")]
  | Handicap => [("homeMinus1", is_home_m1); ("awayPlus1", is_away_p1)]
  | FirstHalfWinner => [("home", is_home); ("draw", is_draw_fh); ("away", is_away)]
  end.

(** [str(b.get("name", ""))] *)
Definition bet_label (b : bet) : string := str (get_default (bet_name b) (PStr "")).

(** The offers [_pick_bookmaker] ranks: per bookmaker, its first bet
    whose name the pattern finds. *)
Definition offer : Type := (book * bet)%type.

Definition offer_of (rx : regex) (bk : book) : list offer :=
  match first_bet rx bk with
  | Some b => if bet_truthy b then [(bk, b)] else []
  | None => []
  end.

Definition offers (rx : regex) (books : list book) : list offer :=
  flat_map (offer_of rx) books.

Definition offer_score (o : offer) : Z := score_of (fst o) (snd o).

(** The ranking loop, read over the offers. *)
Fixpoint pick_offers (l : list offer) (best : option offer) (best_score : option Z)
  : option offer :=
  match l with
  | [] => best
  | o :: l' =>
      if negb (is_some best)
         || match best_score with Some bs => (bs <? offer_score o)%Z | None => false end
      then pick_offers l' (Some o) (Some (offer_score o))
      else pick_offers l' best best_score
  end.

(** The score in the words of the specification. *)
Definition spec_preference_weight (name : string) : Z :=
  match index name PREFERRED_BOOKMAKERS with
  | Some i => len PREFERRED_BOOKMAKERS + 2 - Z.of_nat i
  | None => 1
  end.

Definition spec_outcome_count (b : bet) : Z := len (get_list (bet_values b)).

Definition spec_score (o : offer) : Z :=
  spec_preference_weight (str (get_default (book_name (fst o)) (PStr ""))) * 100
  + spec_outcome_count (snd o).

(** The classification in the words of the specification: the first
    rule of the taxonomy that the name satisfies. *)
Definition spec_classify (name : string) : option MarketType :=
  find (fun T => search (rule_of T) name) taxonomy.

(** A bet name is the source of the market of type [T] when the
    extractor emits that market from a bet of that name. *)
Definition source_of (books : list book) (T : MarketType) (n : string) : Prop :=
  exists m mk bk b,
    extract_markets books = Ok m /\
    dict_get (key_of T) m = Some mk /\
    _pick_bookmaker books (rule_of T) = Some (bk, b) /\
    bet_label b = n.

(** Last write wins, in the words of the specification: the entry of a
    market type after a sequence of extractions. *)
Fixpoint spec_last_write (k : string) (news : list markets) (cur : option market)
  : option market :=
  match news with
  | [] => cur
  | m :: news' =>
      spec_last_write k news'
        (match dict_get k m with
         | Some v => if nonempty v then Some v else cur
         | None => cur
         end)
  end.

(** The extractions that reach the fixture [fid] in the odds loop. *)
Fixpoint extractions_for (fid : Z) (items : list odds_item) : list (result markets) :=
  match items with
  | [] => []
  | it :: items' =>
      let id := match oi_fixture_id it with Some z => z | None => 0%Z end in
      if (id =? fid)%Z
      then extract_markets (get_list (oi_bookmakers it)) :: extractions_for fid items'
      else extractions_for fid items'
  end.

(** The successful remove operations of a log, and its stat operations. *)
Fixpoint removed_in (log : list event) : list string :=
  match log with
  | [] => []
  | (Remove p, None) :: log' => p :: removed_in log'
  | _ :: log' => removed_in log'
  end.

Fixpoint stats_in (log : list event) : list string :=
  match log with
  | [] => []
  | (Stat p, _) :: log' => p :: stats_in log'
  | _ :: log' => stats_in log'
  end.

(** The archive files of a walk, by name: every [*.json.gz] that is not
    [latest.json]. *)
Definition archive_name (fn : string) : bool :=
  negb (fn =? "latest.json")%string && endswith ".json.gz" fn.

Definition archive_paths (walk : list (string * list string)) : list string :=
  flat_map (fun rf => map (fun fn => path_join (fst rf) [fn])
                          (filter archive_name (snd rf))) walk.

Definition is_plain_dump (ev : event) : bool :=
  match fst ev with PlainDump _ _ => true | _ => false end.

(* ------------------------------------------------------------------ *)
(** ** The extractor, entry by entry

    What each block of [extract_markets] adds to [out], as a function of
    the offer the ranker returned. *)

Definition add_entry (k : string) (e : option market) (out : markets) : markets :=
  match e with
  | Some mk => dict_set k mk out
  | None => out
  end.

Definition three_way_entry (is_draw : outcome -> bool) (hit : option offer)
  : option market :=
  match hit with
  | Some (bk, b) =>
      let vals := get_list (bet_values b) in
      let home := next_odd is_home vals in
      let draw := next_odd is_draw vals in
      let away := next_odd is_away vals in
      if truthy home || truthy draw || truthy away
      then Some [("home", home); ("draw", draw); ("away", away);
                 ("bookmaker", get (book_name bk))]
      else None
  | None => None
  end.

Definition over_under_entry (hit : option offer) : result (option market) :=
  match hit with
  | Some (bk, b) =>
      let vals := get_list (bet_values b) in
      over_pick <- opt_or (next over_exact_p vals)
                     (_nearest_to target (filter is_over vals) (PyFloat target)) ;;
      under_pick <- opt_or (next under_exact_p vals)
                      (_nearest_to target (filter is_under vals) (PyFloat target)) ;;
      if opt_truthy outcome_truthy over_pick || opt_truthy outcome_truthy under_pick
      then
        let pick := if opt_truthy outcome_truthy over_pick then over_pick else under_pick in
        Ok (Some [("line", py_or (PStr (_line_from pick)) (PStr "2.5"));
                  ("over", odd_of over_pick); ("under", odd_of under_pick);
                  ("bookmaker", get (book_name bk))])
      else Ok None
  | None => Ok None
  end.

Definition btts_entry (hit : option offer) : option market :=
  match hit with
  | Some (bk, b) =>
      let vals := get_list (bet_values b) in
      let yes := next_odd (_val_eq "Yes") vals in
      let no := next_odd (_val_eq "No") vals in
      if truthy yes || truthy no
      then Some [("yes", yes); ("no", no); ("bookmaker", get (book_name bk))]
      else None
  | None => None
  end.

Definition handicap_entry (hit : option offer) : option market :=
  match hit with
  | Some (bk, b) =>
      let vals := get_list (bet_values b) in
      let home_m1 := next_odd is_home_m1 vals in
      let away_p1 := next_odd is_away_p1 vals in
      if truthy home_m1 || truthy away_p1
      then Some [("homeMinus1", home_m1); ("awayPlus1", away_p1);
                 ("bookmaker", get (book_name bk))]
      else None
  | None => None
  end.

Definition entry_of (T : MarketType) (books : list book) : result (option market) :=
  let hit := _pick_bookmaker books (rule_of T) in
  match T with
  | MatchWinner => Ok (three_way_entry is_draw_mw hit)
  | OverUnder => over_under_entry hit
  | BothTeamsToScore => Ok (btts_entry hit)
  | Handicap => Ok (handicap_entry hit)
  | FirstHalfWinner => Ok (three_way_entry is_draw_fh hit)
  end.

(* ------------------------------------------------------------------ *)
(** ** Sample feeds *)

Definition ranker_books : list book :=
  [a_book "Unibet" [a_bet "Match Winner" [val "Home" "1.5"; val "Draw" "3.1"; val "Away" "6.0"]];
   a_book "Betway" [a_bet "Match Winner" [val "Home" "1.5"; val "Away" "6.0"]];
   a_book "bet365" [a_bet "Corners" []; a_bet "1x2" [val "Home" "1.4"]];
   a_book "Betfair" [a_bet "Corners" []]].

(** The mapping [out] at the end of [extract_markets], from the five
    entries. *)
Definition assemble (e1 e2 e3 e4 e5 : option market) : markets :=
  add_entry "firstHalfWinner" e5
    (add_entry "handicap" e4
       (add_entry "btts" e3
          (add_entry "overUnder" e2
             (add_entry "matchWinner" e1 [])))).

(** A bet whose name two rules find, with outcomes of both markets. *)
Definition two_rule_books : list book :=
  [a_book "bet365"
     [a_bet "Handicap Totals" [val "Over 2.5" "1.90"; val "Home -1" "3.40"]]].

(** A bookmaker whose first bet is an empty object, and a pattern that
    finds the empty name, [x*]. *)
Definition hollow_books : list book :=
  [mk_book None (Some (PStr "bet365"))
           (Some (JArr [mk_bet None None None; a_bet "1x2" [val "Home" "1.4"]]))].

Definition x_star : regex := compile (Re.Star (Re.Chr "x")) false.

(** The claim that a bet name feeds one market type at most. *)
Definition single_classification (books : list book) : Prop :=
  forall T1 T2 n, source_of books T1 n -> source_of books T2 n -> T1 = T2.

(** An Over/Under bet with no outcome on the line 2.5. *)
Definition no_exact_line_books : list book :=
  [a_book "bet365"
     [a_bet "Goals Over/Under" [val "Over 2.25" "1.70"; val "Under 2.25" "2.10"]]].

(** A handicap bet that lists the line +1 before the line -1. *)
Definition handicap_books : list book :=
  [a_book "bet365"
     [a_bet "Handicap Result" [val "Home +1" "1.25"; val "Home -1" "3.40"]]].

(** A feed in which no bet name satisfies the Match Winner rule. *)
Definition corners_books : list book :=
  [a_book "bet365" [a_bet "Corners 1x2" [val "Home" "1.90"; val "Away" "2.10"]]].

(** What [handicap_books] yields. *)
Definition handicap_books_markets : markets :=
  [("handicap", [("homeMinus1", PStr "1.25"); ("awayPlus1", PNone);
                 ("bookmaker", PStr "bet365")])].

(** The claim on empty input, as the specification words it: with no
    fixture or no odds the snapshot has no fixture and count zero. *)
Definition empty_input_claim (to_sao_paulo : pyval -> string) : Prop :=
  forall date_ymd fixtures_all responses,
    fixtures_all = [] \/ List.concat responses = [] ->
    exists s, build_snapshot to_sao_paulo date_ymd fixtures_all responses = Ok s /\
              sn_items s = [] /\ sn_count s = 0%Z.

(** A day with one fixture, and two odds answers for it. *)
Definition one_fixture : fixture_item :=
  mk_fixture_item 1001 (PStr "2025-08-16T19:00:00+00:00") (Some (PStr "NS")) 71
                  (Some (PStr "Brazil")) (Some (PStr "Serie A"))
                  (Some (PStr "Santos")) (Some (PStr "Bahia")).

Definition first_answer : odds_item :=
  mk_odds_item (Some 1001%Z)
    (Some (JArr [a_book "Betway"
                   [a_bet "Match Winner" [val "Home" "1.50"; val "Draw" "3.20"; val "Away" "6.00"];
                    a_bet "Both Teams To Score" [val "Yes" "1.80"; val "No" "1.95"]]])).

Definition second_answer : odds_item :=
  mk_odds_item (Some 1001%Z)
    (Some (JArr [a_book "bet365"
                   [a_bet "Match Winner" [val "Home" "1.55"; val "Draw" "3.10"; val "Away" "5.50"]]])).

Definition two_answers : list (list odds_item) := [[first_answer]; [second_answer]].

Definition merged_index : dict Z fixture_record :=
  match leagues_loop (index_fixtures str [one_fixture]) two_answers with
  | Ok by_fixture => by_fixture
  | Raise _ => []
  end.

(** A fixture that the feed numbers 0, and an odds answer for it. *)
Definition zero_fixture : fixture_item :=
  mk_fixture_item 0 (PStr "2025-08-16T21:00:00+00:00") (Some (PStr "NS")) 71
                  (Some (PStr "Brazil")) (Some (PStr "Serie A"))
                  (Some (PStr "Gremio")) (Some (PStr "Vitoria")).

Definition zero_answer : odds_item :=
  mk_odds_item (Some 0%Z)
    (Some (JArr [a_book "bet365"
                   [a_bet "Match Winner" [val "Home" "1.70"; val "Draw" "3.40";
                                          val "Away" "4.80"]]])).

(** The claim that the merge is last-write-wins for every fixture id:
    after the loop, under each market key of a fixture stands the last
    non-empty market extracted from the odds items that carry its id. *)
Definition last_write_wins_claim : Prop :=
  forall (fid : Z) (responses : list (list odds_item))
         (by_fixture by_fixture' : dict Z fixture_record) (r : fixture_record),
    leagues_loop by_fixture responses = Ok by_fixture' ->
    dict_get fid by_fixture = Some r ->
    NoDup (keys (fr_markets r)) ->
    exists ms r',
      extractions_for fid (List.concat responses) = map Ok ms /\
      dict_get fid by_fixture' = Some r' /\
      forall k, dict_get k (fr_markets r')
                = spec_last_write k ms (dict_get k (fr_markets r)).

(** A fresh record of the index: filed under its own id, with no market
    yet. *)
Definition fresh (kv : Z * fixture_record) : Prop :=
  fixtureId (snd kv) = fst kv /\ fr_markets (snd kv) = [].

(** The log of a pruning run over the archive files [ps], in order: each
    file is asked for its status; a file older than the cut-off is then
    removed; either operation may raise. *)
Section Visits.
Variable st_mtime : string -> Q.
Variable cutoff : Q.

Inductive visits : list string -> list event -> Prop :=
| visits_nil : visits [] []
| visits_stat_raises fp e ps log :
    visits ps log ->
    visits (fp :: ps) ((Stat fp, Some e) :: log)
| visits_recent fp ps log :
    Qltb (st_mtime fp) cutoff = false ->
    visits ps log ->
    visits (fp :: ps) ((Stat fp, None) :: log)
| visits_remove_raises fp e ps log :
    Qltb (st_mtime fp) cutoff = true ->
    visits ps log ->
    visits (fp :: ps) ((Stat fp, None) :: (Remove fp, Some e) :: log)
| visits_removed fp ps log :
    Qltb (st_mtime fp) cutoff = true ->
    visits ps log ->
    visits (fp :: ps) ((Stat fp, None) :: (Remove fp, None) :: log).
End Visits.


(** No operation of the log raised. *)
Definition quiet (log : list event) : Prop :=
  Forall (fun ev : event => snd ev = None) log.

(** A sample archive: two files of May, one of August, the convenience
    copy and a stray file; on the clock of the sample the files of May
    are 100 days old, the others 10. *)
Definition archive_tree : tree :=
  Dir ["latest.json"; "notes.txt"]
      [("2025", Dir []
          [("05", Dir ["2025-05-01.json.gz"; "2025-05-02.json.gz"] []);
           ("08", Dir ["2025-08-10.json.gz"] [])])].

Definition sample_tree_at (p : string) : option tree :=
  if (p =? "data/odds")%string then Some archive_tree else None.

Definition sample_now : Q := inject_Z 1755000000.

Definition sample_mtime (fp : string) : Q :=
  if contains "/05/" fp
  then (sample_now - inject_Z (100 * 86400))%Q
  else (sample_now - inject_Z (10 * 86400))%Q.

Definition no_fault : list event -> fs_op -> option exn := fun _ _ => None.

(** The second file of May may not be removed. *)
Definition denied_fault : list event -> fs_op -> option exn :=
  fun _ op =>
    match op with
    | Remove p =>
        if (p =? "data/odds/2025/05/2025-05-02.json.gz")%string
        then Some PermissionError else None
    | _ => None
    end.

(** The first file of May may not be removed. *)
Definition locked_fault : list event -> fs_op -> option exn :=
  fun _ op =>
    match op with
    | Remove p =>
        if (p =? "data/odds/2025/05/2025-05-01.json.gz")%string
        then Some PermissionError else None
    | _ => None
    end.

(** The disk fills up once the archive is written. *)
Definition full_disk_fault : list event -> fs_op -> option exn :=
  fun _ op =>
    match op with
    | PlainDump _ _ => Some OSError
    | _ => None
    end.

Definition new_world : world := mk_world [] [] [].

Definition empty_day : snapshot := mk_snapshot "2025-08-16" 0 [].

(** The operations of [save_snapshot], in the order of the source. *)
Definition save_ops (out : snapshot) (out_dir : string) : list fs_op :=
  let date_str := sn_date out in
  let dir_ym := path_join out_dir [substring 0 4 date_str; substring 5 2 date_str] in
  [Makedirs dir_ym;
   Makedirs out_dir;
   GzipDump (path_join dir_ym [(date_str ++ ".json.gz")%string]) out;
   PlainDump (path_join out_dir ["latest.json"]) out].

(** A log in which the first [n] operations of [ops] succeeded and the
    next one, if any is left, raised [e]. *)
Fixpoint log_of (ops : list fs_op) (n : nat) (e : exn) : list event :=
  match ops, n with
  | [], _ => []
  | op :: _, O => [(op, Some e)]
  | op :: ops', S n' => (op, None) :: log_of ops' n' e
  end.

Definition is_gzip_dump (ev : event) : bool :=
  match fst ev with GzipDump _ _ => true | _ => false end.



(** The order of the snapshot: [a] comes no later than [b] by kick-off
    text, then league id, then fixture id. *)
Definition key_ordered (a b : fixture_record) : Prop := key_le a b = true.

(** A record of the index is filed under its own fixture id. *)
Definition filed (kv : Z * fixture_record) : Prop := fixtureId (snd kv) = fst kv.

(** The fixture id an odds item carries, 0 when it carries none. *)
Definition odds_fixture_id (it : odds_item) : Z :=
  match oi_fixture_id it with Some z => z | None => 0%Z end.

(** An Over/Under bet whose only outcome has no price. *)
Definition unpriced_books : list book :=
  [a_book "bet365"
     [a_bet "Over/Under" [mk_outcome (Some (PStr "Over 2.5")) None None]]].

(** The warnings a log gives rise to: one per operation that raised
    anything but [FileNotFoundError]. *)
Fixpoint warnings_in (log : list event) : list (string * exn) :=
  match log with
  | [] => []
  | (Stat p, Some e) :: log' | (Remove p, Some e) :: log' =>
      match e with
      | FileNotFoundError => warnings_in log'
      | _ => (p, e) :: warnings_in log'
      end
  | _ :: log' => warnings_in log'
  end.

(** A second fixture of the same day, from another league. *)
Definition other_fixture : fixture_item :=
  mk_fixture_item 2002 (PStr "2025-08-16T14:00:00+00:00") (Some (PStr "NS")) 39
                  (Some (PStr "England")) (Some (PStr "Premier League"))
                  (Some (PStr "Leeds")) (Some (PStr "Everton")).

Definition sample_snapshot : snapshot :=
  match build_snapshot str "2025-08-16" [one_fixture; other_fixture] two_answers with
  | Ok s => s
  | Raise _ => mk_snapshot "" 0 []
  end.

(** The run of the pruner over a part of the walk, in full: result, log,
    deleted files, warnings; a file already deleted is not removed
    again. *)
Definition prune_run (st_mtime : string -> Q) (cutoff : Q) (ps : list string)
           (removed : list string) (w : world)
           (r : world * result (list string)) : Prop :=
  exists new,
    r = (mk_world (w_log w ++ new) (w_deleted w ++ removed_in new)
                  (w_stdout w ++ warnings_in new),
         Ok (removed ++ removed_in new)) /\
    visits st_mtime cutoff ps new /\
    (forall fp, In fp (w_deleted w) -> ~ In fp (removed_in new)) /\
    NoDup (removed_in new).

(* ------------------------------------------------------------------ *)
(** ** HTTP with retry and back-off *)

(** What [requests.get] answers: the status code, the body decoded by
    [resp.json()] ([None] when decoding raises) and the header
    [Retry-After]. *)
Record response (J : Type) : Type := mk_response {
  status_code : Z;
  json : option J;
  retry_after : option string
}.

Arguments mk_response {J} status_code json retry_after.

(** How a call of [http_get] ends: it returns a value ([None] is
    Python's [None]), raises [RuntimeError], or lets the exception of
    [requests.get] through. *)
Inductive http_outcome (J : Type) : Type :=
| Returned (v : option J)
| RuntimeError
| RequestFailed.

Arguments Returned {J} v.
Arguments RuntimeError {J}.
Arguments RequestFailed {J}.

(** A call of [http_get]: the requests made, the sleeps slept, in order,
    and the outcome. *)
Record http_run (J : Type) : Type := mk_http_run {
  h_requests : nat;
  h_sleeps : list Q;
  h_outcome : http_outcome J
}.

Arguments mk_http_run {J} h_requests h_sleeps h_outcome.

(** [status in (429, 500, 502, 503, 504)] *)
Definition retryable (status : Z) : bool :=
  existsb (Z.eqb status) [429; 500; 502; 503; 504]%Z.

(** [max(a, b)] and [min(a, b)]: the first argument unless the second is
    strictly beyond it. *)
Definition pymax (a b : Q) : Q := if Qltb a b then b else a.
Definition pymin (a b : Q) : Q := if Qltb b a then b else a.

Section Http.
Variable J : Type.
(** The answer to the request number [i] (from 0), [None] when
    [requests.get] raises; and [float] on a header text, [None] when it
    raises.  The delays are numbers [time.sleep] takes: a header that
    [float] reads as [inf], as [nan] or as more seconds than a sleep can
    last is outside the model. *)
Variable respond : nat -> option (response J).
Variable float_of : string -> option Q.

(** The delay a response asks for, when its header is present, not
    empty and a number. *)
Definition header_delay (resp : response J) : option Q :=
  match retry_after resp with
  | Some ra => if negb (ra =? "")%string then float_of ra else None
  | None => None
  end.

(** The loop of [http_get]: [k] iterations are left of [n], the request
    to come is number [i], and [attempt] is [S i]. *)
Fixpoint http_loop (n k i : nat) (delay : Q) (sleeps : list Q) : http_run J :=
  match k with
  | O => mk_http_run i sleeps (Returned None)
  | S k' =>
      match respond i with
      | None => mk_http_run (S i) sleeps RequestFailed
      | Some resp =>
          if (status_code resp =? 200)%Z then
            match json resp with
            | Some j => mk_http_run (S i) sleeps (Returned (Some j))
            | None => mk_http_run (S i) sleeps RuntimeError
            end
          else if retryable (status_code resp) then
            let delay :=
              match header_delay resp with
              | Some q => pymax delay q
              | None => delay
              end in
            if S i <? n
            then http_loop n k' (S i) (pymin (delay * 2) 10)%Q (sleeps ++ [delay])
            else mk_http_run (S i) sleeps RuntimeError
          else mk_http_run (S i) sleeps RuntimeError
      end
  end.

(** [http_get(url, params, max_retries)] *)
Definition http_get (max_retries : Z) : http_run J :=
  let n := Z.to_nat max_retries in
  http_loop n n 0 0.8%Q [].
End Http.

(** The delays of the back-off when no response names one: from [d],
    doubled up to 10. *)
Fixpoint backoff_from (d : Q) (m : nat) : Q :=
  match m with
  | O => d
  | S m' => backoff_from (pymin (d * 2) 10)%Q m'
  end.

(** A server that answers 503 twice, asking for 3 seconds the first
    time, then 200. *)
Definition busy_server (i : nat) : option (response string) :=
  match i with
  | 0 => Some (mk_response 503 None (Some "3"))
  | 1 => Some (mk_response 503 None None)
  | _ => Some (mk_response 200 (Some "{}") None)
  end.

(** A server that is never ready and names no delay. *)
Definition down_server (i : nat) : option (response string) :=
  Some (mk_response 503 None None).

(** A [float_of] for the examples: [float] on the plain decimals
    [-?\d+(\.\d+)?].  It answers [None] on every other text, of which
    [float] reads some ([1e1], [+3], [inf]); the examples have none. *)
Definition decimal_float (s : string) : option Q :=
  match search_group0 RX_NUMBER s with
  | Some g => if (g =? s)%string then Some (float g) else None
  | None => None
  end.

(** The end of [main]: store the document, then prune; the pair of the
    archive path and the removed paths is what the report is made of. *)
Definition main_persist (fault : list event -> fs_op -> option exn)
           (st_mtime : string -> Q) (now : Q) (tree_at : string -> option tree)
           (out : snapshot) (out_dir : string) (retention_days : Z)
  : io (string * list string) :=
  gz_path <~ save_snapshot fault out out_dir ;;
  removed <~ prune_old_snapshots fault st_mtime now tree_at out_dir retention_days ;;
  io_ret (gz_path, removed).

(** The names of a directory tree are names: none starts with "/". *)
Fixpoint relative_names (t : tree) : bool :=
  match t with
  | Dir files subdirs =>
      forallb (fun fn => negb (startswith "/" fn)) files &&
      (fix sub (l : list (string * tree)) : bool :=
         match l with
         | [] => true
         | (n, t') :: l' => negb (startswith "/" n) && relative_names t' && sub l'
         end) subdirs
  end.

(* ================================================================== *)
(** * Properties *)

(** ** The patterns on names of the feed *)

Example rx_match_winner_1 : search RX_MATCH_WINNER "Match Winner" = true.
Proof. reflexivity. Qed.
Example rx_match_winner_2 : search RX_MATCH_WINNER "Match Winner 2nd Half" = false.
Proof. reflexivity. Qed.
(** The no-break space and the next-line control are white space. *)
Example rx_match_winner_nbsp :
  search RX_MATCH_WINNER ("Match" ++ String (ascii_of_nat 160) "Winner") = true /\
  search RX_MATCH_WINNER ("match" ++ String (ascii_of_nat 133) "winner") = true /\
  strip (String (ascii_of_nat 133) " Brazil Serie A" ++ String (ascii_of_nat 160) "")
  = "Brazil Serie A"%string.
Proof. vm_compute. auto. Qed.

Example rx_over_under_1 : search RX_OVER_UNDER "Goals Over/Under" = true.
Proof. reflexivity. Qed.
Example rx_handicap_1 : search RX_HANDICAP "Handicap Result" = true.
Proof. reflexivity. Qed.
Example rx_handicap_2 : search RX_HANDICAP "Handicap Result Corners" = false.
Proof. reflexivity. Qed.
Example rx_first_half_1 : search RX_FIRST_HALF_WIN "1st half winner" = true.
Proof. reflexivity. Qed.
Example rx_number_1 : search_group0 RX_NUMBER "Over 2.25 goals" = Some "2.25".
Proof. reflexivity. Qed.
Example rx_number_2 : search_group0 RX_NUMBER "Home -1" = Some "-1".
Proof. reflexivity. Qed.
Example rx_number_3 : search_group0 RX_NUMBER "a-b 3." = Some "3".
Proof. reflexivity. Qed.


Example end_to_end :
  extract_markets
    [a_book "bet365"
       [a_bet "Match Winner" [val "Home" "1.50"; val "Draw" "3.20"; val "Away" "6.00"];
        a_bet "Over/Under" [val "Over 2.5" "1.90"; val "Under 2.5" "1.90"]]]
  = Ok [("matchWinner", [("home", PStr "1.50"); ("draw", PStr "3.20");
                         ("away", PStr "6.00"); ("bookmaker", PStr "bet365")]);
        ("overUnder", [("line", PStr "2.5"); ("over", PStr "1.90");
                       ("under", PStr "1.90"); ("bookmaker", PStr "bet365")])].
Proof. vm_compute. reflexivity. Qed.

(* ------------------------------------------------------------------ *)
(** ** Bookmaker ranker *)

Section Ranker.
Variable rx : regex.

Lemma pick_loop_offers books best best_score :
  pick_loop rx books best best_score
  = pick_offers (offers rx books) best best_score.
Proof.
  revert best best_score.
  induction books as [|bk books IH]; intros best best_score; simpl.
  - reflexivity.
  - unfold offers in *. unfold offer_of at 1.
    destruct (first_bet rx bk) as [b|]; simpl; [|apply IH].
    destruct (bet_truthy b); simpl; [|apply IH].
    unfold offer_score; simpl fst; simpl snd; cbv zeta.
    destruct best, best_score; simpl; try destruct (_ <? _)%Z; apply IH.
Qed.

(** Once a best offer is held, the loop ends on an offer that no
    later offer beats and that beats every offer before it. *)
Lemma pick_offers_from l : forall o0,
  exists w,
    pick_offers l (Some o0) (Some (offer_score o0)) = Some w /\
    (offer_score o0 <= offer_score w)%Z /\
    ((w = o0 /\ forall o, In o l -> (offer_score o <= offer_score o0)%Z) \/
     (exists pre post,
         l = pre ++ w :: post /\
         (offer_score o0 < offer_score w)%Z /\
         (forall o, In o pre -> (offer_score o < offer_score w)%Z) /\
         (forall o, In o post -> (offer_score o <= offer_score w)%Z))).
Proof.
  induction l as [|o l IH]; intros o0; simpl.
  - exists o0. split; [reflexivity|]. split; [lia|]. left. split; [reflexivity|].
    intros o [].
  - destruct (offer_score o0 <? offer_score o)%Z eqn:E.
    + apply Z.ltb_lt in E.
      destruct (IH o) as (w & Hw & Hle & Hcase). exists w.
      split; [exact Hw|]. split; [lia|]. right.
      destruct Hcase as [[-> Hall] | (pre & post & -> & Hlt & Hpre & Hpost)].
      * exists [], l. simpl. repeat split; auto. intros o' [].
      * exists (o :: pre), post. simpl. repeat split; auto; try lia.
        intros o' [<- | Hin]; [lia | auto].
    + apply Z.ltb_ge in E.
      destruct (IH o0) as (w & Hw & Hle & Hcase). exists w.
      split; [exact Hw|]. split; [exact Hle|].
      destruct Hcase as [[-> Hall] | (pre & post & -> & Hlt & Hpre & Hpost)].
      * left. split; [reflexivity|]. intros o' [<- | Hin]; [lia | auto].
      * right. exists (o :: pre), post. simpl. repeat split; auto.
        intros o' [<- | Hin]; [lia | auto].
Qed.

Lemma score_is_spec_score (o : offer) : offer_score o = spec_score o.
Proof.
  unfold offer_score, spec_score, score_of, spec_preference_weight,
    spec_outcome_count, pref_rank.
  destruct (index _ PREFERRED_BOOKMAKERS); lia.
Qed.
End Ranker.

(** C3. Among the offers that match the rule, [_pick_bookmaker] returns
    the one of highest score, the first such in the order of the input:
    every earlier offer scores strictly less, every later one at most as
    much.  The score is (preference weight * 100) + outcome count, the
    weight being size + 2 - index on the preference list and 1 off it. *)
Theorem pick_bookmaker_first_maximum (rx : regex) (books : list book) :
  offers rx books <> [] ->
  exists pre w post,
    offers rx books = pre ++ w :: post /\
    _pick_bookmaker books rx = Some w /\
    (forall o, In o pre -> (spec_score o < spec_score w)%Z) /\
    (forall o, In o post -> (spec_score o <= spec_score w)%Z) /\
    (forall o, offer_score o = spec_score o).
Proof.
  intros Hne. unfold _pick_bookmaker. rewrite pick_loop_offers.
  destruct (offers rx books) as [|o l]; [congruence|]. simpl.
  destruct (pick_offers_from l o) as (w & Hw & _ & Hcase).
  destruct Hcase as [[-> Hall] | (pre & post & -> & Hlt & Hpre & Hpost)].
  - exists [], o, l. simpl. rewrite Hw.
    repeat split; auto using score_is_spec_score.
    + intros o' [].
    + intros o' Hin. rewrite <- !score_is_spec_score. auto.
  - exists (o :: pre), w, post. simpl. rewrite Hw.
    repeat split; auto using score_is_spec_score.
    + intros o' Hin. rewrite <- !score_is_spec_score.
      destruct Hin as [<- | Hin]; auto.
    + intros o' Hin. rewrite <- !score_is_spec_score. auto.
Qed.

Lemma pick_bookmaker_first_maximum_witness :
  offers RX_MATCH_WINNER ranker_books <> [] /\
  exists pre w post,
    offers RX_MATCH_WINNER ranker_books = pre ++ w :: post /\
    _pick_bookmaker ranker_books RX_MATCH_WINNER = Some w /\
    (forall o, In o pre -> (spec_score o < spec_score w)%Z) /\
    (forall o, In o post -> (spec_score o <= spec_score w)%Z) /\
    (forall o, offer_score o = spec_score o).
Proof.
  split.
  - vm_compute. discriminate.
  - apply (pick_bookmaker_first_maximum RX_MATCH_WINNER ranker_books).
    vm_compute. discriminate.
Defined.

Example ranker_books_winner :
  option_map (fun o => book_name (fst o))
             (_pick_bookmaker ranker_books RX_MATCH_WINNER)
  = Some (Some (PStr "bet365")).
Proof. vm_compute. reflexivity. Qed.

(* ------------------------------------------------------------------ *)
(** ** Market extractor *)

Lemma pick_in_offers rx books w :
  _pick_bookmaker books rx = Some w -> In w (offers rx books).
Proof.
  unfold _pick_bookmaker. rewrite pick_loop_offers.
  destruct (offers rx books) as [|o l]; simpl; [discriminate|].
  destruct (pick_offers_from l o) as (w' & Hw & _ & Hcase).
  rewrite Hw. intros [= <-].
  destruct Hcase as [[-> _] | (pre & post & -> & _)].
  - now left.
  - right. apply in_or_app. right. now left.
Qed.

Lemma pick_none rx books :
  offers rx books = [] -> _pick_bookmaker books rx = None.
Proof.
  intros H. unfold _pick_bookmaker. rewrite pick_loop_offers, H. reflexivity.
Qed.

Lemma offer_sound rx books bk b :
  In (bk, b) (offers rx books) ->
  In bk books /\ In b (get_list (book_bets bk)) /\ search rx (bet_label b) = true.
Proof.
  unfold offers. rewrite in_flat_map. intros (bk' & Hbk & Hin).
  unfold offer_of in Hin.
  destruct (first_bet rx bk') as [b'|] eqn:E; [|destruct Hin].
  destruct (bet_truthy b'); [|destruct Hin].
  destruct Hin as [[= <- <-] | []].
  unfold first_bet, next in E. apply find_some in E. tauto.
Qed.

Lemma no_rule_no_offer rx books :
  (forall bk b, In bk books -> In b (get_list (book_bets bk)) ->
                search rx (bet_label b) = false) ->
  offers rx books = [].
Proof.
  intros H. destruct (offers rx books) as [|[bk b] l] eqn:E; [reflexivity|].
  assert (Hin : In (bk, b) (offers rx books)) by (rewrite E; now left).
  apply offer_sound in Hin. destruct Hin as (H1 & H2 & H3).
  rewrite (H bk b H1 H2) in H3. discriminate.
Qed.

Lemma block_match_winner_entry books out :
  block_match_winner books out
  = add_entry "matchWinner"
      (three_way_entry is_draw_mw (_pick_bookmaker books RX_MATCH_WINNER)) out.
Proof.
  unfold block_match_winner, three_way_entry.
  destruct (_pick_bookmaker books RX_MATCH_WINNER) as [[bk b]|]; [|reflexivity].
  cbv zeta. destruct (truthy _ || truthy _ || truthy _); reflexivity.
Qed.

Lemma block_first_half_entry books out :
  block_first_half books out
  = add_entry "firstHalfWinner"
      (three_way_entry is_draw_fh (_pick_bookmaker books RX_FIRST_HALF_WIN)) out.
Proof.
  unfold block_first_half, three_way_entry.
  destruct (_pick_bookmaker books RX_FIRST_HALF_WIN) as [[bk b]|]; [|reflexivity].
  cbv zeta. destruct (truthy _ || truthy _ || truthy _); reflexivity.
Qed.

Lemma block_btts_entry books out :
  block_btts books out
  = add_entry "btts" (btts_entry (_pick_bookmaker books RX_BTTS)) out.
Proof.
  unfold block_btts, btts_entry.
  destruct (_pick_bookmaker books RX_BTTS) as [[bk b]|]; [|reflexivity].
  cbv zeta. destruct (truthy _ || truthy _); reflexivity.
Qed.

Lemma block_handicap_entry books out :
  block_handicap books out
  = add_entry "handicap" (handicap_entry (_pick_bookmaker books RX_HANDICAP)) out.
Proof.
  unfold block_handicap, handicap_entry.
  destruct (_pick_bookmaker books RX_HANDICAP) as [[bk b]|]; [|reflexivity].
  cbv zeta. destruct (truthy _ || truthy _); reflexivity.
Qed.

Lemma block_over_under_entry books out :
  block_over_under books out
  = (e <- over_under_entry (_pick_bookmaker books RX_OVER_UNDER) ;;
     Ok (add_entry "overUnder" e out)).
Proof.
  unfold block_over_under, over_under_entry.
  destruct (_pick_bookmaker books RX_OVER_UNDER) as [[bk b]|]; [|reflexivity].
  cbv zeta.
  destruct (opt_or (next over_exact_p _) _) as [over_pick|e]; [|reflexivity].
  simpl.
  destruct (opt_or (next under_exact_p _) _) as [under_pick|e]; [|reflexivity].
  simpl.
  destruct (opt_truthy outcome_truthy over_pick || opt_truthy outcome_truthy under_pick);
    reflexivity.
Qed.

(** [extract_markets] is the assembly of its five entries, and raises
    exactly when the Over/Under entry does. *)
Lemma extract_markets_entries books :
  extract_markets books
  = (e2 <- over_under_entry (_pick_bookmaker books RX_OVER_UNDER) ;;
     Ok (assemble
           (three_way_entry is_draw_mw (_pick_bookmaker books RX_MATCH_WINNER))
           e2
           (btts_entry (_pick_bookmaker books RX_BTTS))
           (handicap_entry (_pick_bookmaker books RX_HANDICAP))
           (three_way_entry is_draw_fh (_pick_bookmaker books RX_FIRST_HALF_WIN)))).
Proof.
  unfold extract_markets. rewrite block_over_under_entry.
  destruct (over_under_entry _) as [e2|e]; [|reflexivity]. simpl.
  rewrite block_first_half_entry, block_handicap_entry, block_btts_entry,
    block_match_winner_entry.
  reflexivity.
Qed.

Lemma assemble_get e1 e2 e3 e4 e5 T :
  dict_get (key_of T) (assemble e1 e2 e3 e4 e5)
  = match T with
    | MatchWinner => e1
    | OverUnder => e2
    | BothTeamsToScore => e3
    | Handicap => e4
    | FirstHalfWinner => e5
    end.
Proof.
  destruct e1, e2, e3, e4, e5, T; reflexivity.
Qed.

Lemma assemble_in e1 e2 e3 e4 e5 k mk :
  In (k, mk) (assemble e1 e2 e3 e4 e5) ->
  exists T, k = key_of T /\ dict_get (key_of T) (assemble e1 e2 e3 e4 e5) = Some mk.
Proof.
  destruct e1, e2, e3, e4, e5; cbn; intros H;
    repeat (destruct H as [[= <- <-] | H];
            [ first [ now exists MatchWinner | now exists OverUnder
                    | now exists BothTeamsToScore | now exists Handicap
                    | now exists FirstHalfWinner ] | ]);
    destruct H.
Qed.

Lemma extract_markets_get books m T :
  extract_markets books = Ok m -> entry_of T books = Ok (dict_get (key_of T) m).
Proof.
  rewrite extract_markets_entries.
  destruct (over_under_entry _) as [e2|e] eqn:E2; simpl; [|discriminate].
  intros [= <-]. rewrite assemble_get.
  destruct T; unfold entry_of; simpl rule_of; try reflexivity. exact E2.
Qed.

Lemma extract_markets_in books m k mk :
  extract_markets books = Ok m -> In (k, mk) m ->
  exists T, k = key_of T /\ entry_of T books = Ok (Some mk).
Proof.
  intros Hm Hin. pose proof Hm as Hm'. rewrite extract_markets_entries in Hm'.
  destruct (over_under_entry _) as [e2|e]; simpl in Hm'; [|discriminate].
  injection Hm' as <-.
  apply assemble_in in Hin. destruct Hin as (T & -> & Hget).
  exists T. split; [reflexivity|].
  rewrite (@extract_markets_get books _ T Hm). now rewrite Hget.
Qed.

(** An entry exists only for an offer the ranker returned. *)
Lemma entry_has_offer T books mk :
  entry_of T books = Ok (Some mk) ->
  exists bk b, _pick_bookmaker books (rule_of T) = Some (bk, b).
Proof.
  unfold entry_of.
  destruct (_pick_bookmaker books (rule_of T)) as [[bk b]|]; [eauto|].
  destruct T; simpl; discriminate.
Qed.

(* ------------------------------------------------------------------ *)
(** ** Over/Under: the fallback to the nearest line *)

Lemma Qltb_true a b : Qltb a b = true -> (a < b)%Q.
Proof.
  unfold Qltb. intros H. apply negb_true_iff in H.
  apply Qnot_le_lt. intros Hle. apply Qle_bool_iff in Hle. congruence.
Qed.

Lemma Qltb_false a b : Qltb a b = false -> (b <= a)%Q.
Proof.
  unfold Qltb. intros H. apply negb_false_iff in H. now apply Qle_bool_iff.
Qed.

(** Called with a float where the predicate is expected, it raises on
    the first outcome it looks at. *)
Lemma nearest_to_float_predicate t q arr :
  arr <> [] -> _nearest_to t arr (PyFloat q) = Raise TypeError.
Proof.
  destruct arr as [|ov arr]; [congruence|]. reflexivity.
Qed.

Lemma nearest_to_nothing t f : _nearest_to t [] f = Ok None.
Proof. reflexivity. Qed.

(** Whenever the winning bookmaker lists an Over outcome and none on the
    line 2.5, the extraction raises. *)
Lemma over_under_fallback_raises books bk b :
  _pick_bookmaker books RX_OVER_UNDER = Some (bk, b) ->
  next over_exact_p (get_list (bet_values b)) = None ->
  filter is_over (get_list (bet_values b)) <> [] ->
  extract_markets books = Raise TypeError.
Proof.
  intros Hpick Hexact Hover.
  rewrite extract_markets_entries, Hpick. unfold over_under_entry. cbv zeta.
  rewrite Hexact. unfold opt_or at 1. cbn [opt_truthy].
  rewrite (nearest_to_float_predicate target target Hover). reflexivity.
Qed.

(** C1. On an Over/Under bet without an outcome on the line 2.5 the
    selector does not fall back to the nearest line: the extraction
    raises [TypeError]. *)
Theorem over_under_fallback_type_error :
  extract_markets no_exact_line_books = Raise TypeError.
Proof. vm_compute. reflexivity. Qed.

Example nearest_to_asymmetric_lines :
  _nearest_to target [val "Over 2.0" "1.5"; val "Over 3.0" "2.4"; val "Over 2.25" "1.7"]
              (PyFunction (fun _ => true))
  = Ok (Some (val "Over 2.25" "1.7")).
Proof. vm_compute. reflexivity. Qed.

(* ------------------------------------------------------------------ *)
(** ** Handicap: the home leg *)

(** The home line pattern finds every text that ends in "1". *)
Lemma line_m1_any_prefix (p : string) : search RX_LINE_M1 (p ++ "1") = true.
Proof.
  unfold search, search_span. generalize 0.
  induction p as [|c p IH]; intros pos.
  - reflexivity.
  - cbn [append search_from].
    destruct (match_at RX_LINE_M1 pos (String c (p ++ "1"))); [reflexivity|].
    apply IH.
Qed.

Lemma home_leg_any_line_ending_in_one (p o : string) :
  is_home_m1 (val_h "Home" (p ++ "1") o) = true.
Proof.
  unfold is_home_m1. apply orb_true_iff. left. apply andb_true_iff. split.
  - reflexivity.
  - unfold line_text, val_h. cbn [ov_handicap ov_value get get_default].
    unfold py_or. cbn [truthy].
    assert (Hne : ((p ++ "1") =? "")%string = false)
      by (destruct p; reflexivity).
    rewrite Hne. cbn [negb str]. apply line_m1_any_prefix.
Qed.

Example home_line_plus_one : is_home_m1 (val "Home +1" "1.25") = true.
Proof. vm_compute. reflexivity. Qed.

Example home_line_minus_eleven : is_home_m1 (val_h "Home" "-11" "1.25") = true.
Proof. vm_compute. reflexivity. Qed.

Example away_line_minus_one : is_away_p1 (val "Away -1" "1.25") = false.
Proof. vm_compute. reflexivity. Qed.

Example away_line_plus_eleven : is_away_p1 (val_h "Away" "+11" "1.25") = false.
Proof. vm_compute. reflexivity. Qed.

(** C2. The home leg is not held to the line -1: with the outcome
    "Home +1" listed before "Home -1", the market carries the price of
    "Home +1" as [homeMinus1]. *)
Theorem handicap_home_leg_other_line :
  extract_markets handicap_books
  = Ok [("handicap", [("homeMinus1", PStr "1.25"); ("awayPlus1", PNone);
                      ("bookmaker", PStr "bet365")])].
Proof. vm_compute. reflexivity. Qed.

(* ------------------------------------------------------------------ *)
(** ** Market matcher *)

Example two_rules_one_name :
  search (rule_of OverUnder) "Handicap Totals" = true /\
  search (rule_of Handicap) "Handicap Totals" = true /\
  spec_classify "Handicap Totals" = Some OverUnder.
Proof. vm_compute. auto. Qed.

(** The name "Handicap Totals" is the source of the Over/Under market
    and of the Handicap market of one fixture. *)
Lemma one_name_two_market_types : ~ single_classification two_rule_books.
Proof.
  intros H.
  assert (Hsrc : forall T, T = OverUnder \/ T = Handicap ->
                           source_of two_rule_books T "Handicap Totals").
  { intros T HT. unfold source_of.
    destruct HT as [-> | ->]; do 4 eexists; repeat split;
      try (vm_compute; reflexivity). }
  specialize (H OverUnder Handicap "Handicap Totals"
                (Hsrc _ (or_introl eq_refl)) (Hsrc _ (or_intror eq_refl))).
  discriminate H.
Qed.

(** C4. The five rules are applied one by one, each to every bet name: a
    market of type [T] comes from a bet of one of the bookmakers whose
    name satisfies the rule of [T], and when no bet name satisfies that
    rule the fixture has no market of type [T]. *)
Theorem market_source_satisfies_its_rule (books : list book) (T : MarketType)
        (m : markets) :
  extract_markets books = Ok m ->
  (forall mk, dict_get (key_of T) m = Some mk ->
     exists bk b,
       _pick_bookmaker books (rule_of T) = Some (bk, b) /\
       In bk books /\ In b (get_list (book_bets bk)) /\
       search (rule_of T) (bet_label b) = true) /\
  ((forall bk b, In bk books -> In b (get_list (book_bets bk)) ->
                 search (rule_of T) (bet_label b) = false) ->
   dict_get (key_of T) m = None).
Proof.
  intros Hm. pose proof (@extract_markets_get books m T Hm) as He. split.
  - intros mk Hget. rewrite Hget in He.
    destruct (entry_has_offer _ _ He) as (bk & b & Hpick).
    exists bk, b. split; [exact Hpick|].
    apply pick_in_offers in Hpick. now apply offer_sound in Hpick.
  - intros Hnone. destruct (dict_get (key_of T) m) as [mk|]; [|reflexivity].
    destruct (entry_has_offer _ _ He) as (bk & b & Hpick).
    rewrite (pick_none _ _ (no_rule_no_offer _ _ Hnone)) in Hpick. discriminate.
Qed.

Lemma market_source_satisfies_its_rule_witness :
  (exists bk b,
      _pick_bookmaker two_rule_books (rule_of Handicap) = Some (bk, b) /\
      In bk two_rule_books /\ In b (get_list (book_bets bk)) /\
      search (rule_of Handicap) (bet_label b) = true) /\
  (exists m, extract_markets corners_books = Ok m /\
             dict_get (key_of MatchWinner) m = None).
Proof.
  split.
  - refine (proj1 (@market_source_satisfies_its_rule two_rule_books Handicap _ _) _ _).
    + vm_compute. reflexivity.
    + vm_compute. reflexivity.
  - eexists. split; [vm_compute; reflexivity|].
    refine (proj2 (@market_source_satisfies_its_rule corners_books MatchWinner _ _) _).
    + vm_compute. reflexivity.
    + intros bk b [<- | []] [<- | []]. vm_compute. reflexivity.
Defined.

(* ------------------------------------------------------------------ *)
(** ** Shape of the extracted markets *)

Lemma next_odd_none p vals : next p vals = None -> next_odd p vals = PNone.
Proof. unfold next_odd. now intros ->. Qed.

Lemma next_filter_none (p q : outcome -> bool) vals :
  (forall v, q v = true -> p v = true) ->
  next p vals = None -> next q vals = None /\ filter p vals = [].
Proof.
  intros Hqp. unfold next. induction vals as [|v vals IH]; simpl; [auto|].
  destruct (p v) eqn:Ep; [discriminate|]. intros H.
  destruct (IH H) as [H1 H2]. split; [|exact H2].
  destruct (q v) eqn:Eq; [|exact H1]. apply Hqp in Eq. congruence.
Qed.

(** The record of an entry: its keys, its bookmaker, its legs. *)
Lemma entry_shape T books mk bk b :
  entry_of T books = Ok (Some mk) ->
  _pick_bookmaker books (rule_of T) = Some (bk, b) ->
  keys mk = shape_of T /\
  dict_get "bookmaker" mk = Some (get (book_name bk)) /\
  (forall leg p, In (leg, p) (legs_of T) ->
     exists v, dict_get leg mk = Some v /\
               (next p (get_list (bet_values b)) = None -> v = PNone)).
Proof.
  unfold entry_of. intros He Hpick. rewrite Hpick in He.
  destruct T; cbn [three_way_entry btts_entry handicap_entry over_under_entry] in He;
    cbv zeta in He.
  - destruct (truthy _ || truthy _ || truthy _); [|discriminate].
    injection He as <-. repeat split.
    intros leg p [[= <- <-] | [[= <- <-] | [[= <- <-] | []]]];
      eexists; (split; [reflexivity | apply next_odd_none]).
  - destruct (opt_or (next over_exact_p _) _) as [over_pick|e] eqn:Eo; [|discriminate].
    cbn [rbind] in He.
    destruct (opt_or (next under_exact_p _) _) as [under_pick|e] eqn:Eu; [|discriminate].
    cbn [rbind] in He.
    destruct (opt_truthy outcome_truthy over_pick || opt_truthy outcome_truthy under_pick);
      [|discriminate].
    injection He as <-. repeat split.
    intros leg p [[= <- <-] | [[= <- <-] | []]]; eexists; (split; [reflexivity|]);
      intros Hnone.
    + destruct (@next_filter_none is_over over_exact_p (get_list (bet_values b)))
        as [H1 H2]; [|exact Hnone|].
      { unfold over_exact_p. intros v Hv. now apply andb_true_iff in Hv. }
      rewrite H1, H2 in Eo. unfold opt_or in Eo. cbn in Eo.
      injection Eo as <-. reflexivity.
    + destruct (@next_filter_none is_under under_exact_p (get_list (bet_values b)))
        as [H1 H2]; [|exact Hnone|].
      { unfold under_exact_p. intros v Hv. now apply andb_true_iff in Hv. }
      rewrite H1, H2 in Eu. unfold opt_or in Eu. cbn in Eu.
      injection Eu as <-. reflexivity.
  - destruct (truthy _ || truthy _); [|discriminate].
    injection He as <-. repeat split.
    intros leg p [[= <- <-] | [[= <- <-] | []]];
      eexists; (split; [reflexivity | apply next_odd_none]).
  - destruct (truthy _ || truthy _); [|discriminate].
    injection He as <-. repeat split.
    intros leg p [[= <- <-] | [[= <- <-] | []]];
      eexists; (split; [reflexivity | apply next_odd_none]).
  - destruct (truthy _ || truthy _ || truthy _); [|discriminate].
    injection He as <-. repeat split.
    intros leg p [[= <- <-] | [[= <- <-] | [[= <- <-] | []]]];
      eexists; (split; [reflexivity | apply next_odd_none]).
Qed.

(** C10. Every key of the mapping the extractor returns is one of the
    five market keys; the record under it has the fixed keys of its
    type, among them [bookmaker] with the name of the bookmaker the
    ranker selected, and a leg for which the bookmaker lists no outcome
    is present with the value [None]. *)
Theorem extracted_markets_shape (books : list book) (m : markets) :
  extract_markets books = Ok m ->
  forall k mk, In (k, mk) m ->
    exists T bk b,
      k = key_of T /\
      _pick_bookmaker books (rule_of T) = Some (bk, b) /\
      keys mk = shape_of T /\
      dict_get "bookmaker" mk = Some (get (book_name bk)) /\
      (forall leg p, In (leg, p) (legs_of T) ->
         exists v, dict_get leg mk = Some v /\
                   (next p (get_list (bet_values b)) = None -> v = PNone)).
Proof.
  intros Hm k mk Hin.
  destruct (@extract_markets_in books m k mk Hm Hin) as (T & -> & He).
  destruct (@entry_has_offer T books mk He) as (bk & b & Hpick).
  exists T, bk, b. split; [reflexivity|]. split; [exact Hpick|].
  exact (@entry_shape T books mk bk b He Hpick).
Qed.

Lemma extracted_markets_shape_witness :
  extract_markets handicap_books = Ok handicap_books_markets /\
  forall k mk, In (k, mk) handicap_books_markets ->
    exists T bk b,
      k = key_of T /\
      _pick_bookmaker handicap_books (rule_of T) = Some (bk, b) /\
      keys mk = shape_of T /\
      dict_get "bookmaker" mk = Some (get (book_name bk)) /\
      (forall leg p, In (leg, p) (legs_of T) ->
         exists v, dict_get leg mk = Some v /\
                   (next p (get_list (bet_values b)) = None -> v = PNone)).
Proof.
  split.
  - vm_compute. reflexivity.
  - apply (@extracted_markets_shape handicap_books handicap_books_markets).
    vm_compute. reflexivity.
Defined.

(* ------------------------------------------------------------------ *)
(** ** Dictionaries *)

Section DictFacts.
Context {K : Type} `{Key K}.
Variable V : Type.
Implicit Types (d e : dict K V) (k : K) (v : V).

Lemma keq_refl k : keq k k = true.
Proof. now apply keq_spec. Qed.

Lemma keq_neq k k' : k <> k' -> keq k k' = false.
Proof.
  intros Hne. destruct (keq k k') eqn:E; [|reflexivity].
  apply keq_spec in E. contradiction.
Qed.

Lemma dict_get_set_eq k v d : dict_get k (dict_set k v d) = Some v.
Proof.
  induction d as [|[k' v'] d IH]; simpl.
  - now rewrite keq_refl.
  - destruct (keq k' k) eqn:E; simpl.
    + now rewrite keq_refl.
    + now rewrite E.
Qed.

Lemma dict_get_set_ne k k' v d :
  k <> k' -> dict_get k' (dict_set k v d) = dict_get k' d.
Proof.
  intros Hne. induction d as [|[k0 v0] d IH]; simpl.
  - now rewrite keq_neq.
  - destruct (keq k0 k) eqn:E; simpl.
    + apply keq_spec in E. subst k0. now rewrite keq_neq.
    + destruct (keq k0 k'); [reflexivity | exact IH].
Qed.

Lemma dict_get_none_keys k d : dict_get k d = None <-> ~ In k (keys d).
Proof.
  induction d as [|[k' v'] d IH]; simpl.
  - tauto.
  - destruct (keq k' k) eqn:E.
    + apply keq_spec in E. split; [discriminate | tauto].
    + rewrite IH. split; [|tauto].
      intros Hn [Heq | Hin]; [|tauto].
      apply keq_spec in Heq. congruence.
Qed.

Lemma keys_set k v d :
  keys (dict_set k v d) = if dict_mem k d then keys d else keys d ++ [k].
Proof.
  unfold dict_mem. induction d as [|[k' v'] d IH]; simpl; [reflexivity|].
  destruct (keq k' k) eqn:E; simpl.
  - apply keq_spec in E. now subst.
  - rewrite IH. now destruct (dict_get k d).
Qed.

Lemma nodup_keys_set k v d : NoDup (keys d) -> NoDup (keys (dict_set k v d)).
Proof.
  intros Hnd. rewrite keys_set. unfold dict_mem.
  destruct (dict_get k d) eqn:E; [exact Hnd|].
  apply dict_get_none_keys in E.
  apply NoDup_rev in Hnd. rewrite <- (rev_involutive (keys d ++ [k])).
  apply NoDup_rev. rewrite rev_app_distr. simpl. constructor; [|exact Hnd].
  now rewrite <- in_rev.
Qed.

Lemma nodup_keys_update d e : NoDup (keys d) -> NoDup (keys (dict_update d e)).
Proof.
  unfold dict_update. revert d.
  induction e as [|[k v] e IH]; intros d Hnd; simpl; [exact Hnd|].
  apply IH. now apply nodup_keys_set.
Qed.

(** [d.update(e)]: the keys of [e] take the values of [e]. *)
Lemma dict_get_update k d e :
  NoDup (keys e) ->
  dict_get k (dict_update d e)
  = match dict_get k e with Some v => Some v | None => dict_get k d end.
Proof.
  unfold dict_update. revert d.
  induction e as [|[k' v'] e IH]; intros d Hnd; simpl; [reflexivity|].
  inversion Hnd as [|? ? Hnotin Hnd']; subst.
  rewrite (IH _ Hnd').
  destruct (keq k' k) eqn:E.
  - apply keq_spec in E. subst k'.
    apply dict_get_none_keys in Hnotin. rewrite Hnotin.
    apply dict_get_set_eq.
  - destruct (dict_get k e); [reflexivity|].
    apply dict_get_set_ne. intros ->. now rewrite keq_refl in E.
Qed.

Lemma keys_filter_incl p e k : In k (keys (dict_filter p e)) -> In k (keys e).
Proof.
  unfold keys, dict_filter. rewrite !in_map_iff.
  intros (kv & <- & Hin). apply filter_In in Hin. exists kv. tauto.
Qed.

Lemma nodup_keys_filter p e : NoDup (keys e) -> NoDup (keys (dict_filter p e)).
Proof.
  induction e as [|[k v] e IH]; simpl; [auto|].
  intros Hnd. inversion Hnd as [|? ? Hnotin Hnd']; subst.
  destruct (p v); simpl; [|auto].
  constructor; [|auto]. intros Hin. apply Hnotin.
  exact (keys_filter_incl _ _ _ Hin).
Qed.

Lemma dict_get_filter p k e :
  NoDup (keys e) ->
  dict_get k (dict_filter p e)
  = match dict_get k e with
    | Some v => if p v then Some v else None
    | None => None
    end.
Proof.
  induction e as [|[k' v'] e IH]; simpl; [reflexivity|].
  intros Hnd. inversion Hnd as [|? ? Hnotin Hnd']; subst.
  destruct (keq k' k) eqn:E.
  - apply keq_spec in E. subst k'.
    destruct (p v') eqn:Ep; simpl.
    + now rewrite keq_refl.
    + apply dict_get_none_keys. intros Hin. apply Hnotin.
      exact (keys_filter_incl _ _ _ Hin).
  - destruct (p v'); simpl; [rewrite E|]; auto.
Qed.
End DictFacts.

(* ------------------------------------------------------------------ *)
(** ** Merge of the odds answers of one fixture *)

Lemma merge_markets_nodup old new :
  NoDup (keys old) -> NoDup (keys (merge_markets old new)).
Proof.
  intros Hnd. unfold merge_markets.
  destruct (nonempty new); [|exact Hnd]. now apply nodup_keys_update.
Qed.

Lemma merge_markets_get k old new :
  NoDup (keys new) ->
  dict_get k (merge_markets old new)
  = match dict_get k new with
    | Some v => if nonempty v then Some v else dict_get k old
    | None => dict_get k old
    end.
Proof.
  intros Hnd. unfold merge_markets. unfold markets, market in *.
  destruct new as [|kv new']; [reflexivity|].
  cbn [nonempty].
  rewrite dict_get_update by now apply nodup_keys_filter.
  rewrite dict_get_filter by exact Hnd.
  unfold dict in *.
  destruct (dict_get k (kv :: new')) as [v|]; [|reflexivity].
  destruct (nonempty v); reflexivity.
Qed.

Lemma fold_merge_last_write news : forall old,
  NoDup (keys old) ->
  Forall (fun m : markets => NoDup (keys m)) news ->
  NoDup (keys (fold_left merge_markets news old)) /\
  forall k, dict_get k (fold_left merge_markets news old)
            = spec_last_write k news (dict_get k old).
Proof.
  induction news as [|m news IH]; intros old Hold Hnews; simpl.
  - split; [exact Hold | reflexivity].
  - inversion Hnews as [|? ? Hm Hnews']; subst.
    destruct (IH (merge_markets old m) (@merge_markets_nodup old m Hold) Hnews')
      as [Hnd Hget].
    split; [exact Hnd|]. intros k. rewrite Hget.
    now rewrite merge_markets_get.
Qed.

Lemma assemble_nodup e1 e2 e3 e4 e5 : NoDup (keys (assemble e1 e2 e3 e4 e5)).
Proof.
  destruct e1, e2, e3, e4, e5; cbn;
    repeat (constructor; [cbn; intuition discriminate|]); constructor.
Qed.

Lemma extract_markets_nodup books m :
  extract_markets books = Ok m -> NoDup (keys m).
Proof.
  rewrite extract_markets_entries.
  destruct (over_under_entry _); simpl; [|discriminate].
  intros [= <-]. apply assemble_nodup.
Qed.

Lemma leagues_loop_concat responses : forall by_fixture,
  leagues_loop by_fixture responses = odds_loop by_fixture (List.concat responses).
Proof.
  induction responses as [|items responses IH]; intros by_fixture; simpl.
  - reflexivity.
  - revert by_fixture. induction items as [|it items IHi]; intros by_fixture; simpl.
    + apply IH.
    + destruct (odds_step by_fixture it) as [bf|e]; simpl; [apply IHi | reflexivity].
Qed.

(** The markets of one fixture after the odds loop: the fold of the
    merge over the extractions that reached it. *)
Lemma odds_loop_fixture fid items : forall by_fixture by_fixture' r,
  odds_loop by_fixture items = Ok by_fixture' ->
  fid <> 0%Z ->
  dict_get fid by_fixture = Some r ->
  exists ms,
    extractions_for fid items = map Ok ms /\
    dict_get fid by_fixture'
    = Some (with_markets r (fold_left merge_markets ms (fr_markets r))).
Proof.
  induction items as [|it items IH]; intros bf bf' r Hloop Hfid Hget.
  - simpl in Hloop. injection Hloop as <-. exists []. split; [reflexivity|].
    simpl. rewrite Hget. now destruct r.
  - cbn [odds_loop] in Hloop. cbn [extractions_for].
    unfold odds_step in Hloop.
    set (id := match oi_fixture_id it with Some z => z | None => 0%Z end) in *.
    destruct (Z.eqb_spec id fid) as [Heq | Hne].
    + subst id. rewrite Heq in Hloop.
      assert (Hz : (fid =? 0)%Z = false) by now apply Z.eqb_neq.
      unfold dict_mem in Hloop. rewrite Hz, Hget in Hloop. cbn [negb orb] in Hloop.
      destruct (extract_markets (get_list (oi_bookmakers it))) as [mk|e];
        [|discriminate].
      cbn [rbind] in Hloop.
      destruct (nonempty mk) eqn:Emk.
      * cbn [rbind] in Hloop.
        eapply IH in Hloop; [|exact Hfid | apply dict_get_set_eq].
        destruct Hloop as (ms & Hms & Hget').
        exists (mk :: ms). split; [simpl; now rewrite Hms|].
        assert (Hmerge : merge_markets (fr_markets r) mk
                         = dict_update (fr_markets r) (dict_filter nonempty mk))
          by (unfold merge_markets; now rewrite Emk).
        rewrite Hget'. cbn [fold_left]. rewrite Hmerge. reflexivity.
      * cbn [rbind] in Hloop.
        eapply IH in Hloop; [|exact Hfid | exact Hget].
        destruct Hloop as (ms & Hms & Hget').
        exists (mk :: ms). split; [simpl; now rewrite Hms|].
        assert (Hmerge : merge_markets (fr_markets r) mk = fr_markets r)
          by (unfold merge_markets; now rewrite Emk).
        rewrite Hget'. cbn [fold_left]. rewrite Hmerge. reflexivity.
    + destruct ((id =? 0)%Z || negb (dict_mem id bf)) eqn:Eskip.
      * cbn [rbind] in Hloop. eapply IH; eauto.
      * destruct (extract_markets (get_list (oi_bookmakers it))) as [mk|e];
          [|discriminate].
        cbn [rbind] in Hloop.
        destruct (nonempty mk).
        -- destruct (dict_get id bf) as [rid|]; [|discriminate].
           cbn [rbind] in Hloop.
           eapply IH in Hloop; [exact Hloop | exact Hfid |].
           rewrite dict_get_set_ne by exact Hne. exact Hget.
        -- cbn [rbind] in Hloop. eapply IH; eauto.
Qed.

(** The record filed under the id 0 is never touched: the guard of the
    loop takes 0 for an odds item without fixture id. *)
Lemma odds_loop_zero items : forall by_fixture by_fixture' r,
  odds_loop by_fixture items = Ok by_fixture' ->
  dict_get 0%Z by_fixture = Some r ->
  dict_get 0%Z by_fixture' = Some r.
Proof.
  induction items as [|it items IH]; intros bf bf' r Hloop Hget.
  - simpl in Hloop. now injection Hloop as <-.
  - cbn [odds_loop] in Hloop. unfold odds_step in Hloop.
    set (id := match oi_fixture_id it with Some z => z | None => 0%Z end) in *.
    destruct (Z.eqb_spec id 0) as [Heq | Hne].
    + cbn [orb rbind] in Hloop. eapply IH; eauto.
    + cbn [orb] in Hloop. destruct (negb (dict_mem id bf)).
      * cbn [rbind] in Hloop. eapply IH; eauto.
      * destruct (extract_markets (get_list (oi_bookmakers it))) as [mk|e];
          [|discriminate].
        cbn [rbind] in Hloop.
        destruct (nonempty mk).
        -- destruct (dict_get id bf) as [rid|]; [|discriminate].
           cbn [rbind] in Hloop.
           eapply IH in Hloop; [exact Hloop|].
           rewrite dict_get_set_ne by exact Hne. exact Hget.
        -- cbn [rbind] in Hloop. eapply IH; eauto.
Qed.

(** The odds answer of the fixture numbered 0 carries a Match Winner
    market, and the fixture ends without it. *)
Example fixture_zero_keeps_no_market :
  extract_markets (get_list (oi_bookmakers zero_answer))
  = Ok [("matchWinner", [("home", PStr "1.70"); ("draw", PStr "3.40");
                         ("away", PStr "4.80"); ("bookmaker", PStr "bet365")])] /\
  leagues_loop (index_fixtures str [zero_fixture]) [[zero_answer]]
  = Ok (index_fixtures str [zero_fixture]) /\
  option_map (fun r => fr_markets r) (dict_get 0%Z (index_fixtures str [zero_fixture]))
  = Some [].
Proof. vm_compute. auto. Qed.

(** For the fixture numbered 0 the last extracted market does not
    win: none is kept. *)
Lemma fixture_zero_counterexample : ~ last_write_wins_claim.
Proof.
  intros H.
  destruct (H 0%Z [[zero_answer]] (index_fixtures str [zero_fixture])
              (index_fixtures str [zero_fixture]) (record_of str zero_fixture))
    as (ms & r' & Hms & Hget & Hk).
  - vm_compute. reflexivity.
  - vm_compute. reflexivity.
  - constructor.
  - vm_compute in Hget. injection Hget as <-.
    vm_compute in Hms. destruct ms as [|m [|m' ms]]; try discriminate Hms.
    injection Hms as <-.
    specialize (Hk "matchWinner"). vm_compute in Hk. discriminate Hk.
Qed.

(** C8. After the loop over the odds answers the markets of a fixture
    whose id is not 0 are the merge, in order, of the extractions that
    reached it: under each market key stands the last non-empty market
    extracted for it, or what stood there before when there was none,
    and no key occurs twice.  The record of a fixture with the id 0 is
    left as it was. *)
Theorem odds_merge_last_write_wins (fid : Z) (responses : list (list odds_item))
        (by_fixture by_fixture' : dict Z fixture_record) (r : fixture_record) :
  leagues_loop by_fixture responses = Ok by_fixture' ->
  dict_get fid by_fixture = Some r ->
  NoDup (keys (fr_markets r)) ->
  (fid <> 0%Z ->
   exists ms r',
     extractions_for fid (List.concat responses) = map Ok ms /\
     dict_get fid by_fixture' = Some r' /\
     fr_markets r' = fold_left merge_markets ms (fr_markets r) /\
     NoDup (keys (fr_markets r')) /\
     forall k, dict_get k (fr_markets r')
               = spec_last_write k ms (dict_get k (fr_markets r))) /\
  (fid = 0%Z -> dict_get fid by_fixture' = Some r).
Proof.
  intros Hloop Hget Hnd. rewrite leagues_loop_concat in Hloop. split.
  2:{ intros ->. exact (odds_loop_zero _ _ Hloop Hget). }
  intros Hfid.
  destruct (@odds_loop_fixture fid _ _ _ r Hloop Hfid Hget) as (ms & Hms & Hget').
  exists ms, (with_markets r (fold_left merge_markets ms (fr_markets r))).
  split; [exact Hms|]. split; [exact Hget'|]. split; [reflexivity|].
  cbn [fr_markets with_markets].
  apply fold_merge_last_write; [exact Hnd|].
  clear Hloop Hget Hget' Hnd.
  revert ms Hms. induction (List.concat responses) as [|it items IH]; intros ms Hms.
  - destruct ms; [constructor | discriminate].
  - cbn [extractions_for] in Hms.
    destruct (_ =? fid)%Z; [|now apply IH].
    destruct ms as [|m ms]; [discriminate|]. cbn [map] in Hms.
    injection Hms as Hm Hms. constructor; [|now apply IH].
    exact (@extract_markets_nodup _ m Hm).
Qed.

Lemma odds_merge_last_write_wins_witness :
  exists ms r',
    extractions_for 1001 (List.concat two_answers) = map Ok ms /\
    dict_get 1001%Z merged_index = Some r' /\
    fr_markets r' = fold_left merge_markets ms (fr_markets (record_of str one_fixture)) /\
    NoDup (keys (fr_markets r')) /\
    forall k, dict_get k (fr_markets r')
              = spec_last_write k ms (dict_get k (fr_markets (record_of str one_fixture))).
Proof.
  apply (proj1 (@odds_merge_last_write_wins 1001 two_answers
                  (index_fixtures str [one_fixture]) merged_index
                  (record_of str one_fixture)
                  ltac:(vm_compute; reflexivity) ltac:(vm_compute; reflexivity)
                  ltac:(simpl; constructor))).
  discriminate.
Defined.

Example merged_index_markets :
  option_map (fun r => fr_markets r) (dict_get 1001%Z merged_index)
  = Some [("matchWinner", [("home", PStr "1.55"); ("draw", PStr "3.10");
                           ("away", PStr "5.50"); ("bookmaker", PStr "bet365")]);
          ("btts", [("yes", PStr "1.80"); ("no", PStr "1.95");
                    ("bookmaker", PStr "Betway")])].
Proof. vm_compute. reflexivity. Qed.

(* ------------------------------------------------------------------ *)
(** ** The snapshot document *)

Section SortedFacts.
Variable A : Type.
Variable le : A -> A -> bool.

Lemma insert_sorted_length x l :
  List.length (insert_sorted le x l) = S (List.length l).
Proof.
  induction l as [|y l IH]; simpl; [reflexivity|].
  destruct (le x y); simpl; [reflexivity | now rewrite IH].
Qed.

Lemma sorted_length l : List.length (sorted le l) = List.length l.
Proof.
  induction l as [|x l IH]; simpl; [reflexivity|].
  now rewrite insert_sorted_length, IH.
Qed.

Lemma insert_sorted_in x y l : In y (insert_sorted le x l) <-> y = x \/ In y l.
Proof.
  induction l as [|z l IH]; simpl; [intuition|].
  destruct (le x z); simpl; [intuition|]. rewrite IH. intuition.
Qed.

Lemma sorted_in y l : In y (sorted le l) <-> In y l.
Proof.
  induction l as [|x l IH]; simpl; [tauto|].
  rewrite insert_sorted_in, IH. intuition.
Qed.

Lemma insert_sorted_perm x l : Permutation (insert_sorted le x l) (x :: l).
Proof.
  induction l as [|y l IH]; simpl; [apply Permutation_refl|].
  destruct (le x y); [apply Permutation_refl|].
  eapply perm_trans; [apply perm_skip, IH | apply perm_swap].
Qed.

Lemma sorted_perm l : Permutation (sorted le l) l.
Proof.
  induction l as [|x l IH]; simpl; [apply perm_nil|].
  eapply perm_trans; [apply insert_sorted_perm | now apply perm_skip].
Qed.
End SortedFacts.

Section SnapshotFacts.
Variable to_sao_paulo : pyval -> string.

Lemma odds_loop_no_fixture items : odds_loop [] items = Ok [].
Proof.
  induction items as [|it items IH]; simpl; [reflexivity|].
  unfold odds_step. cbn [dict_mem dict_get negb].
  rewrite orb_true_r. exact IH.
Qed.

Lemma dict_set_fresh k v (d : dict Z fixture_record) :
  fresh (k, v) -> Forall fresh d -> Forall fresh (dict_set k v d).
Proof.
  intros Hkv. induction d as [|[k' v'] d IH]; intros Hall; simpl.
  - now constructor.
  - inversion Hall as [|? ? Hv Hall']; subst.
    destruct (k' =? k)%Z; constructor; auto.
Qed.

Lemma index_loop_spec l : forall acc : dict Z fixture_record,
  NoDup (keys acc) -> Forall fresh acc ->
  let by_fixture :=
    fold_left (fun by_fixture f =>
                 dict_set (fi_id f) (record_of to_sao_paulo f) by_fixture) l acc in
  NoDup (keys by_fixture) /\
  (forall i, In i (keys by_fixture) <-> In i (keys acc) \/ In i (map fi_id l)) /\
  Forall fresh by_fixture.
Proof.
  induction l as [|f l IH]; intros acc Hnd Hall; cbn [fold_left map].
  - split; [exact Hnd|]. split; [intros i; simpl; tauto | exact Hall].
  - destruct (IH (dict_set (fi_id f) (record_of to_sao_paulo f) acc))
      as (H1 & H2 & H3).
    + now apply nodup_keys_set.
    + apply dict_set_fresh; [split; reflexivity | exact Hall].
    + split; [exact H1|]. split; [|exact H3].
      intros i. rewrite H2, keys_set. simpl.
      destruct (dict_mem (fi_id f) acc) eqn:E.
      * unfold dict_mem in E.
        assert (Hin : In (fi_id f) (keys acc)).
        { destruct (in_dec Z.eq_dec (fi_id f) (keys acc)) as [Hin|Hnin];
            [exact Hin|].
          apply dict_get_none_keys in Hnin. rewrite Hnin in E. discriminate. }
        intuition (subst; auto).
      * rewrite in_app_iff. simpl. intuition.
Qed.

(** The index holds the fetched fixture ids, each once, every record
    under its own id and without markets. *)
Lemma index_fixtures_spec fixtures_all :
  let by_fixture := index_fixtures to_sao_paulo fixtures_all in
  NoDup (keys by_fixture) /\
  (forall i, In i (keys by_fixture) <-> In i (map fi_id fixtures_all)) /\
  Forall fresh by_fixture.
Proof.
  destruct (@index_loop_spec fixtures_all [] (NoDup_nil _) (Forall_nil _))
    as (H1 & H2 & H3).
  split; [exact H1|]. split; [|exact H3].
  intros i. unfold index_fixtures. rewrite H2. simpl. tauto.
Qed.

Lemma fresh_ids (d : dict Z fixture_record) :
  Forall fresh d -> map fixtureId (dict_values d) = keys d.
Proof.
  induction 1 as [|[k v] d [Hk _] _ IH]; simpl; [reflexivity|].
  simpl in Hk. now rewrite Hk, IH.
Qed.
End SnapshotFacts.

(** With a fixture and no odds the snapshot holds that fixture. *)
Lemma empty_input_counterexample : ~ empty_input_claim str.
Proof.
  intros H.
  destruct (H "2025-08-16" [one_fixture] [] (or_intror eq_refl)) as (s & Hs & Hitems & _).
  vm_compute in Hs. injection Hs as <-. discriminate Hitems.
Qed.

(** C7. The count of a produced snapshot is the length of its fixture
    list.  With no fixture the snapshot is produced with an empty list
    and count zero; with no odds it is produced with one record per
    fetched fixture id, each with an empty markets mapping. *)
Theorem snapshot_count_is_length (to_sao_paulo : pyval -> string)
        (date_ymd : string) (fixtures_all : list fixture_item)
        (responses : list (list odds_item)) :
  (forall s, build_snapshot to_sao_paulo date_ymd fixtures_all responses = Ok s ->
             sn_count s = len (sn_items s) /\ sn_date s = date_ymd) /\
  (fixtures_all = [] ->
   build_snapshot to_sao_paulo date_ymd fixtures_all responses
   = Ok (mk_snapshot date_ymd 0 [])) /\
  (List.concat responses = [] ->
   exists s,
     build_snapshot to_sao_paulo date_ymd fixtures_all responses = Ok s /\
     sn_count s = len (sn_items s) /\
     NoDup (map fixtureId (sn_items s)) /\
     (forall i, In i (map fixtureId (sn_items s)) <-> In i (map fi_id fixtures_all)) /\
     Forall (fun r => fr_markets r = []) (sn_items s)).
Proof.
  unfold build_snapshot. split; [|split].
  - intros s H. destruct (leagues_loop _ _); simpl in H; [|discriminate].
    now injection H as <-.
  - intros ->. rewrite leagues_loop_concat.
    cbn [index_fixtures fold_left]. rewrite odds_loop_no_fixture. reflexivity.
  - intros Hnone. rewrite leagues_loop_concat, Hnone. cbn [odds_loop rbind].
    eexists. split; [reflexivity|]. cbn [sn_count sn_items].
    split; [reflexivity|].
    destruct (index_fixtures_spec to_sao_paulo fixtures_all) as (Hnd & Hkeys & Hall).
    cbv zeta in Hnd, Hkeys, Hall.
    pose proof (sorted_perm key_le
                  (dict_values (index_fixtures to_sao_paulo fixtures_all))) as Hperm.
    pose proof (Permutation_map fixtureId Hperm) as Hids.
    rewrite (fresh_ids Hall) in Hids.
    split; [|split].
    + eapply Permutation_NoDup; [apply Permutation_sym, Hids | exact Hnd].
    + intros i. rewrite <- Hkeys. split; intros Hin.
      * eapply Permutation_in; [exact Hids | exact Hin].
      * eapply Permutation_in; [apply Permutation_sym, Hids | exact Hin].
    + apply Forall_forall. intros r Hr. apply sorted_in in Hr.
      unfold dict_values in Hr. apply in_map_iff in Hr.
      destruct Hr as (kv & <- & Hkv).
      rewrite Forall_forall in Hall. now apply Hall.
Qed.

Lemma snapshot_count_is_length_witness :
  build_snapshot str "2025-08-16" [] two_answers
  = Ok (mk_snapshot "2025-08-16" 0 []) /\
  exists s,
    build_snapshot str "2025-08-16" [one_fixture] [] = Ok s /\
    sn_count s = len (sn_items s) /\
    NoDup (map fixtureId (sn_items s)) /\
    (forall i, In i (map fixtureId (sn_items s)) <-> In i (map fi_id [one_fixture])) /\
    Forall (fun r => fr_markets r = []) (sn_items s).
Proof.
  split.
  - apply (proj1 (proj2 (snapshot_count_is_length str "2025-08-16" [] two_answers))).
    reflexivity.
  - apply (proj2 (proj2 (snapshot_count_is_length str "2025-08-16" [one_fixture] []))).
    reflexivity.
Defined.

(* ------------------------------------------------------------------ *)
(** ** Retention pruner *)

Section VisitsFacts.
Variable st_mtime : string -> Q.
Variable cutoff : Q.

Lemma visits_app ps1 log1 ps2 log2 :
  visits st_mtime cutoff ps1 log1 -> visits st_mtime cutoff ps2 log2 ->
  visits st_mtime cutoff (ps1 ++ ps2) (log1 ++ log2).
Proof.
  intros H1 H2. induction H1; simpl; [exact H2| | | |]; now constructor.
Qed.


(** What was removed was visited and was older than the cut-off. *)
Lemma visits_removed_sound ps log fp :
  visits st_mtime cutoff ps log -> In fp (removed_in log) ->
  In fp ps /\ Qltb (st_mtime fp) cutoff = true /\ In (Remove fp, None) log.
Proof.
  induction 1 as [|fp' e ps log _ IH|fp' ps log Hm _ IH
                  |fp' e ps log Hm _ IH|fp' ps log Hm _ IH]; simpl; intros Hin.
  - destruct Hin.
  - destruct (IH Hin) as (H1 & H2 & H3). auto.
  - destruct (IH Hin) as (H1 & H2 & H3). auto.
  - destruct (IH Hin) as (H1 & H2 & H3). auto.
  - destruct Hin as [<- | Hin]; [auto 6|].
    destruct (IH Hin) as (H1 & H2 & H3). auto 6.
Qed.

(** When nothing raised, what was removed is what was older than the
    cut-off. *)
Lemma visits_quiet ps log :
  visits st_mtime cutoff ps log -> quiet log ->
  removed_in log = filter (fun fp => Qltb (st_mtime fp) cutoff) ps.
Proof.
  unfold quiet.
  induction 1 as [|fp' e ps log _ IH|fp' ps log Hm _ IH
                  |fp' e ps log Hm _ IH|fp' ps log Hm _ IH]; simpl; intros Hq.
  - reflexivity.
  - inversion Hq as [|? ? Hev _]; subst. discriminate Hev.
  - inversion Hq as [|? ? _ Hq']; subst. rewrite Hm. auto.
  - inversion Hq as [|? ? _ Hq']; subst.
    inversion Hq' as [|? ? Hev _]; subst. discriminate Hev.
  - inversion Hq as [|? ? _ Hq']; subst.
    inversion Hq' as [|? ? _ Hq'']; subst. rewrite Hm. f_equal. auto.
Qed.

Lemma visits_event_path ps log op r :
  visits st_mtime cutoff ps log -> In (op, r) log ->
  exists fp, In fp ps /\ (op = Stat fp \/ op = Remove fp).
Proof.
  induction 1 as [|fp' e ps log _ IH|fp' ps log Hm _ IH
                  |fp' e ps log Hm _ IH|fp' ps log Hm _ IH]; simpl; intros Hin.
  - destruct Hin.
  - destruct Hin as [[= <- <-] | Hin]; [exists fp'; auto|].
    destruct (IH Hin) as (fp & H1 & H2). exists fp. auto.
  - destruct Hin as [[= <- <-] | Hin]; [exists fp'; auto|].
    destruct (IH Hin) as (fp & H1 & H2). exists fp. auto.
  - destruct Hin as [[= <- <-] | [[= <- <-] | Hin]]; [exists fp'; auto ..|].
    destruct (IH Hin) as (fp & H1 & H2). exists fp. auto.
  - destruct Hin as [[= <- <-] | [[= <- <-] | Hin]]; [exists fp'; auto ..|].
    destruct (IH Hin) as (fp & H1 & H2). exists fp. auto.
Qed.





End VisitsFacts.


Section PruneFacts.
Variable fault : list event -> fs_op -> option exn.
Variable st_mtime : string -> Q.
Variable cutoff : Q.



End PruneFacts.

Lemma archive_paths_in walk fp :
  In fp (archive_paths walk) <->
  exists root files fn,
    In (root, files) walk /\ In fn files /\ fp = path_join root [fn] /\
    fn <> "latest.json" /\ endswith ".json.gz" fn = true.
Proof.
  unfold archive_paths. rewrite in_flat_map. split.
  - intros ([root files] & Hw & Hin). cbn [fst snd] in Hin.
    apply in_map_iff in Hin. destruct Hin as (fn & <- & Hfn).
    apply filter_In in Hfn. destruct Hfn as [Hfn Harch].
    unfold archive_name in Harch. apply andb_true_iff in Harch.
    destruct Harch as [Hlatest Hext].
    exists root, files, fn. repeat split; auto.
    intros ->. discriminate Hlatest.
  - intros (root & files & fn & Hw & Hfn & -> & Hlatest & Hext).
    exists (root, files). split; [exact Hw|]. cbn [fst snd].
    apply in_map_iff. exists fn. split; [reflexivity|].
    apply filter_In. split; [exact Hfn|].
    unfold archive_name. rewrite Hext, andb_true_r.
    apply negb_true_iff. now apply String.eqb_neq.
Qed.

(** The three ways of a run: disabled, refused by [float], or the scan
    of the walk. *)
Lemma prune_old_snapshots_cases
      (fault : list event -> fs_op -> option exn) (st_mtime : string -> Q)
      (now : Q) (tree_at : string -> option tree)
      (out_dir : string) (retention_days : Z) (w : world) :
  prune_old_snapshots fault st_mtime now tree_at out_dir retention_days w
  = if (retention_days <=? 0)%Z then (w, Ok [])
    else if float_overflows (retention_days * 86400) then (w, Raise OverflowError)
    else prune_dirs fault st_mtime (cutoff_of now retention_days) []
                    (walk_of tree_at out_dir) w.
Proof.
  unfold prune_old_snapshots.
  destruct (retention_days <=? 0)%Z; [reflexivity|].
  now destruct (float_overflows (retention_days * 86400)).
Qed.





Example prune_sample_archive :
  snd (prune_old_snapshots no_fault sample_mtime sample_now sample_tree_at
                           "data/odds" 90 new_world)
  = Ok ["data/odds/2025/05/2025-05-01.json.gz"; "data/odds/2025/05/2025-05-02.json.gz"].
Proof. vm_compute. reflexivity. Qed.

Example prune_disabled :
  prune_old_snapshots no_fault sample_mtime sample_now sample_tree_at
                      "data/odds" 0 new_world
  = (new_world, Ok []).
Proof. reflexivity. Qed.

Example prune_beyond_float :
  prune_old_snapshots no_fault sample_mtime sample_now sample_tree_at
                      "data/odds" (10 ^ 304) new_world
  = (new_world, Raise OverflowError).
Proof. vm_compute. reflexivity. Qed.


Example prune_permission_denied :
  let run := prune_old_snapshots denied_fault sample_mtime sample_now sample_tree_at
                                 "data/odds" 90 new_world in
  snd run = Ok ["data/odds/2025/05/2025-05-01.json.gz"] /\
  w_deleted (fst run) = ["data/odds/2025/05/2025-05-01.json.gz"] /\
  w_stdout (fst run) = [("data/odds/2025/05/2025-05-02.json.gz", PermissionError)] /\
  stats_in (w_log (fst run))
  = ["data/odds/2025/05/2025-05-01.json.gz"; "data/odds/2025/05/2025-05-02.json.gz";
     "data/odds/2025/08/2025-08-10.json.gz"].
Proof. vm_compute. auto. Qed.

(** A removal that is refused does not stop the scan: the next old file
    is removed. *)
Example prune_goes_on_after_failure :
  let run := prune_old_snapshots locked_fault sample_mtime sample_now sample_tree_at
                                 "data/odds" 90 new_world in
  snd run = Ok ["data/odds/2025/05/2025-05-02.json.gz"] /\
  w_log (fst run)
  = [(Stat "data/odds/2025/05/2025-05-01.json.gz", None);
     (Remove "data/odds/2025/05/2025-05-01.json.gz", Some PermissionError);
     (Stat "data/odds/2025/05/2025-05-02.json.gz", None);
     (Remove "data/odds/2025/05/2025-05-02.json.gz", None);
     (Stat "data/odds/2025/08/2025-08-10.json.gz", None)].
Proof. vm_compute. auto. Qed.

(* ------------------------------------------------------------------ *)
(** ** Snapshot store *)

Section StoreFacts.
Variable fault : list event -> fs_op -> option exn.

(** The run of [save_snapshot] stops at the first operation that
    raises, with that error; when none does it returns the path of
    the archive. *)
Lemma save_snapshot_run out out_dir w :
  (exists n e w',
      n < 4 /\
      save_snapshot fault out out_dir w = (w', Raise e) /\
      w_log w' = w_log w ++ log_of (save_ops out out_dir) n e) \/
  (exists w',
      save_snapshot fault out out_dir w
      = (w', Ok (gz_path_of out_dir (sn_date out))) /\
      w_log w' = w_log w ++ map (fun op => (op, None)) (save_ops out out_dir)).
Proof.
  unfold save_snapshot, save_ops, gz_path_of. cbv zeta.
  unfold io_bind, perform, io_ret. cbv beta zeta.
  match goal with
  | |- context [answer fault w ?op] =>
      destruct (answer fault w op) as [e|] eqn:E1
  end; cbv beta iota zeta.
  { left. exists 0, e. eexists. split; [lia|]. split; reflexivity. }
  match goal with
  | |- context [answer fault ?w1 (Makedirs out_dir)] =>
      destruct (answer fault w1 (Makedirs out_dir)) as [e|] eqn:E2
  end; cbv beta iota zeta.
  { left. exists 1, e. eexists. split; [lia|].
    split; [reflexivity|]. cbn [w_log log_of]. now rewrite <- app_assoc. }
  match goal with
  | |- context [answer fault ?w2 (GzipDump ?p out)] =>
      destruct (answer fault w2 (GzipDump p out)) as [e|] eqn:E3
  end; cbv beta iota zeta.
  { left. exists 2, e. eexists. split; [lia|].
    split; [reflexivity|]. cbn [w_log log_of]. now rewrite <- !app_assoc. }
  match goal with
  | |- context [answer fault ?w3 (PlainDump ?p out)] =>
      destruct (answer fault w3 (PlainDump p out)) as [e|] eqn:E4
  end; cbv beta iota zeta.
  { left. exists 3, e. eexists. split; [lia|].
    split; [reflexivity|]. cbn [w_log log_of]. now rewrite <- !app_assoc. }
  right. eexists. split; [reflexivity|].
  cbn [w_log map]. now rewrite <- !app_assoc.
Qed.
End StoreFacts.

Section PathFacts.
Local Open Scope string_scope.

Lemma string_app_assoc (a b c : string) : (a ++ b) ++ c = a ++ (b ++ c).
Proof. induction a as [|x a IH]; simpl; [reflexivity | now rewrite IH]. Qed.







End PathFacts.




Example save_empty_day :
  save_snapshot no_fault empty_day "data/odds" new_world
  = (mk_world [(Makedirs "data/odds/2025/08", None);
               (Makedirs "data/odds", None);
               (GzipDump "data/odds/2025/08/2025-08-16.json.gz" empty_day, None);
               (PlainDump "data/odds/latest.json" empty_day, None)] [] [],
     Ok "data/odds/2025/08/2025-08-16.json.gz").
Proof. vm_compute. reflexivity. Qed.

Example save_on_full_disk :
  save_snapshot full_disk_fault empty_day "data/odds" new_world
  = (mk_world [(Makedirs "data/odds/2025/08", None);
               (Makedirs "data/odds", None);
               (GzipDump "data/odds/2025/08/2025-08-16.json.gz" empty_day, None);
               (PlainDump "data/odds/latest.json" empty_day, Some OSError)] [] [],
     Raise OSError).
Proof. vm_compute. reflexivity. Qed.

(* ================================================================== *)
(** * The rest of the pipeline *)

(* ------------------------------------------------------------------ *)
(** ** Ranking: no offer, and preference against richness *)

Lemma pick_is_maximum rx books w :
  _pick_bookmaker books rx = Some w ->
  In w (offers rx books) /\
  forall o, In o (offers rx books) -> (offer_score o <= offer_score w)%Z.
Proof.
  intros Hpick. split; [now apply pick_in_offers|].
  unfold _pick_bookmaker in Hpick. rewrite pick_loop_offers in Hpick.
  destruct (offers rx books) as [|o0 l]; [discriminate|]. simpl in Hpick.
  destruct (pick_offers_from l o0) as (w' & Hw & Hle & Hcase).
  rewrite Hw in Hpick. injection Hpick as ->.
  intros o [<- | Hin]; [exact Hle|].
  destruct Hcase as [[-> Hall] | (pre & post & -> & Hlt & Hpre & Hpost)].
  - now apply Hall.
  - apply in_app_or in Hin. destruct Hin as [Hin | [<- | Hin]].
    + apply Z.lt_le_incl. now apply Hpre.
    + lia.
    + now apply Hpost.
Qed.

Lemma pick_none_offers rx books :
  _pick_bookmaker books rx = None <-> offers rx books = [].
Proof.
  split; [|apply pick_none].
  intros Hnone. unfold _pick_bookmaker in Hnone. rewrite pick_loop_offers in Hnone.
  destruct (offers rx books) as [|o l]; [reflexivity|]. simpl in Hnone.
  destruct (pick_offers_from l o) as (w & Hw & _). congruence.
Qed.

Lemma offers_nil rx books :
  offers rx books = [] <-> forall bk, In bk books -> offer_of rx bk = [].
Proof.
  unfold offers. induction books as [|bk books IH]; cbn [flat_map].
  - split; [intros _ bk [] | reflexivity].
  - split.
    + intros H. apply app_eq_nil in H. destruct H as [H1 H2].
      intros bk' [<- | Hin]; [exact H1 | now apply IH].
    + intros H. rewrite (H bk (or_introl eq_refl)). cbn [app].
      apply IH. intros bk' Hin. apply H. now right.
Qed.

Section FindFacts.
Variable A : Type.
Variable p : A -> bool.

Lemma find_split (l : list A) b :
  find p l = Some b <->
  exists pre post, l = pre ++ b :: post /\
                   forallb (fun x => negb (p x)) pre = true /\ p b = true.
Proof.
  induction l as [|x l IH]; cbn [find].
  - split; [discriminate|]. intros (pre & post & H & _). now destruct pre.
  - destruct (p x) eqn:Ex.
    + split.
      * intros [= <-]. exists [], l. auto.
      * intros (pre & post & H & Hpre & Hb).
        destruct pre as [|y pre]; cbn [app] in H; injection H as -> ->;
          [reflexivity|].
        cbn [forallb] in Hpre. rewrite Ex in Hpre. discriminate Hpre.
    + rewrite IH. split.
      * intros (pre & post & -> & Hpre & Hb). exists (x :: pre), post.
        cbn [forallb app]. rewrite Ex. auto.
      * intros (pre & post & H & Hpre & Hb).
        destruct pre as [|y pre]; cbn [app] in H; injection H as -> ->;
          [congruence|].
        cbn [forallb] in Hpre. apply andb_true_iff in Hpre.
        exists pre, post. tauto.
Qed.

Lemma find_none_all (l : list A) :
  find p l = None <-> forall x, In x l -> p x = false.
Proof.
  split; [apply find_none|].
  induction l as [|x l IH]; cbn [find]; [reflexivity|]. intros H.
  rewrite (H x (or_introl eq_refl)). apply IH. intros y Hy. apply H. now right.
Qed.
End FindFacts.

Lemma empty_bet_label b : bet_truthy b = false -> bet_label b = "".
Proof.
  destruct b as [[i|] [n|] [v|]]; cbn; try discriminate. reflexivity.
Qed.

(** [_pick_bookmaker] returns [None] exactly when, in every bookmaker,
    the first bet whose name the pattern finds, if there is one, is an
    empty object; for a pattern that does not find the empty name, such
    as the five of the script: exactly when the pattern finds the name
    of no bet of any bookmaker. *)
Theorem pick_bookmaker_none_iff (rx : regex) (books : list book) :
  (_pick_bookmaker books rx = None <->
   forall bk pre b post,
     In bk books -> get_list (book_bets bk) = pre ++ b :: post ->
     forallb (fun b' => negb (search rx (bet_label b'))) pre = true ->
     search rx (bet_label b) = true ->
     bet_truthy b = false) /\
  (search rx "" = false ->
   (_pick_bookmaker books rx = None <->
    forall bk b, In bk books -> In b (get_list (book_bets bk)) ->
                 search rx (bet_label b) = false)).
Proof.
  assert (Hfirst : forall bk,
             offer_of rx bk = [] <->
             forall pre b post,
               get_list (book_bets bk) = pre ++ b :: post ->
               forallb (fun b' => negb (search rx (bet_label b'))) pre = true ->
               search rx (bet_label b) = true ->
               bet_truthy b = false).
  { intros bk. unfold offer_of, first_bet, next. fold bet_label. split.
    - intros H pre b post Hsplit Hpre Hb.
      assert (Hf : find (fun b => search rx (bet_label b)) (get_list (book_bets bk))
                   = Some b) by (apply find_split; eauto).
      unfold bet_label in Hf. rewrite Hf in H.
      destruct (bet_truthy b); [discriminate H | reflexivity].
    - intros H.
      destruct (find _ (get_list (book_bets bk))) as [b|] eqn:Ef; [|reflexivity].
      apply find_split in Ef. destruct Ef as (pre & post & Hsplit & Hpre & Hb).
      now rewrite (H pre b post Hsplit Hpre Hb). }
  assert (Hmain : _pick_bookmaker books rx = None <->
                  forall bk pre b post,
                    In bk books -> get_list (book_bets bk) = pre ++ b :: post ->
                    forallb (fun b' => negb (search rx (bet_label b'))) pre = true ->
                    search rx (bet_label b) = true ->
                    bet_truthy b = false).
  { rewrite pick_none_offers, offers_nil. split.
    - intros H bk pre b post Hbk. apply Hfirst. now apply H.
    - intros H bk Hbk. apply Hfirst. intros pre b post. now apply H. }
  split; [exact Hmain|].
  intros Hempty. rewrite Hmain. split.
  - intros H bk b Hbk Hb.
    destruct (find (fun b => search rx (bet_label b)) (get_list (book_bets bk)))
      as [b0|] eqn:Ef.
    + apply find_split in Ef. destruct Ef as (pre & post & Hsplit & Hpre & Hb0).
      pose proof (H bk pre b0 post Hbk Hsplit Hpre Hb0) as Hhollow.
      apply empty_bet_label in Hhollow. rewrite Hhollow in Hb0. congruence.
    + exact (proj1 (find_none_all _ _) Ef b Hb).
  - intros H bk pre b post Hbk Hsplit _ Hb.
    assert (Hin : In b (get_list (book_bets bk)))
      by (rewrite Hsplit; apply in_or_app; right; now left).
    rewrite (H bk b Hbk Hin) in Hb. discriminate Hb.
Qed.

Lemma pick_bookmaker_none_iff_witness :
  _pick_bookmaker corners_books RX_MATCH_WINNER = None <->
  forall bk b, In bk corners_books -> In b (get_list (book_bets bk)) ->
               search RX_MATCH_WINNER (bet_label b) = false.
Proof.
  apply (proj2 (pick_bookmaker_none_iff RX_MATCH_WINNER corners_books)).
  vm_compute. reflexivity.
Defined.

(** An empty object in front hides the bet behind it. *)
Example hollow_bet_hides_match :
  search x_star "" = true /\ search x_star "1x2" = true /\
  _pick_bookmaker hollow_books x_star = None.
Proof. vm_compute. auto. Qed.

Lemma pref_rank_bounds name : (0 <= pref_rank name <= 7)%Z.
Proof.
  unfold pref_rank.
  destruct (index name PREFERRED_BOOKMAKERS) as [i|] eqn:E.
  - assert (Hi : i < List.length PREFERRED_BOOKMAKERS).
    { clear - E. revert i E. induction PREFERRED_BOOKMAKERS as [|y l IH];
        intros i; simpl; [discriminate|].
      destruct (y =? name)%string.
      - intros [= <-]. lia.
      - destruct (index name l) as [j|]; [|discriminate].
        intros [= <-]. specialize (IH j eq_refl). lia. }
    cbn in Hi. lia.
  - cbn. lia.
Qed.

(** With fewer than 100 outcome values on the winning bet, no offer
    comes from a bookmaker further up the preference list than the
    winner: richness then only decides among equals. *)
Theorem winner_has_best_preference (rx : regex) (books : list book)
        (bk : book) (b : bet) :
  _pick_bookmaker books rx = Some (bk, b) ->
  (len (get_list (bet_values b)) < 100)%Z ->
  forall bk' b', In (bk', b') (offers rx books) ->
    (pref_rank (str (get_default (book_name bk) (PStr "")))
     <= pref_rank (str (get_default (book_name bk') (PStr ""))))%Z.
Proof.
  intros Hpick Hrich bk' b' Hin.
  destruct (pick_is_maximum _ _ Hpick) as [_ Hmax].
  specialize (Hmax _ Hin). unfold offer_score, score_of in Hmax. cbn [fst snd] in Hmax.
  assert (Hlen : len PREFERRED_BOOKMAKERS = 6%Z) by reflexivity.
  rewrite Hlen in Hmax.
  assert (Hr : (0 <= len (get_list (bet_values b')))%Z) by (unfold len; lia).
  lia.
Qed.

Lemma winner_has_best_preference_witness :
  (pref_rank (str (get_default
                     (book_name (a_book "bet365" [a_bet "Corners" [];
                                                  a_bet "1x2" [val "Home" "1.4"]]))
                     (PStr "")))
   <= pref_rank (str (get_default
                        (book_name (a_book "Betway"
                                      [a_bet "Match Winner" [val "Home" "1.5";
                                                             val "Away" "6.0"]]))
                        (PStr ""))))%Z.
Proof.
  apply (@winner_has_best_preference RX_MATCH_WINNER ranker_books
           (a_book "bet365" [a_bet "Corners" []; a_bet "1x2" [val "Home" "1.4"]])
           (a_bet "1x2" [val "Home" "1.4"]))
    with (b' := a_bet "Match Winner" [val "Home" "1.5"; val "Away" "6.0"]).
  - vm_compute. reflexivity.
  - vm_compute. reflexivity.
  - vm_compute. right. left. reflexivity.
Defined.

(* ------------------------------------------------------------------ *)
(** ** Extraction: when it raises, and what an emitted record holds *)

Lemma is_over_truthy v : is_over v = true -> outcome_truthy v = true.
Proof.
  unfold is_over, label, outcome_truthy.
  destruct (ov_value v); [reflexivity|]. cbn. discriminate.
Qed.

Lemma is_under_truthy v : is_under v = true -> outcome_truthy v = true.
Proof.
  unfold is_under, label, outcome_truthy.
  destruct (ov_value v); [reflexivity|]. cbn. discriminate.
Qed.

(** A side of the Over/Under bet: the exact pick when there is one, no
    pick when the bet lists no outcome of the direction, [TypeError]
    otherwise. *)
Lemma side_pick (exact_p dir_p : outcome -> bool) vals :
  (forall v, exact_p v = true -> outcome_truthy v = true) ->
  opt_or (next exact_p vals) (_nearest_to target (filter dir_p vals) (PyFloat target))
  = match next exact_p vals with
    | Some v => Ok (Some v)
    | None => match filter dir_p vals with
              | [] => Ok None
              | _ :: _ => Raise TypeError
              end
    end.
Proof.
  intros Htruthy. unfold opt_or.
  destruct (next exact_p vals) as [v|] eqn:E.
  - unfold next in E. apply find_some in E. cbn [opt_truthy].
    now rewrite (Htruthy v (proj2 E)).
  - cbn [opt_truthy]. now destruct (filter dir_p vals).
Qed.

Lemma over_exact_truthy v : over_exact_p v = true -> outcome_truthy v = true.
Proof.
  unfold over_exact_p. intros H. apply andb_true_iff in H. now apply is_over_truthy.
Qed.

Lemma under_exact_truthy v : under_exact_p v = true -> outcome_truthy v = true.
Proof.
  unfold under_exact_p. intros H. apply andb_true_iff in H. now apply is_under_truthy.
Qed.

Lemma extract_markets_raises_iff_core (books : list book) :
  (forall e, extract_markets books = Raise e -> e = TypeError) /\
  (extract_markets books = Raise TypeError <->
   exists bk b,
     _pick_bookmaker books RX_OVER_UNDER = Some (bk, b) /\
     ((next over_exact_p (get_list (bet_values b)) = None /\
       filter is_over (get_list (bet_values b)) <> []) \/
      (next under_exact_p (get_list (bet_values b)) = None /\
       filter is_under (get_list (bet_values b)) <> []))).
Proof.
  rewrite extract_markets_entries.
  destruct (_pick_bookmaker books RX_OVER_UNDER) as [[bk b]|] eqn:Hpick.
  2:{ cbn. split; [discriminate|]. split; [discriminate|].
      intros (bk & b & H & _). discriminate. }
  unfold over_under_entry. cbv zeta.
  rewrite (side_pick _ _ _ over_exact_truthy), (side_pick _ _ _ under_exact_truthy).
  set (vals := get_list (bet_values b)).
  destruct (next over_exact_p vals) as [vo|] eqn:Eo;
    [|destruct (filter is_over vals) as [|o1 lo] eqn:Fo];
    (destruct (next under_exact_p vals) as [vu|] eqn:Eu;
     [|destruct (filter is_under vals) as [|u1 lu] eqn:Fu]);
    cbn [rbind];
    try (destruct (opt_truthy outcome_truthy _ || opt_truthy outcome_truthy _));
    cbn [rbind];
    (split; [intros e He; congruence|]);
    (split;
     [ intros He; try discriminate He; exists bk, b;
       (split; [reflexivity|]); subst vals;
       first [ left; split; [assumption | rewrite Fo; discriminate]
             | right; split; [assumption | rewrite Fu; discriminate] ]
     | intros (bk' & b' & [= <- <-] & [[H1 H2] | [H1 H2]]); subst vals;
       congruence ]).
Qed.

(** [extract_markets] raises nothing but [TypeError], and raises it
    exactly when the bookmaker selected for Over/Under lists an outcome
    of one direction and none of that direction on the line 2.5. *)
Theorem extract_markets_raises_iff (books : list book) :
  (forall e, extract_markets books = Raise e -> e = TypeError) /\
  (extract_markets books = Raise TypeError <->
   exists bk b,
     _pick_bookmaker books RX_OVER_UNDER = Some (bk, b) /\
     ((next over_exact_p (get_list (bet_values b)) = None /\
       filter is_over (get_list (bet_values b)) <> []) \/
      (next under_exact_p (get_list (bet_values b)) = None /\
       filter is_under (get_list (bet_values b)) <> []))).
Proof. exact (@extract_markets_raises_iff_core books). Qed.

Lemma py_or_line l : exists l', py_or (PStr l) (PStr "2.5") = PStr l' /\ l' <> "".
Proof.
  unfold py_or. cbn [truthy].
  destruct (l =? "")%string eqn:E; cbn [negb].
  - exists "2.5". split; [reflexivity | discriminate].
  - exists l. split; [reflexivity|]. now apply String.eqb_neq.
Qed.

(** An emitted record of a type other than Over/Under holds a price that
    counts as present under one of its legs; an emitted Over/Under
    record holds a non-empty line. *)
Theorem emitted_market_has_content (books : list book) (m : markets)
        (T : MarketType) (mk : market) :
  extract_markets books = Ok m ->
  dict_get (key_of T) m = Some mk ->
  match T with
  | OverUnder => exists l, dict_get "line" mk = Some (PStr l) /\ l <> ""
  | _ => exists leg p v,
           In (leg, p) (legs_of T) /\ dict_get leg mk = Some v /\ truthy v = true
  end.
Proof.
  intros Hm Hget. pose proof (@extract_markets_get books m T Hm) as He.
  rewrite Hget in He. unfold entry_of in He.
  destruct (_pick_bookmaker books (rule_of T)) as [[bk b]|];
    [|destruct T; discriminate He].
  destruct T; cbn [three_way_entry btts_entry handicap_entry over_under_entry] in He;
    cbv zeta in He.
  - destruct (truthy _ || truthy _ || truthy _) eqn:E; [|discriminate].
    injection He as <-.
    apply orb_true_iff in E. destruct E as [E | E];
      [apply orb_true_iff in E; destruct E as [E | E]|].
    + exists "home", is_home. eexists. cbn. split; [auto|]. split; [reflexivity|exact E].
    + exists "draw", is_draw_mw. eexists. cbn. split; [auto|]. split; [reflexivity|exact E].
    + exists "away", is_away. eexists. cbn. split; [auto|]. split; [reflexivity|exact E].
  - destruct (opt_or (next over_exact_p _) _) as [over_pick|e]; [|discriminate].
    cbn [rbind] in He.
    destruct (opt_or (next under_exact_p _) _) as [under_pick|e]; [|discriminate].
    cbn [rbind] in He.
    destruct (opt_truthy outcome_truthy over_pick || opt_truthy outcome_truthy under_pick);
      [|discriminate].
    injection He as <-. cbn [dict_get keq Key_string String.eqb Ascii.eqb Bool.eqb].
    destruct (py_or_line (_line_from (if opt_truthy outcome_truthy over_pick
                                      then over_pick else under_pick)))
      as (l' & Hl & Hne).
    exists l'. now rewrite Hl.
  - destruct (truthy _ || truthy _) eqn:E; [|discriminate].
    injection He as <-.
    apply orb_true_iff in E. destruct E as [E | E].
    + exists "yes", (_val_eq "Yes"). eexists. cbn. split; [auto|]. split; [reflexivity|exact E].
    + exists "no", (_val_eq "No"). eexists. cbn. split; [auto|]. split; [reflexivity|exact E].
  - destruct (truthy _ || truthy _) eqn:E; [|discriminate].
    injection He as <-.
    apply orb_true_iff in E. destruct E as [E | E].
    + exists "homeMinus1", is_home_m1. eexists. cbn. split; [auto|].
      split; [reflexivity|exact E].
    + exists "awayPlus1", is_away_p1. eexists. cbn. split; [auto|].
      split; [reflexivity|exact E].
  - destruct (truthy _ || truthy _ || truthy _) eqn:E; [|discriminate].
    injection He as <-.
    apply orb_true_iff in E. destruct E as [E | E];
      [apply orb_true_iff in E; destruct E as [E | E]|].
    + exists "home", is_home. eexists. cbn. split; [auto|]. split; [reflexivity|exact E].
    + exists "draw", is_draw_fh. eexists. cbn. split; [auto|]. split; [reflexivity|exact E].
    + exists "away", is_away. eexists. cbn. split; [auto|]. split; [reflexivity|exact E].
Qed.

Lemma emitted_market_has_content_witness :
  exists leg p v,
    In (leg, p) (legs_of Handicap) /\
    dict_get leg [("homeMinus1", PStr "1.25"); ("awayPlus1", PNone);
                  ("bookmaker", PStr "bet365")] = Some v /\
    truthy v = true.
Proof.
  apply (@emitted_market_has_content handicap_books handicap_books_markets Handicap).
  - vm_compute. reflexivity.
  - reflexivity.
Defined.

(** An Over/Under record can hold no price at all. *)
Example over_under_without_price :
  extract_markets unpriced_books
  = Ok [("overUnder", [("line", PStr "2.5"); ("over", PNone); ("under", PNone);
                       ("bookmaker", PStr "bet365")])].
Proof. vm_compute. reflexivity. Qed.

(* ------------------------------------------------------------------ *)
(** ** The snapshot: order, one record per fixture, errors *)

Lemma string_compare_trans a b c :
  String.compare a b = Lt -> String.compare b c = Lt -> String.compare a c = Lt.
Proof.
  intros H1 H2.
  apply OrderedTypeEx.String_as_OT.cmp_lt in H1, H2.
  apply OrderedTypeEx.String_as_OT.cmp_lt.
  eapply OrderedTypeEx.String_as_OT.lt_trans; eauto.
Qed.

Lemma key_le_total a b : key_le a b = false -> key_le b a = true.
Proof.
  unfold key_le.
  rewrite (String.compare_antisym (date b) (date a)).
  rewrite (Z.compare_antisym (leagueId a) (leagueId b)).
  destruct (String.compare (date a) (date b)); cbn [CompOpp]; try congruence.
  destruct (Z.compare (leagueId a) (leagueId b)); cbn [CompOpp]; try congruence.
  intros H. apply Z.leb_gt in H. apply Z.leb_le. lia.
Qed.

Lemma key_le_trans a b c :
  key_le a b = true -> key_le b c = true -> key_le a c = true.
Proof.
  unfold key_le.
  destruct (String.compare (date a) (date b)) eqn:Dab; [| |discriminate];
    (destruct (String.compare (date b) (date c)) eqn:Dbc; [| |discriminate]).
  - apply String.compare_eq_iff in Dab, Dbc. rewrite Dab, Dbc.
    assert (Hrefl : String.compare (date c) (date c) = Eq)
      by (apply OrderedTypeEx.String_as_OT.cmp_eq; reflexivity).
    rewrite Hrefl.
    destruct (Z.compare_spec (leagueId a) (leagueId b));
      destruct (Z.compare_spec (leagueId b) (leagueId c));
      destruct (Z.compare_spec (leagueId a) (leagueId c));
      try discriminate; try lia; intros H1 H2; reflexivity.
  - apply String.compare_eq_iff in Dab. rewrite Dab, Dbc. reflexivity.
  - apply String.compare_eq_iff in Dbc. rewrite <- Dbc, Dab. reflexivity.
  - now rewrite (string_compare_trans _ _ _ Dab Dbc).
Qed.

Section InsertionSort.
Variable A : Type.
Variable le : A -> A -> bool.
Hypothesis le_total : forall a b, le a b = false -> le b a = true.

Let R (a b : A) : Prop := le a b = true.

Lemma insert_sorted_hd x y l :
  R y x -> HdRel R y l -> HdRel R y (insert_sorted le x l).
Proof.
  intros Hyx Hhd. destruct l as [|z l]; simpl.
  - now constructor.
  - destruct (le x z); constructor; auto. now inversion Hhd.
Qed.

Lemma insert_sorted_Sorted x l : Sorted R l -> Sorted R (insert_sorted le x l).
Proof.
  induction 1 as [|y l Hs IH Hhd]; simpl.
  - repeat constructor.
  - destruct (le x y) eqn:E.
    + constructor; [now constructor | now constructor].
    + constructor; [exact IH|].
      apply insert_sorted_hd; [now apply le_total | exact Hhd].
Qed.

Lemma sorted_Sorted l : Sorted R (sorted le l).
Proof.
  induction l as [|x l IH]; simpl; [constructor|].
  now apply insert_sorted_Sorted.
Qed.
End InsertionSort.

(** The fixture list of a produced snapshot is in the order of the keys
    (date, league id, fixture id): each record is no later than all the
    records after it. *)
Theorem snapshot_items_sorted (to_sao_paulo : pyval -> string)
        (date_ymd : string) (fixtures_all : list fixture_item)
        (responses : list (list odds_item)) (s : snapshot) :
  build_snapshot to_sao_paulo date_ymd fixtures_all responses = Ok s ->
  StronglySorted key_ordered (sn_items s).
Proof.
  unfold build_snapshot. intros H.
  destruct (leagues_loop _ _) as [bf|e]; simpl in H; [|discriminate].
  injection H as <-. cbn [sn_items].
  apply Sorted_StronglySorted.
  - intros a b c. apply key_le_trans.
  - apply (sorted_Sorted key_le key_le_total).
Qed.

Section IndexFacts.
Context {K : Type} `{Key K}.
Variable V : Type.
Implicit Types (d : dict K V) (k : K) (v : V).

Lemma in_dict_get k v d : NoDup (keys d) -> In (k, v) d -> dict_get k d = Some v.
Proof.
  induction d as [|[k' v'] d IH]; simpl; [tauto|].
  intros Hnd Hin. inversion Hnd as [|? ? Hnotin Hnd']; subst.
  destruct Hin as [[= -> ->] | Hin].
  - now rewrite keq_refl.
  - destruct (keq k' k) eqn:E; [|auto].
    apply keq_spec in E. subst k'. exfalso. apply Hnotin.
    unfold keys. apply in_map_iff. now exists (k, v).
Qed.

Lemma dict_get_in k v d : dict_get k d = Some v -> In (k, v) d.
Proof.
  induction d as [|[k' v'] d IH]; simpl; [discriminate|].
  destruct (keq k' k) eqn:E.
  - apply keq_spec in E. intros [= ->]. left. now subst.
  - auto.
Qed.

Lemma dict_mem_keys k d : dict_mem k d = true <-> In k (keys d).
Proof.
  unfold dict_mem. destruct (dict_get k d) eqn:E.
  - split; [intros _|reflexivity].
    apply dict_get_in in E. unfold keys. apply in_map_iff. now exists (k, v).
  - apply dict_get_none_keys in E. split; [discriminate | contradiction].
Qed.
End IndexFacts.

Lemma find_app_last {A} (p : A -> bool) (l : list A) (x : A) :
  find p (l ++ [x])
  = match find p l with Some y => Some y | None => if p x then Some x else None end.
Proof.
  induction l as [|y l IH]; simpl; [reflexivity|]. now destruct (p y).
Qed.

Section LoopFacts.
Variable to_sao_paulo : pyval -> string.

(** The record of the index under an id is that of the last fetched
    fixture with this id. *)
Lemma index_fixtures_get fixtures_all i :
  dict_get i (index_fixtures to_sao_paulo fixtures_all)
  = option_map (record_of to_sao_paulo)
               (find (fun f => (fi_id f =? i)%Z) (rev fixtures_all)).
Proof.
  unfold index_fixtures.
  assert (Hgen : forall l (acc : dict Z fixture_record),
             dict_get i (fold_left
                           (fun by_fixture f =>
                              dict_set (fi_id f) (record_of to_sao_paulo f) by_fixture)
                           l acc)
             = match find (fun f => (fi_id f =? i)%Z) (rev l) with
               | Some f => Some (record_of to_sao_paulo f)
               | None => dict_get i acc
               end).
  { induction l as [|f l IH]; intros acc; cbn [fold_left rev]; [reflexivity|].
    rewrite IH, find_app_last.
    destruct (find (fun f0 => (fi_id f0 =? i)%Z) (rev l)); [reflexivity|].
    destruct (Z.eqb_spec (fi_id f) i) as [<- | Hne].
    - apply dict_get_set_eq.
    - now apply dict_get_set_ne. }
  rewrite Hgen. now destruct (find _ _).
Qed.

Lemma dict_set_filed k v (d : dict Z fixture_record) :
  filed (k, v) -> Forall filed d -> Forall filed (dict_set k v d).
Proof.
  intros Hkv. induction d as [|[k' v'] d IH]; intros Hall; simpl.
  - now constructor.
  - inversion Hall as [|? ? Hv Hall']; subst.
    destruct (k' =? k)%Z; constructor; auto.
Qed.

(** One step of the odds loop either leaves the index as it is or
    replaces the markets of one record; it raises exactly what the
    extraction of a known fixture raises. *)
Lemma odds_step_cases (bf : dict Z fixture_record) (it : odds_item) :
  let known := negb (odds_fixture_id it =? 0)%Z && dict_mem (odds_fixture_id it) bf in
  match odds_step bf it with
  | Ok bf' =>
      (known = true -> exists mk, extract_markets (get_list (oi_bookmakers it)) = Ok mk) /\
      (bf' = bf \/
       exists r mk, dict_get (odds_fixture_id it) bf = Some r /\
                    bf' = dict_set (odds_fixture_id it) (with_markets r mk) bf)
  | Raise e =>
      known = true /\ extract_markets (get_list (oi_bookmakers it)) = Raise e
  end.
Proof.
  cbv zeta. unfold odds_step. fold (odds_fixture_id it).
  destruct (odds_fixture_id it =? 0)%Z; cbn [orb negb andb].
  { split; [discriminate | now left]. }
  unfold dict_mem.
  destruct (dict_get (odds_fixture_id it) bf) as [r|] eqn:Eget; cbn [negb].
  2:{ split; [discriminate | now left]. }
  destruct (extract_markets (get_list (oi_bookmakers it))) as [mk|e]; cbn [rbind].
  - destruct (nonempty mk).
    + split; [eauto|]. right. eauto.
    + split; [eauto | now left].
  - split; reflexivity.
Qed.

Lemma odds_step_keeps (bf bf' : dict Z fixture_record) (it : odds_item) :
  odds_step bf it = Ok bf' ->
  keys bf' = keys bf /\
  (Forall filed bf -> Forall filed bf') /\
  (forall i r, dict_get i bf = Some r ->
               exists mk, dict_get i bf' = Some (with_markets r mk)).
Proof.
  intros Hstep. pose proof (odds_step_cases bf it) as Hc. cbv zeta in Hc.
  rewrite Hstep in Hc. destruct Hc as [_ [-> | (r & mk & Hget & ->)]].
  - split; [reflexivity|]. split; [auto|].
    intros i r Hi. exists (fr_markets r). rewrite Hi. now destruct r.
  - split; [|split].
    + rewrite keys_set. unfold dict_mem. now rewrite Hget.
    + intros Hall. apply dict_set_filed; [|exact Hall].
      apply dict_get_in in Hget. rewrite Forall_forall in Hall.
      exact (Hall _ Hget).
    + intros i r0 Hi.
      destruct (Z.eq_dec (odds_fixture_id it) i) as [<- | Hne].
      * rewrite dict_get_set_eq. exists mk. congruence.
      * rewrite dict_get_set_ne by exact Hne.
        exists (fr_markets r0). rewrite Hi. now destruct r0.
Qed.

Lemma odds_loop_keeps items : forall bf bf' : dict Z fixture_record,
  odds_loop bf items = Ok bf' ->
  keys bf' = keys bf /\
  (Forall filed bf -> Forall filed bf') /\
  (forall i r, dict_get i bf = Some r ->
               exists mk, dict_get i bf' = Some (with_markets r mk)).
Proof.
  induction items as [|it items IH]; intros bf bf' Hloop; cbn [odds_loop] in Hloop.
  - injection Hloop as <-. split; [reflexivity|]. split; [auto|].
    intros i r Hi. exists (fr_markets r). rewrite Hi. now destruct r.
  - destruct (odds_step bf it) as [bf1|e] eqn:Hstep; cbn [rbind] in Hloop;
      [|discriminate].
    destruct (odds_step_keeps _ _ Hstep) as (K1 & F1 & G1).
    destruct (IH _ _ Hloop) as (K2 & F2 & G2).
    split; [congruence|]. split; [auto|].
    intros i r Hi. destruct (G1 _ _ Hi) as (mk1 & H1).
    destruct (G2 _ _ H1) as (mk2 & H2). exists mk2. now rewrite H2.
Qed.

(** The odds loop raises exactly when some odds item of a fetched
    fixture (id other than 0) has an extraction that raises. *)
Lemma odds_loop_raises items : forall bf : dict Z fixture_record,
  (exists e, odds_loop bf items = Raise e) <->
  exists it e,
    In it items /\ odds_fixture_id it <> 0%Z /\ In (odds_fixture_id it) (keys bf) /\
    extract_markets (get_list (oi_bookmakers it)) = Raise e.
Proof.
  induction items as [|it items IH]; intros bf; cbn [odds_loop].
  - split; [intros (e & He); discriminate | intros (it & e & [] & _)].
  - pose proof (odds_step_cases bf it) as Hc. cbv zeta in Hc.
    destruct (odds_step bf it) as [bf1|e1] eqn:Hstep; cbn [rbind].
    + destruct (odds_step_keeps _ _ Hstep) as (K1 & _).
      rewrite IH, K1. destruct Hc as [Hok _]. split.
      * intros (it' & e & Hin & Hrest). exists it', e. split; [now right | exact Hrest].
      * intros (it' & e & [<- | Hin] & Hnz & Hk & Hraise).
        -- destruct Hok as (mk & Hmk); [|congruence].
           apply andb_true_iff. split.
           ++ apply negb_true_iff. now apply Z.eqb_neq.
           ++ now apply dict_mem_keys.
        -- exists it', e. auto.
    + destruct Hc as [Hknown Hraise]. split; [intros _ | eauto].
      apply andb_true_iff in Hknown. destruct Hknown as [Hnz Hmem].
      exists it, e1. split; [now left|]. split.
      * apply negb_true_iff in Hnz. now apply Z.eqb_neq.
      * split; [now apply dict_mem_keys | exact Hraise].
Qed.
End LoopFacts.

(** A produced snapshot holds one record per fetched fixture id, none
    for any other id; each record carries the data of the last fetched
    fixture with its id, whatever the odds answers were. *)
Theorem snapshot_one_record_per_fixture (to_sao_paulo : pyval -> string)
        (date_ymd : string) (fixtures_all : list fixture_item)
        (responses : list (list odds_item)) (s : snapshot) :
  build_snapshot to_sao_paulo date_ymd fixtures_all responses = Ok s ->
  NoDup (map fixtureId (sn_items s)) /\
  (forall i, In i (map fixtureId (sn_items s)) <-> In i (map fi_id fixtures_all)) /\
  (forall r, In r (sn_items s) ->
     exists f mk,
       find (fun f => (fi_id f =? fixtureId r)%Z) (rev fixtures_all) = Some f /\
       r = with_markets (record_of to_sao_paulo f) mk).
Proof.
  unfold build_snapshot. rewrite leagues_loop_concat. intros H.
  destruct (odds_loop _ _) as [bf|e] eqn:Hloop; simpl in H; [|discriminate].
  injection H as <-. cbn [sn_items].
  destruct (index_fixtures_spec to_sao_paulo fixtures_all) as (Hnd & Hkeys & Hfresh).
  cbv zeta in Hnd, Hkeys, Hfresh.
  destruct (odds_loop_keeps _ _ Hloop) as (Hk & Hf & Hg).
  assert (Hfiled : Forall filed bf).
  { apply Hf. eapply Forall_impl; [|exact Hfresh]. intros kv [Hid _]. exact Hid. }
  assert (Hids : map fixtureId (dict_values bf) = keys bf).
  { clear - Hfiled. induction Hfiled as [|[k v] l Hkv _ IH]; simpl; [reflexivity|].
    unfold filed in Hkv. simpl in Hkv. now rewrite Hkv, IH. }
  pose proof (Permutation_map fixtureId (sorted_perm key_le (dict_values bf))) as Hperm.
  rewrite Hids, Hk in Hperm.
  split; [|split].
  - eapply Permutation_NoDup; [apply Permutation_sym, Hperm | exact Hnd].
  - intros i. rewrite <- Hkeys. split; intros Hin.
    + eapply Permutation_in; [exact Hperm | exact Hin].
    + eapply Permutation_in; [apply Permutation_sym, Hperm | exact Hin].
  - intros r Hr. apply sorted_in in Hr.
    unfold dict_values in Hr. apply in_map_iff in Hr.
    destruct Hr as ([k r'] & Heq & Hin). simpl in Heq. subst r'.
    assert (Hkr : fixtureId r = k).
    { rewrite Forall_forall in Hfiled. exact (Hfiled _ Hin). }
    subst k.
    assert (Hget : dict_get (fixtureId r) bf = Some r).
    { apply in_dict_get; [now rewrite Hk | exact Hin]. }
    assert (Hmem : In (fixtureId r) (keys (index_fixtures to_sao_paulo fixtures_all))).
    { rewrite <- Hk. unfold keys. apply in_map_iff. now exists (fixtureId r, r). }
    apply dict_mem_keys in Hmem. unfold dict_mem in Hmem.
    destruct (dict_get (fixtureId r) (index_fixtures to_sao_paulo fixtures_all))
      as [r0|] eqn:E0; [|discriminate].
    pose proof E0 as E1. rewrite index_fixtures_get in E1.
    destruct (find _ (rev fixtures_all)) as [f|]; [|discriminate].
    injection E1 as <-.
    destruct (Hg _ _ E0) as (mk & Hmk).
    exists f, mk. split; [reflexivity|]. congruence.
Qed.

Lemma odds_loop_raises_type_error items : forall (bf : dict Z fixture_record) e,
  odds_loop bf items = Raise e -> e = TypeError.
Proof.
  induction items as [|it items IH]; intros bf e; cbn [odds_loop]; [discriminate|].
  pose proof (odds_step_cases bf it) as Hc. cbv zeta in Hc.
  destruct (odds_step bf it) as [bf1|e1]; cbn [rbind].
  - apply IH.
  - destruct Hc as [_ Hx]. intros [= <-].
    exact (proj1 (extract_markets_raises_iff_core _) _ Hx).
Qed.

(** Building the snapshot raises nothing but [TypeError], and raises it
    exactly when the extraction raises on an odds item of a fetched
    fixture; odds items of other fixtures, or without fixture id, are
    passed over without being looked at. *)
Theorem build_snapshot_raises_iff (to_sao_paulo : pyval -> string)
        (date_ymd : string) (fixtures_all : list fixture_item)
        (responses : list (list odds_item)) :
  (forall e, build_snapshot to_sao_paulo date_ymd fixtures_all responses = Raise e ->
             e = TypeError) /\
  (build_snapshot to_sao_paulo date_ymd fixtures_all responses = Raise TypeError <->
   exists it,
     In it (List.concat responses) /\
     odds_fixture_id it <> 0%Z /\
     In (odds_fixture_id it) (map fi_id fixtures_all) /\
     extract_markets (get_list (oi_bookmakers it)) = Raise TypeError).
Proof.
  destruct (index_fixtures_spec to_sao_paulo fixtures_all) as (_ & Hkeys & _).
  cbv zeta in Hkeys.
  pose proof (odds_loop_raises (List.concat responses)
                (index_fixtures to_sao_paulo fixtures_all)) as Hr.
  unfold build_snapshot. rewrite leagues_loop_concat.
  destruct (odds_loop (index_fixtures to_sao_paulo fixtures_all)
                      (List.concat responses)) as [bf|e0] eqn:Hloop; cbn [rbind].
  - split; [discriminate|]. split; [discriminate|].
    intros (it & Hin & Hnz & Hk & He). exfalso.
    destruct (proj2 Hr) as (e & He'); [|discriminate He'].
    exists it, TypeError. split; [exact Hin|]. split; [exact Hnz|].
    split; [now apply Hkeys | exact He].
  - pose proof (odds_loop_raises_type_error _ _ Hloop) as ->.
    split; [intros e [= <-]; reflexivity|].
    split; [intros _ | reflexivity].
    destruct (proj1 Hr) as (it & e & Hin & Hnz & Hk & He); [now exists TypeError|].
    exists it. split; [exact Hin|]. split; [exact Hnz|].
    split; [now apply Hkeys|].
    now rewrite (proj1 (extract_markets_raises_iff_core _) _ He) in He.
Qed.

Lemma snapshot_items_sorted_witness : StronglySorted key_ordered (sn_items sample_snapshot).
Proof.
  apply (@snapshot_items_sorted str "2025-08-16" [one_fixture; other_fixture]
           two_answers sample_snapshot).
  vm_compute. reflexivity.
Defined.

Lemma snapshot_one_record_per_fixture_witness :
  NoDup (map fixtureId (sn_items sample_snapshot)) /\
  (forall i, In i (map fixtureId (sn_items sample_snapshot))
             <-> In i (map fi_id [one_fixture; other_fixture])) /\
  (forall r, In r (sn_items sample_snapshot) ->
     exists f mk,
       find (fun f => (fi_id f =? fixtureId r)%Z) (rev [one_fixture; other_fixture])
       = Some f /\
       r = with_markets (record_of str f) mk).
Proof.
  apply (@snapshot_one_record_per_fixture str "2025-08-16"
           [one_fixture; other_fixture] two_answers sample_snapshot).
  vm_compute. reflexivity.
Defined.

Example sample_snapshot_order :
  map fixtureId (sn_items sample_snapshot) = [2002%Z; 1001%Z] /\
  sn_count sample_snapshot = 2%Z.
Proof. vm_compute. auto. Qed.

(* ------------------------------------------------------------------ *)
(** ** The pruner: what it touches, what it prints, a second run *)

Lemma mem_string_in x l : mem_string x l = true <-> In x l.
Proof.
  unfold mem_string. rewrite existsb_exists. split.
  - intros (y & Hin & Heq). apply String.eqb_eq in Heq. now subst.
  - intros Hin. exists x. split; [exact Hin | apply String.eqb_refl].
Qed.

Lemma removed_in_app l1 l2 : removed_in (l1 ++ l2) = removed_in l1 ++ removed_in l2.
Proof. induction l1 as [|[[] []] l IH]; simpl; congruence. Qed.

Lemma warnings_in_app l1 l2 : warnings_in (l1 ++ l2) = warnings_in l1 ++ warnings_in l2.
Proof.
  induction l1 as [|[[] [[]|]] l IH]; simpl; congruence.
Qed.

Section PruneRun.
Variable fault : list event -> fs_op -> option exn.
Variable st_mtime : string -> Q.
Variable cutoff : Q.

Lemma prune_run_nil removed w : prune_run st_mtime cutoff [] removed w (w, Ok removed).
Proof.
  exists []. cbn. rewrite !app_nil_r. destruct w.
  repeat split; auto; constructor.
Qed.

Lemma prune_run_app ps1 ps2 removed w w1 l1 r :
  prune_run st_mtime cutoff ps1 removed w (w1, Ok l1) ->
  prune_run st_mtime cutoff ps2 l1 w1 r ->
  prune_run st_mtime cutoff (ps1 ++ ps2) removed w r.
Proof.
  intros (new1 & H1 & V1 & D1 & N1) (new2 & H2 & V2 & D2 & N2).
  injection H1 as -> ->. subst r. cbn [w_log w_deleted w_stdout].
  exists (new1 ++ new2). rewrite removed_in_app, warnings_in_app, !app_assoc.
  split; [reflexivity|]. split; [now apply visits_app|]. split.
  - intros fp Hin Hrem. apply in_app_or in Hrem. destruct Hrem as [Hrem | Hrem].
    + exact (D1 fp Hin Hrem).
    + apply (D2 fp); [|exact Hrem]. cbn. apply in_or_app. now left.
  - clear - N1 N2 D2. induction (removed_in new1) as [|x l IH]; [exact N2|].
    inversion N1; subst. simpl. constructor.
    + intros Hin. apply in_app_or in Hin. destruct Hin as [Hin | Hin]; [contradiction|].
      apply (D2 x); [|exact Hin]. cbn. apply in_or_app. right. now left.
    + apply IH; [assumption|].
      intros fp Hfp. apply D2. cbn in *. apply in_app_or in Hfp.
      apply in_or_app. destruct Hfp as [Hfp | Hfp]; [now left|]. right. now right.
Qed.

Lemma prune_file_run_full root removed fn w :
  prune_run st_mtime cutoff (map (fun fn => path_join root [fn]) (filter archive_name [fn]))
            removed w
            (prune_file fault st_mtime cutoff root removed fn w).
Proof.
  unfold prune_file. cbn [filter]. unfold archive_name.
  destruct (fn =? "latest.json")%string.
  { apply prune_run_nil. }
  destruct (endswith ".json.gz" fn).
  2:{ apply prune_run_nil. }
  cbn [negb andb map]. cbv zeta.
  set (fp := path_join root [fn]).
  unfold os_stat, os_remove. unfold try_except, io_bind, perform, io_ret.
  cbv beta zeta.
  destruct (answer fault w (Stat fp)) as [e|] eqn:Estat; cbv beta iota zeta.
  - exists [(Stat fp, Some e)].
    destruct e; cbv beta iota zeta; unfold print_warn; cbn [w_log w_deleted w_stdout];
      cbn [removed_in warnings_in]; rewrite ?app_nil_r;
      (split; [reflexivity|]); (split; [repeat constructor|]);
      (split; [intros ? _ []|constructor]).
  - destruct (Qltb (st_mtime fp) cutoff) eqn:Eold; cbv beta iota zeta.
    + match goal with
      | |- context [answer fault ?w1 (Remove fp)] =>
          destruct (answer fault w1 (Remove fp)) as [e|] eqn:Erm
      end; cbv beta iota zeta.
      * exists [(Stat fp, None); (Remove fp, Some e)].
        destruct e; cbv beta iota zeta; unfold print_warn;
          cbn [w_log w_deleted w_stdout]; cbn [removed_in warnings_in];
          rewrite <- ?app_assoc, ?app_nil_r;
          (split; [reflexivity|]); (split; [now repeat constructor|]);
          (split; [intros ? _ []|constructor]).
      * exists [(Stat fp, None); (Remove fp, None)].
        cbn [w_log w_deleted w_stdout removed_in warnings_in].
        rewrite <- ?app_assoc, ?app_nil_r.
        split; [reflexivity|]. split; [now repeat constructor|]. split.
        -- intros fp' Hin [<- | []].
           unfold answer in Erm. cbn [w_deleted] in Erm.
           apply mem_string_in in Hin. rewrite Hin in Erm. discriminate.
        -- repeat constructor. intros [].
    + exists [(Stat fp, None)]. cbn [w_log w_deleted w_stdout removed_in warnings_in].
      rewrite ?app_nil_r.
      split; [reflexivity|]. split; [now repeat constructor|].
      split; [intros ? _ [] | constructor].
Qed.

Lemma prune_files_run_full root files : forall removed w,
  prune_run st_mtime cutoff (map (fun fn => path_join root [fn]) (filter archive_name files))
            removed w
            (prune_files fault st_mtime cutoff root removed files w).
Proof.
  induction files as [|fn files IH]; intros removed w.
  - apply prune_run_nil.
  - cbn [prune_files]. unfold io_bind.
    pose proof (prune_file_run_full root removed fn w) as H1.
    destruct (prune_file fault st_mtime cutoff root removed fn w) as [w1 [l1|e]].
    + change (fn :: files) with ([fn] ++ files). rewrite filter_app, map_app.
      eapply prune_run_app; [exact H1 | apply IH].
    + destruct H1 as (new & [=] & _).
Qed.

Lemma prune_dirs_run_full walk : forall removed w,
  prune_run st_mtime cutoff (archive_paths walk) removed w
            (prune_dirs fault st_mtime cutoff removed walk w).
Proof.
  induction walk as [|[root files] walk IH]; intros removed w.
  - apply prune_run_nil.
  - cbn [prune_dirs]. unfold io_bind.
    pose proof (prune_files_run_full root files removed w) as H1.
    destruct (prune_files fault st_mtime cutoff root removed files w) as [w1 [l1|e]].
    + unfold archive_paths. cbn [flat_map fst snd].
      eapply prune_run_app; [exact H1 | apply IH].
    + destruct H1 as (new & [=] & _).
Qed.
End PruneRun.

Section SuffixFacts.

Lemma string_length_app (a b : string) :
  String.length (a ++ b)%string = String.length a + String.length b.
Proof. induction a as [|c a IH]; simpl; [reflexivity | now rewrite IH]. Qed.

(** A suffix no longer than the last part of a text is a suffix of the
    text exactly when it is one of that part. *)
Lemma endswith_app_long (p a s : string) :
  String.length p <= String.length s ->
  endswith p (a ++ s)%string = endswith p s.
Proof.
  intros Hlen. induction a as [|c a IH]; [reflexivity|].
  rewrite <- IH. cbn [append]. unfold endswith. cbn [String.length].
  assert (Hle : String.length p <= String.length (a ++ s)%string)
    by (rewrite string_length_app; lia).
  replace (S (String.length (a ++ s)%string) - String.length p)
    with (S (String.length (a ++ s)%string - String.length p)) by lia.
  cbn [substring].
  assert (H1 : (String.length p <=? S (String.length (a ++ s)%string)) = true)
    by (apply Nat.leb_le; lia).
  assert (H2 : (String.length p <=? String.length (a ++ s)%string) = true)
    by (now apply Nat.leb_le).
  now rewrite H1, H2.
Qed.

Lemma join2_suffix (root fn : string) : exists a, join2 root fn = (a ++ fn)%string.
Proof.
  unfold join2. destruct (startswith "/" fn).
  - now exists "".
  - destruct ((root =? "")%string || endswith "/" root).
    + now exists root.
    + exists (root ++ "/")%string. now rewrite string_app_assoc.
Qed.

Lemma endswith_join2 (p root fn : string) :
  String.length p <= String.length fn ->
  endswith p (join2 root fn) = endswith p fn.
Proof.
  intros Hlen. destruct (join2_suffix root fn) as (a & ->).
  now apply endswith_app_long.
Qed.

Lemma endswith_length (p s : string) :
  endswith p s = true -> String.length p <= String.length s.
Proof.
  unfold endswith. intros H. apply andb_true_iff in H. now apply Nat.leb_le.
Qed.

Lemma endswith_self_app (a p : string) : endswith p (a ++ p)%string = true.
Proof.
  rewrite endswith_app_long by lia. unfold endswith.
  rewrite Nat.leb_refl, Nat.sub_diag. cbn [andb].
  assert (H : forall s, substring 0 (String.length s) s = s).
  { induction s as [|c s IH]; simpl; [reflexivity | now rewrite IH]. }
  rewrite H. apply String.eqb_refl.
Qed.
End SuffixFacts.

Lemma archive_path_is_prunable_latest_is_not_core (out_dir date_str : string) :
  endswith ".json.gz" (gz_path_of out_dir date_str) = true /\
  endswith ".json.gz" (latest_path_of out_dir) = false.
Proof.
  split.
  - unfold gz_path_of, path_join. cbn [fold_left].
    rewrite endswith_join2.
    + apply endswith_self_app.
    + rewrite string_length_app. cbn. lia.
  - unfold latest_path_of, path_join. cbn [fold_left].
    rewrite endswith_join2; [reflexivity | cbn; lia].
Qed.

(** The archive path [save_snapshot] writes carries the extension the
    pruner looks for; the path of the uncompressed copy does not. *)
Theorem archive_path_is_prunable_latest_is_not (out_dir date_str : string) :
  endswith ".json.gz" (gz_path_of out_dir date_str) = true /\
  endswith ".json.gz" (latest_path_of out_dir) = false.
Proof. exact (@archive_path_is_prunable_latest_is_not_core out_dir date_str). Qed.

Section PrunerFacts.
Variable fault : list event -> fs_op -> option exn.
Variable st_mtime : string -> Q.
Variable now : Q.
Variable tree_at : string -> option tree.

(** A run is refused by [float], or it is the run over the archive
    files of the walk, none when pruning is disabled. *)
Lemma prune_old_snapshots_run out_dir retention_days w :
  ((0 < retention_days)%Z /\ (float_limit <= retention_days * 86400)%Z /\
   prune_old_snapshots fault st_mtime now tree_at out_dir retention_days w
   = (w, Raise OverflowError)) \/
  (((retention_days <= 0)%Z \/ (retention_days * 86400 < float_limit)%Z) /\
   prune_run st_mtime (cutoff_of now retention_days)
             (if (retention_days <=? 0)%Z then []
              else archive_paths (walk_of tree_at out_dir))
             [] w
             (prune_old_snapshots fault st_mtime now tree_at out_dir retention_days w)).
Proof.
  rewrite prune_old_snapshots_cases.
  destruct (Z.leb_spec retention_days 0) as [Hle | Hlt].
  - right. split; [now left | apply prune_run_nil].
  - unfold float_overflows. rewrite Z.abs_eq by lia.
    destruct (Z.leb_spec float_limit (retention_days * 86400)) as [Hov | Hok].
    + left. auto.
    + right. split; [now right | apply prune_dirs_run_full].
Qed.

(** In either case: the new part of the log is the visit of some of the
    archive files of the walk, and fixes what was deleted, what was
    printed and what is returned. *)
Lemma prune_old_snapshots_log out_dir retention_days w :
  exists new ps,
    fst (prune_old_snapshots fault st_mtime now tree_at out_dir retention_days w)
    = mk_world (w_log w ++ new) (w_deleted w ++ removed_in new)
               (w_stdout w ++ warnings_in new) /\
    visits st_mtime (cutoff_of now retention_days) ps new /\
    incl ps (archive_paths (walk_of tree_at out_dir)) /\
    (forall removed,
        snd (prune_old_snapshots fault st_mtime now tree_at out_dir retention_days w)
        = Ok removed -> removed = removed_in new).
Proof.
  destruct (prune_old_snapshots_run out_dir retention_days w)
    as [(_ & _ & Hrun) | (_ & new & Hrun & Hv & _)]; rewrite Hrun.
  - exists [], []. cbn [fst snd removed_in warnings_in]. rewrite !app_nil_r.
    split; [now destruct w|]. split; [constructor|].
    split; [intros ? []|]. discriminate.
  - eexists new, _. cbn [fst snd app].
    split; [reflexivity|]. split; [exact Hv|]. split.
    + destruct (retention_days <=? 0)%Z; [intros ? [] | apply incl_refl].
    + now intros removed [= <-].
Qed.

Lemma archive_path_suffix walk fp :
  In fp (archive_paths walk) -> endswith ".json.gz" fp = true.
Proof.
  intros Hin. apply archive_paths_in in Hin.
  destruct Hin as (root & files & fn & _ & _ & -> & _ & Hext).
  unfold path_join. cbn [fold_left].
  rewrite endswith_join2; [exact Hext | now apply endswith_length].
Qed.
End PrunerFacts.

Lemma visits_remove_after_stat st_mtime cutoff ps log fp r :
  visits st_mtime cutoff ps log -> In (Remove fp, r) log ->
  In fp ps /\ Qltb (st_mtime fp) cutoff = true /\ In (Stat fp, None) log.
Proof.
  induction 1 as [|fp' e ps log _ IH|fp' ps log Hm _ IH
                  |fp' e ps log Hm _ IH|fp' ps log Hm _ IH]; simpl; intros Hin.
  - destruct Hin.
  - destruct Hin as [[=] | Hin]. destruct (IH Hin) as (H1 & H2 & H3). auto.
  - destruct Hin as [[=] | Hin]. destruct (IH Hin) as (H1 & H2 & H3). auto.
  - destruct Hin as [[=] | [[= <- <-] | Hin]]; [auto 6|].
    destruct (IH Hin) as (H1 & H2 & H3). auto 6.
  - destruct Hin as [[=] | [[= <- <-] | Hin]]; [auto 6|].
    destruct (IH Hin) as (H1 & H2 & H3). auto 6.
Qed.

Lemma visits_stat_path st_mtime cutoff ps log fp r :
  visits st_mtime cutoff ps log -> In (Stat fp, r) log -> In fp ps.
Proof.
  intros Hv Hin. destruct (@visits_event_path _ _ _ _ _ _ Hv Hin) as (fp' & Hfp & [[= ->] | [=]]).
  exact Hfp.
Qed.

Lemma visits_only_stat_remove st_mtime cutoff ps log op r :
  visits st_mtime cutoff ps log -> In (op, r) log ->
  exists fp, op = Stat fp \/ op = Remove fp.
Proof.
  intros Hv Hin. destruct (@visits_event_path _ _ _ _ _ _ Hv Hin) as (fp & _ & H).
  now exists fp.
Qed.

(** Every operation of a pruning run is a status request or a removal
    on an archive file of the walk; a removal is only attempted on a file
    older than the cut-off, after its status was read. *)
Theorem prune_touches_only_old_archives
        (fault : list event -> fs_op -> option exn) (st_mtime : string -> Q)
        (now : Q) (tree_at : string -> option tree)
        (out_dir : string) (retention_days : Z) (w : world) :
  let run := prune_old_snapshots fault st_mtime now tree_at out_dir retention_days w in
  exists new,
    w_log (fst run) = w_log w ++ new /\
    forall op res, In (op, res) new ->
      exists fp,
        In fp (archive_paths (walk_of tree_at out_dir)) /\
        (op = Stat fp \/
         (op = Remove fp /\
          (st_mtime fp < now - inject_Z (retention_days * 86400))%Q /\
          In (Stat fp, None) new)).
Proof.
  cbv zeta.
  destruct (prune_old_snapshots_log fault st_mtime now tree_at out_dir retention_days w)
    as (new & ps & Hrun & Hv & Hps & _).
  exists new. rewrite Hrun. cbn [fst w_log]. split; [reflexivity|].
  intros op res Hin.
  destruct (visits_only_stat_remove _ _ Hv Hin) as (fp & [-> | ->]); exists fp.
  - split; [|now left]. apply Hps. exact (visits_stat_path _ _ Hv Hin).
  - destruct (visits_remove_after_stat _ _ Hv Hin) as (H1 & H2 & H3).
    split; [now apply Hps|]. right. split; [reflexivity|].
    split; [now apply Qltb_true | exact H3].
Qed.

(** A pruning run prints one warning for each operation that raised
    anything but [FileNotFoundError], in order, and nothing else. *)
Theorem prune_warns_once_per_failure
        (fault : list event -> fs_op -> option exn) (st_mtime : string -> Q)
        (now : Q) (tree_at : string -> option tree)
        (out_dir : string) (retention_days : Z) (w : world) :
  let run := prune_old_snapshots fault st_mtime now tree_at out_dir retention_days w in
  exists new,
    w_log (fst run) = w_log w ++ new /\
    w_stdout (fst run) = w_stdout w ++ warnings_in new.
Proof.
  cbv zeta.
  destruct (prune_old_snapshots_log fault st_mtime now tree_at out_dir retention_days w)
    as (new & ps & Hrun & _).
  exists new. rewrite Hrun. split; reflexivity.
Qed.

Lemma prune_returns_archives_once_core
        (fault : list event -> fs_op -> option exn) (st_mtime : string -> Q)
        (now : Q) (tree_at : string -> option tree)
        (out_dir : string) (retention_days : Z) (w : world) :
  let run := prune_old_snapshots fault st_mtime now tree_at out_dir retention_days w in
  (snd run = Raise OverflowError <->
   (0 < retention_days)%Z /\ (float_limit <= retention_days * 86400)%Z) /\
  match snd run with
  | Raise e => e = OverflowError /\ fst run = w
  | Ok removed =>
      NoDup removed /\
      forall fp, In fp removed ->
        endswith ".json.gz" fp = true /\
        (forall d, fp <> latest_path_of d) /\
        ~ In fp (w_deleted w)
  end.
Proof.
  cbv zeta.
  destruct (prune_old_snapshots_run fault st_mtime now tree_at out_dir retention_days w)
    as [(Hpos & Hov & Hrun) | (Hok & new & Hrun & Hv & Hd & Hn)]; rewrite Hrun;
    cbn [fst snd app].
  - split; [tauto|]. split; reflexivity.
  - split; [split; [discriminate | lia]|].
    split; [exact Hn|].
    intros fp Hin.
    assert (Hext : endswith ".json.gz" fp = true).
    { destruct (@visits_removed_sound _ _ _ _ fp Hv Hin) as (Hps & _).
      destruct (retention_days <=? 0)%Z; [destruct Hps|].
      exact (archive_path_suffix _ _ Hps). }
    split; [exact Hext|]. split.
    + intros d ->.
      rewrite (proj2 (archive_path_is_prunable_latest_is_not_core d "")) in Hext.
      discriminate.
    + intros Hdel. exact (Hd fp Hdel Hin).
Qed.

(** A pruning run raises nothing but [OverflowError], and raises it,
    before it touches anything, exactly when the retention is positive
    and its seconds are beyond the integers [float] accepts.  The list
    it returns otherwise has no duplicate; each of its paths ends in
    [.json.gz], is the path of no [latest.json], and was not deleted
    before the run. *)
Theorem prune_returns_archives_once
        (fault : list event -> fs_op -> option exn) (st_mtime : string -> Q)
        (now : Q) (tree_at : string -> option tree)
        (out_dir : string) (retention_days : Z) (w : world) :
  let run := prune_old_snapshots fault st_mtime now tree_at out_dir retention_days w in
  (snd run = Raise OverflowError <->
   (0 < retention_days)%Z /\ (float_limit <= retention_days * 86400)%Z) /\
  match snd run with
  | Raise e => e = OverflowError /\ fst run = w
  | Ok removed =>
      NoDup removed /\
      forall fp, In fp removed ->
        endswith ".json.gz" fp = true /\
        (forall d, fp <> latest_path_of d) /\
        ~ In fp (w_deleted w)
  end.
Proof.
  exact (@prune_returns_archives_once_core fault st_mtime now tree_at out_dir
           retention_days w).
Qed.

(** After a run in which nothing raised, a second run with the same
    clock and retention over no new archive file removes nothing. *)
Theorem prune_second_run_removes_nothing
        (fault1 fault2 : list event -> fs_op -> option exn) (st_mtime : string -> Q)
        (now : Q) (tree1 tree2 : string -> option tree)
        (out_dir : string) (retention_days : Z)
        (w w1 : world) (removed1 : list string) (new1 : list event) :
  prune_old_snapshots fault1 st_mtime now tree1 out_dir retention_days w
  = (w1, Ok removed1) ->
  w_log w1 = w_log w ++ new1 ->
  quiet new1 ->
  incl (archive_paths (walk_of tree2 out_dir)) (archive_paths (walk_of tree1 out_dir)) ->
  let run2 := prune_old_snapshots fault2 st_mtime now tree2 out_dir retention_days w1 in
  snd run2 = Ok [] /\ w_deleted (fst run2) = w_deleted w1.
Proof.
  intros Hrun1 Hlog1 Hquiet Hincl. cbv zeta.
  destruct (prune_old_snapshots_run fault1 st_mtime now tree1 out_dir retention_days w)
    as [(_ & _ & Hr1) | (Hok & new & Hr1 & Hv1 & _)];
    [rewrite Hrun1 in Hr1; discriminate Hr1|].
  rewrite Hrun1 in Hr1. injection Hr1 as Hw1 Hrem1.
  assert (Hnew : new = new1).
  { rewrite Hw1 in Hlog1. cbn [w_log] in Hlog1. now apply app_inv_head in Hlog1. }
  subst new.
  destruct (prune_old_snapshots_run fault2 st_mtime now tree2 out_dir retention_days w1)
    as [(Hpos & Hov & _) | (_ & new2 & Hr2 & Hv2 & Hd2 & _)]; [lia|].
  rewrite Hr2. cbn [fst snd w_deleted app].
  assert (Hnone : removed_in new2 = []).
  { destruct (removed_in new2) as [|x l] eqn:E; [reflexivity|]. exfalso.
    assert (Hin : In x (removed_in new2)) by (rewrite E; now left).
    destruct (@visits_removed_sound _ _ _ _ x Hv2 Hin) as (Hps & Hold & _).
    apply (Hd2 x); [|now left].
    rewrite Hw1. cbn [w_deleted]. apply in_or_app. right.
    rewrite (@visits_quiet _ _ _ _ Hv1 Hquiet).
    destruct (retention_days <=? 0)%Z; [destruct Hps|].
    apply filter_In. split; [now apply Hincl | exact Hold]. }
  rewrite Hnone, app_nil_r. split; reflexivity.
Qed.

Lemma prune_second_run_removes_nothing_witness :
  let run1 := prune_old_snapshots no_fault sample_mtime sample_now sample_tree_at
                                  "data/odds" 90 new_world in
  let run2 := prune_old_snapshots denied_fault sample_mtime sample_now sample_tree_at
                                  "data/odds" 90 (fst run1) in
  snd run2 = Ok [] /\ w_deleted (fst run2) = w_deleted (fst run1).
Proof.
  cbv zeta.
  apply (@prune_second_run_removes_nothing no_fault denied_fault sample_mtime
           sample_now sample_tree_at sample_tree_at "data/odds" 90 new_world
           (fst (prune_old_snapshots no_fault sample_mtime sample_now sample_tree_at
                                     "data/odds" 90 new_world))
           ["data/odds/2025/05/2025-05-01.json.gz";
            "data/odds/2025/05/2025-05-02.json.gz"]
           (w_log (fst (prune_old_snapshots no_fault sample_mtime sample_now
                                            sample_tree_at "data/odds" 90 new_world)))).
  - vm_compute. reflexivity.
  - reflexivity.
  - vm_compute. repeat constructor.
  - apply incl_refl.
Defined.

(* ------------------------------------------------------------------ *)
(** ** The store: directories first, nothing else touched *)

Lemma save_snapshot_makes_directories_first_core
        (fault : list event -> fs_op -> option exn)
        (out : snapshot) (out_dir : string) (w : world) :
  let run := save_snapshot fault out out_dir w in
  let dir_ym := path_join out_dir [substring 0 4 (sn_date out);
                                   substring 5 2 (sn_date out)] in
  exists new,
    w_log (fst run) = w_log w ++ new /\
    w_deleted (fst run) = w_deleted w /\
    w_stdout (fst run) = w_stdout w /\
    List.length new <= 4 /\
    (forall ev, In ev new -> is_gzip_dump ev = true \/ is_plain_dump ev = true ->
       exists rest, new = (Makedirs dir_ym, None) :: (Makedirs out_dir, None) :: rest) /\
    (forall op r, In (op, r) new ->
       match op with Stat _ | Remove _ => False | _ => True end).
Proof.
  cbv zeta. unfold save_snapshot. cbv zeta.
  unfold io_bind, perform, io_ret. cbv beta zeta.
  match goal with
  | |- context [answer fault w ?op] =>
      destruct (answer fault w op) as [e|] eqn:E1
  end; cbv beta iota zeta.
  { eexists [_]. cbn [fst w_log w_deleted w_stdout].
    split; [reflexivity|]. split; [reflexivity|]. split; [reflexivity|].
    split; [cbn; lia|]. split.
    - intros ev [<- | []] [H | H]; discriminate H.
    - intros op r [[= <- <-] | []]. exact I. }
  match goal with
  | |- context [answer fault ?w1 (Makedirs out_dir)] =>
      destruct (answer fault w1 (Makedirs out_dir)) as [e|] eqn:E2
  end; cbv beta iota zeta.
  { eexists [_; _]. cbn [fst w_log w_deleted w_stdout]. rewrite <- !app_assoc.
    split; [reflexivity|]. split; [reflexivity|]. split; [reflexivity|].
    split; [cbn; lia|]. split.
    - intros ev [<- | [<- | []]] [H | H]; discriminate H.
    - intros op r [[= <- <-] | [[= <- <-] | []]]; exact I. }
  match goal with
  | |- context [answer fault ?w2 (GzipDump ?p out)] =>
      destruct (answer fault w2 (GzipDump p out)) as [e|] eqn:E3
  end; cbv beta iota zeta.
  { eexists [_; _; _]. cbn [fst w_log w_deleted w_stdout]. rewrite <- !app_assoc.
    split; [reflexivity|]. split; [reflexivity|]. split; [reflexivity|].
    split; [cbn; lia|]. split.
    - intros ev _ _. eexists. reflexivity.
    - intros op r [[= <- <-] | [[= <- <-] | [[= <- <-] | []]]]; exact I. }
  match goal with
  | |- context [answer fault ?w3 (PlainDump ?p out)] =>
      destruct (answer fault w3 (PlainDump p out)) as [e|] eqn:E4
  end; cbv beta iota zeta.
  { eexists [_; _; _; _]. cbn [fst w_log w_deleted w_stdout]. rewrite <- !app_assoc.
    split; [reflexivity|]. split; [reflexivity|]. split; [reflexivity|].
    split; [cbn; lia|]. split.
    - intros ev _ _. eexists. reflexivity.
    - intros op r [[= <- <-] | [[= <- <-] | [[= <- <-] | [[= <- <-] | []]]]]; exact I. }
  eexists [_; _; _; _]. cbn [fst w_log w_deleted w_stdout]. rewrite <- !app_assoc.
  split; [reflexivity|]. split; [reflexivity|]. split; [reflexivity|].
  split; [cbn; lia|]. split.
  - intros ev _ _. eexists. reflexivity.
  - intros op r [[= <- <-] | [[= <- <-] | [[= <- <-] | [[= <- <-] | []]]]]; exact I.
Qed.

(** [save_snapshot] performs at most four operations, none of them a
    status request or a removal, deletes nothing and prints nothing;
    when it attempts a write, both directories were created before. *)
Theorem save_snapshot_makes_directories_first
        (fault : list event -> fs_op -> option exn)
        (out : snapshot) (out_dir : string) (w : world) :
  let run := save_snapshot fault out out_dir w in
  let dir_ym := path_join out_dir [substring 0 4 (sn_date out);
                                   substring 5 2 (sn_date out)] in
  exists new,
    w_log (fst run) = w_log w ++ new /\
    w_deleted (fst run) = w_deleted w /\
    w_stdout (fst run) = w_stdout w /\
    List.length new <= 4 /\
    (forall ev, In ev new -> is_gzip_dump ev = true \/ is_plain_dump ev = true ->
       exists rest, new = (Makedirs dir_ym, None) :: (Makedirs out_dir, None) :: rest) /\
    (forall op r, In (op, r) new ->
       match op with Stat _ | Remove _ => False | _ => True end).
Proof. exact (@save_snapshot_makes_directories_first_core fault out out_dir w). Qed.

(* ------------------------------------------------------------------ *)
(** ** HTTP: requests, outcome, back-off *)

Example busy_server_run :
  http_get busy_server decimal_float 4
  = mk_http_run 3 [3%Q; 6%Q] (Returned (Some "{}")).
Proof. vm_compute. reflexivity. Qed.

Lemma pymax_bounds a b : (a <= pymax a b)%Q /\ (b <= pymax a b)%Q.
Proof.
  unfold pymax. destruct (Qltb a b) eqn:E.
  - apply Qltb_true in E. split; lra.
  - apply Qltb_false in E. split; lra.
Qed.

Lemma pymin_floor a : (0.8 <= a)%Q -> (0.8 <= pymin (a * 2) 10)%Q.
Proof.
  intros Ha. unfold pymin. destruct (Qltb 10 (a * 2)); lra.
Qed.

Section HttpFacts.
Variable J : Type.
Variable respond : nat -> option (response J).
Variable float_of : string -> option Q.

Lemma http_loop_inv n k : forall i delay sleeps,
  i + k = n ->
  let run := http_loop respond float_of n k i delay sleeps in
  exists extra,
    h_sleeps run = sleeps ++ extra /\
    i <= h_requests run <= n /\
    List.length extra = h_requests run - i - 1 /\
    (h_requests run = i <-> k = 0) /\
    (forall j, i <= j -> S j < h_requests run ->
       exists resp, respond j = Some resp /\
                    status_code resp <> 200%Z /\ retryable (status_code resp) = true) /\
    match h_outcome run with
    | Returned None => k = 0
    | Returned (Some v) =>
        exists resp, respond (pred (h_requests run)) = Some resp /\
                     status_code resp = 200%Z /\ json resp = Some v
    | RequestFailed => k <> 0 /\ respond (pred (h_requests run)) = None
    | RuntimeError =>
        exists resp, respond (pred (h_requests run)) = Some resp /\
          ((status_code resp = 200%Z /\ json resp = None) \/
           (status_code resp <> 200%Z /\
            (retryable (status_code resp) = false \/ h_requests run = n)))
    end.
Proof.
  induction k as [|k IH]; intros i delay sleeps Hik; cbv zeta.
  - cbn. exists []. rewrite app_nil_r.
    repeat split; try lia; cbn [List.length]; lia.
  - cbn [http_loop].
    assert (Hstop : forall o : http_outcome J,
               match o with
               | Returned None => False
               | Returned (Some v) =>
                   exists resp, respond i = Some resp /\
                                status_code resp = 200%Z /\ json resp = Some v
               | RequestFailed => respond i = None
               | RuntimeError =>
                   exists resp, respond i = Some resp /\
                     ((status_code resp = 200%Z /\ json resp = None) \/
                      (status_code resp <> 200%Z /\
                       (retryable (status_code resp) = false \/ S i = n)))
               end ->
               let run := mk_http_run (S i) sleeps o in
               exists extra,
                 h_sleeps run = sleeps ++ extra /\
                 i <= h_requests run <= n /\
                 List.length extra = h_requests run - i - 1 /\
                 (h_requests run = i <-> S k = 0) /\
                 (forall j, i <= j -> S j < h_requests run ->
                    exists resp, respond j = Some resp /\
                                 status_code resp <> 200%Z /\
                                 retryable (status_code resp) = true) /\
                 match h_outcome run with
                 | Returned None => S k = 0
                 | Returned (Some v) =>
                     exists resp, respond (pred (h_requests run)) = Some resp /\
                                  status_code resp = 200%Z /\ json resp = Some v
                 | RequestFailed => S k <> 0 /\ respond (pred (h_requests run)) = None
                 | RuntimeError =>
                     exists resp, respond (pred (h_requests run)) = Some resp /\
                       ((status_code resp = 200%Z /\ json resp = None) \/
                        (status_code resp <> 200%Z /\
                         (retryable (status_code resp) = false \/
                          h_requests run = n)))
                 end).
    { intros o Ho. cbv zeta. cbn [h_sleeps h_requests h_outcome pred].
      exists []. rewrite app_nil_r.
      split; [reflexivity|]. split; [lia|]. split; [cbn [List.length]; lia|].
      split; [split; lia|]. split; [intros j H1 H2; lia|].
      destruct o as [[v|]| |]; auto; contradiction. }
    destruct (respond i) as [resp|] eqn:Er.
    2:{ now apply (Hstop RequestFailed). }
    destruct (Z.eqb_spec (status_code resp) 200) as [E200 | N200].
    { destruct (json resp) as [v|] eqn:Ej.
      - apply (Hstop (Returned (Some v))). exists resp. auto.
      - apply (Hstop RuntimeError). exists resp. auto. }
    destruct (retryable (status_code resp)) eqn:Eretry.
    2:{ apply (Hstop RuntimeError). exists resp. auto. }
    cbv zeta. destruct (S i <? n) eqn:Elt.
    2:{ apply Nat.ltb_ge in Elt. apply (Hstop RuntimeError). exists resp.
        split; [reflexivity|]. right. split; [exact N200|]. right. lia. }
    apply Nat.ltb_lt in Elt. clear Hstop.
    match goal with
    | |- context [http_loop respond float_of n k (S i) ?d ?s] =>
        destruct (IH (S i) d s ltac:(lia))
          as (extra & Hs & Hreq & Hlen & Hzero & Hearly & Hout);
        set (run := http_loop respond float_of n k (S i) d s) in *
    end.
    assert (Hk : k <> 0) by lia.
    assert (Hgt : S i < h_requests run).
    { destruct (Nat.eq_dec (h_requests run) (S i)) as [Heq|Hne]; [|lia].
      apply Hzero in Heq. contradiction. }
    eexists (_ :: extra). rewrite Hs, <- app_assoc. cbn [app].
    split; [reflexivity|]. split; [lia|]. split; [cbn [List.length]; lia|].
    split; [split; lia|]. split.
    + intros j H1 H2. destruct (Nat.eq_dec j i) as [-> | Hne].
      * exists resp. auto.
      * apply Hearly; lia.
    + destruct (h_outcome run) as [[v|]| |]; auto; [contradiction|].
      split; [discriminate | apply Hout].
Qed.

Lemma http_loop_sleeps n k : forall i delay sleeps,
  (0.8 <= delay)%Q ->
  let run := http_loop respond float_of n k i delay sleeps in
  exists extra,
    h_sleeps run = sleeps ++ extra /\
    forall m d, nth_error extra m = Some d ->
      (0.8 <= d)%Q /\
      (forall resp q, respond (i + m) = Some resp ->
                      header_delay float_of resp = Some q -> (q <= d)%Q) /\
      ((forall j resp, i <= j <= i + m -> respond j = Some resp ->
                       header_delay float_of resp = None) ->
       d = backoff_from delay m).
Proof.
  induction k as [|k IH]; intros i delay sleeps Hd; cbv zeta.
  - cbn. exists []. rewrite app_nil_r. split; [reflexivity|].
    intros [|m] d; discriminate.
  - cbn [http_loop].
    assert (Hnil : forall (r : http_run J), h_sleeps r = sleeps ->
               exists extra,
                 h_sleeps r = sleeps ++ extra /\
                 forall m d, nth_error extra m = Some d ->
                   (0.8 <= d)%Q /\
                   (forall resp q, respond (i + m) = Some resp ->
                                   header_delay float_of resp = Some q -> (q <= d)%Q) /\
                   ((forall j resp, i <= j <= i + m -> respond j = Some resp ->
                                    header_delay float_of resp = None) ->
                    d = backoff_from delay m)).
    { intros r Hr. exists []. rewrite app_nil_r. split; [exact Hr|].
      intros [|m] d; discriminate. }
    destruct (respond i) as [resp|] eqn:Er; [|now apply Hnil].
    destruct (status_code resp =? 200)%Z.
    { destruct (json resp); now apply Hnil. }
    destruct (retryable (status_code resp)); [|now apply Hnil].
    cbv zeta. destruct (S i <? n); [|now apply Hnil].
    set (delay1 := match header_delay float_of resp with
                   | Some q => pymax delay q
                   | None => delay
                   end).
    assert (Hd1 : (delay <= delay1)%Q).
    { unfold delay1. destruct (header_delay float_of resp); [apply pymax_bounds | lra]. }
    assert (Hfloor : (0.8 <= pymin (delay1 * 2) 10)%Q) by (apply pymin_floor; lra).
    destruct (IH (S i) (pymin (delay1 * 2) 10)%Q (sleeps ++ [delay1]) Hfloor)
      as (extra & Hs & Hall).
    cbv zeta in Hs. exists (delay1 :: extra). rewrite Hs, <- app_assoc.
    split; [reflexivity|].
    intros [|m] d Hnth; cbn [nth_error] in Hnth.
    + injection Hnth as <-. split; [lra|]. split.
      * intros resp' q Hresp Hq. rewrite Nat.add_0_r, Er in Hresp.
        injection Hresp as <-. unfold delay1. rewrite Hq. apply pymax_bounds.
      * intros Hnone. unfold delay1.
        rewrite (Hnone i resp ltac:(lia) Er). reflexivity.
    + destruct (Hall m d Hnth) as (H1 & H2 & H3).
      split; [exact H1|]. split.
      * intros resp' q Hresp Hq. apply (H2 resp' q); [|exact Hq].
        now rewrite <- Nat.add_succ_comm in Hresp.
      * intros Hnone. cbn [backoff_from].
        assert (Heq : delay1 = delay).
        { unfold delay1. now rewrite (Hnone i resp ltac:(lia) Er). }
        rewrite <- Heq. apply H3.
        intros j resp' Hj. apply Hnone. lia.
Qed.
End HttpFacts.

(** [http_get] makes at most [max_retries] requests and sleeps once
    between two requests, never after the last; every request before
    the last one was answered by a status of the retry list; without
    a request, that is for [max_retries <= 0], it returns [None]. *)
Theorem http_get_request_budget (J : Type) (respond : nat -> option (response J))
        (float_of : string -> option Q) (max_retries : Z) :
  let run := http_get respond float_of max_retries in
  h_requests run <= Z.to_nat max_retries /\
  List.length (h_sleeps run) = pred (h_requests run) /\
  (forall j, S j < h_requests run ->
     exists resp, respond j = Some resp /\
                  status_code resp <> 200%Z /\ retryable (status_code resp) = true) /\
  (h_requests run = 0 <-> (max_retries <= 0)%Z) /\
  (h_outcome run = Returned None <-> (max_retries <= 0)%Z).
Proof.
  cbv zeta. unfold http_get. cbv zeta.
  destruct (http_loop_inv respond float_of (Z.to_nat max_retries) 0 0.8%Q []
              (eq_refl : 0 + Z.to_nat max_retries = Z.to_nat max_retries))
    as (extra & Hs & Hreq & Hlen & Hzero & Hearly & Hout).
  cbv zeta in Hs, Hreq, Hlen, Hzero, Hearly, Hout.
  set (run := http_loop respond float_of (Z.to_nat max_retries)
                        (Z.to_nat max_retries) 0 0.8%Q []) in *.
  split; [lia|]. split; [rewrite Hs; cbn [app]; lia|].
  split; [intros j Hj; apply Hearly; lia|].
  split; [rewrite Hzero; lia|].
  split.
  - intros Hnone. rewrite Hnone in Hout. lia.
  - intros Hle. assert (Hn : Z.to_nat max_retries = 0) by lia.
    subst run. rewrite Hn. reflexivity.
Qed.

(** The outcome of [http_get] is decided by the last answer: a value is
    the decoded body of an answer 200; [RuntimeError] follows an
    answer 200 that does not decode, an answer whose status is neither
    200 nor on the retry list, or an answer of the retry list to the
    last allowed request; an exception of [requests.get] passes through. *)
Theorem http_get_outcome (J : Type) (respond : nat -> option (response J))
        (float_of : string -> option Q) (max_retries : Z) :
  let run := http_get respond float_of max_retries in
  let last := respond (pred (h_requests run)) in
  match h_outcome run with
  | Returned None => h_requests run = 0
  | Returned (Some v) =>
      exists resp, last = Some resp /\ status_code resp = 200%Z /\ json resp = Some v
  | RequestFailed => h_requests run <> 0 /\ last = None
  | RuntimeError =>
      exists resp, last = Some resp /\
        ((status_code resp = 200%Z /\ json resp = None) \/
         (status_code resp <> 200%Z /\
          (retryable (status_code resp) = false \/
           h_requests run = Z.to_nat max_retries)))
  end.
Proof.
  cbv zeta. unfold http_get. cbv zeta.
  destruct (http_loop_inv respond float_of (Z.to_nat max_retries) 0 0.8%Q []
              (eq_refl : 0 + Z.to_nat max_retries = Z.to_nat max_retries))
    as (extra & Hs & Hreq & Hlen & Hzero & Hearly & Hout).
  cbv zeta in Hs, Hreq, Hlen, Hzero, Hearly, Hout.
  destruct (h_outcome _) as [[v|]| |]; auto.
  - now apply Hzero.
  - destruct Hout as [Hk Hlast]. split; [|exact Hlast].
    intros H0. apply Hzero in H0. contradiction.
Qed.

(** Every sleep of [http_get] lasts at least 0.8 and at least what the
    answer before it asked for in [Retry-After]; as long as no answer
    names a delay the sleeps are 0.8, 1.6, 3.2, 6.4 and then 10. *)
Theorem http_get_backoff (J : Type) (respond : nat -> option (response J))
        (float_of : string -> option Q) (max_retries : Z) (m : nat) (d : Q) :
  nth_error (h_sleeps (http_get respond float_of max_retries)) m = Some d ->
  (0.8 <= d)%Q /\
  (forall resp q, respond m = Some resp ->
                  header_delay float_of resp = Some q -> (q <= d)%Q) /\
  ((forall j resp, j <= m -> respond j = Some resp ->
                   header_delay float_of resp = None) ->
   d = backoff_from 0.8%Q m /\ (d <= 10)%Q).
Proof.
  unfold http_get. cbv zeta. intros Hnth.
  destruct (@http_loop_sleeps J respond float_of (Z.to_nat max_retries)
              (Z.to_nat max_retries) 0 0.8%Q [] ltac:(lra))
    as (extra & Hs & Hall).
  cbv zeta in Hs. rewrite Hs in Hnth. cbn [app] in Hnth.
  destruct (Hall m d Hnth) as (H1 & H2 & H3).
  split; [exact H1|]. split; [exact H2|].
  intros Hnone.
  assert (Hd : d = backoff_from 0.8%Q m).
  { apply H3. intros j resp Hj. apply Hnone. lia. }
  split; [exact Hd|]. subst d. clear.
  assert (Hgen : forall k a, (a <= 10)%Q -> (backoff_from a k <= 10)%Q).
  { induction k as [|k IH]; intros a Ha; cbn [backoff_from]; [exact Ha|].
    apply IH. unfold pymin. destruct (Qltb 10 (a * 2)) eqn:E; [lra|].
    apply Qltb_false in E. lra. }
  apply Hgen. lra.
Qed.

Lemma http_get_backoff_witness :
  (exists resp q,
      busy_server 0 = Some resp /\ header_delay decimal_float resp = Some q /\
      (0.8 <= 3)%Q /\ (q <= 3)%Q) /\
  ((32 # 10)%Q = backoff_from 0.8%Q 2 /\ (32 # 10 <= 10)%Q).
Proof.
  split.
  - pose proof (@http_get_backoff string busy_server decimal_float 4 0 3%Q
                  ltac:(vm_compute; reflexivity)) as (Hmin & Hasked & _).
    exists (mk_response 503 None (Some "3")), 3%Q.
    split; [reflexivity|]. split; [vm_compute; reflexivity|].
    split; [exact Hmin|].
    apply (Hasked (mk_response 503 None (Some "3")) 3%Q);
      [reflexivity | vm_compute; reflexivity].
  - apply (proj2 (proj2 (@http_get_backoff string down_server decimal_float 4 2
                           (32 # 10)%Q ltac:(vm_compute; reflexivity)))).
    intros j resp _ [= <-]. reflexivity.
Defined.

Example backoff_schedule :
  map (fun m => Qeq_bool (backoff_from 0.8%Q m)
                         (nth m [0.8; 1.6; 3.2; 6.4; 10; 10]%Q 0%Q))
      [0; 1; 2; 3; 4; 5]
  = [true; true; true; true; true; true].
Proof. vm_compute. reflexivity. Qed.

(* ------------------------------------------------------------------ *)
(** ** Store, then prune *)

(** The end of [main] raises what [save_snapshot] raises, and then
    nothing was deleted and the pruner did not run.  After a successful
    save the pruner runs: it raises nothing but [OverflowError], before
    it touches a file, and only for a positive retention whose seconds
    are beyond the integers [float] accepts; otherwise the run ends
    with the archive path and the removed paths, among which the
    uncompressed copy is not, and the archive just written only if that
    file is older than the cut-off. *)
Theorem main_persist_outcome
        (fault : list event -> fs_op -> option exn) (st_mtime : string -> Q)
        (now : Q) (tree_at : string -> option tree)
        (out : snapshot) (out_dir : string) (retention_days : Z) (w : world) :
  match save_snapshot fault out out_dir w with
  | (w1, Raise e) =>
      main_persist fault st_mtime now tree_at out out_dir retention_days w
      = (w1, Raise e) /\
      w_deleted w1 = w_deleted w
  | (w1, Ok p) =>
      p = gz_path_of out_dir (sn_date out) /\
      match prune_old_snapshots fault st_mtime now tree_at out_dir retention_days w1 with
      | (w2, Raise e) =>
          main_persist fault st_mtime now tree_at out out_dir retention_days w
          = (w1, Raise OverflowError) /\
          e = OverflowError /\ w2 = w1 /\
          (0 < retention_days)%Z /\ (float_limit <= retention_days * 86400)%Z
      | (w2, Ok removed) =>
          main_persist fault st_mtime now tree_at out out_dir retention_days w
          = (w2, Ok (p, removed)) /\
          ((retention_days <= 0)%Z \/ (retention_days * 86400 < float_limit)%Z) /\
          ~ In (latest_path_of out_dir) removed /\
          (In p removed -> (st_mtime p < now - inject_Z (retention_days * 86400))%Q)
      end
  end.
Proof.
  unfold main_persist, io_bind.
  destruct (save_snapshot_makes_directories_first_core fault out out_dir w)
    as (new & _ & Hdel & _).
  cbv zeta in Hdel.
  destruct (save_snapshot_run fault out out_dir w)
    as [(n & e & w' & _ & Hrun & _) | (w' & Hrun & _)];
    rewrite Hrun in *; cbn [fst] in Hdel.
  - split; [reflexivity | exact Hdel].
  - split; [reflexivity|].
    pose proof (prune_returns_archives_once_core fault st_mtime now tree_at out_dir
                  retention_days w') as Hall.
    cbv zeta in Hall.
    destruct (prune_old_snapshots_run fault st_mtime now tree_at out_dir
                                      retention_days w')
      as [(Hpos & Hov & Hp) | (Hok & new2 & Hp & Hv & _)];
      rewrite Hp in *; cbn [fst snd app] in *.
    + repeat split; auto.
    + destruct Hall as (_ & _ & Hall).
      split; [reflexivity|]. split; [exact Hok|]. split.
      * intros Hin. destruct (Hall _ Hin) as (_ & Hne & _). now apply (Hne out_dir).
      * intros Hin.
        destruct (@visits_removed_sound _ _ _ _ _ Hv Hin) as (_ & Hold & _).
        now apply Qltb_true.
Qed.

Example main_persist_beyond_float :
  main_persist no_fault sample_mtime sample_now sample_tree_at empty_day
               "data/odds" (10 ^ 304) new_world
  = (mk_world [(Makedirs "data/odds/2025/08", None);
               (Makedirs "data/odds", None);
               (GzipDump "data/odds/2025/08/2025-08-16.json.gz" empty_day, None);
               (PlainDump "data/odds/latest.json" empty_day, None)] [] [],
     Raise OverflowError).
Proof. vm_compute. reflexivity. Qed.

(* ------------------------------------------------------------------ *)
(** ** The walk stays under its top directory *)

Lemma prefix_app (a b c : string) :
  String.prefix a b = true -> String.prefix a (b ++ c)%string = true.
Proof.
  revert b. induction a as [|x a IH]; intros b.
  - intros _. now destruct (b ++ c)%string.
  - destruct b as [|y b]; cbn [String.prefix append]; [discriminate|].
    destruct (ascii_dec x y); [apply IH | discriminate].
Qed.

Lemma prefix_refl (a : string) : String.prefix a a = true.
Proof.
  induction a as [|x a IH]; [reflexivity|]. cbn [String.prefix].
  destruct (ascii_dec x x); [exact IH | congruence].
Qed.

Lemma prefix_trans (a b c : string) :
  String.prefix a b = true -> String.prefix b c = true -> String.prefix a c = true.
Proof.
  revert b c. induction a as [|x a IH]; intros b c; [now destruct c|].
  destruct b as [|y b]; cbn [String.prefix]; [discriminate|].
  destruct c as [|z c]; [now destruct (ascii_dec x y)|].
  destruct (ascii_dec x y) as [->|]; [|discriminate].
  cbn [String.prefix]. destruct (ascii_dec y z); [apply IH | discriminate].
Qed.

Lemma join2_under (top n : string) :
  startswith "/" n = false -> startswith top (join2 top n) = true.
Proof.
  unfold join2, startswith. intros ->.
  destruct ((top =? "")%string || endswith "/" top);
    apply prefix_app, prefix_refl.
Qed.

(** Induction on directory trees. *)
Lemma tree_induction (P : tree -> Prop) :
  (forall files subdirs,
      Forall (fun nt : string * tree => P (snd nt)) subdirs ->
      P (Dir files subdirs)) ->
  forall t, P t.
Proof.
  intros Hdir. fix IH 1. intros [files subdirs]. apply Hdir.
  induction subdirs as [|[n t'] l IHl]; constructor; [apply IH | exact IHl].
Qed.

Lemma os_walk_under t : forall top root files,
  relative_names t = true ->
  In (root, files) (os_walk top t) ->
  startswith top root = true /\
  forallb (fun fn => negb (startswith "/" fn)) files = true.
Proof.
  induction t as [files subdirs IH] using tree_induction.
  intros top root fs Hrel Hin. cbn [relative_names] in Hrel.
  apply andb_true_iff in Hrel. destruct Hrel as [Hfiles Hsub].
  cbn [os_walk] in Hin. destruct Hin as [[= <- <-] | Hin].
  - split; [apply prefix_refl | exact Hfiles].
  - clear Hfiles. induction subdirs as [|[n t'] l IHl]; [destruct Hin|].
    inversion IH as [|? ? Ht' IHrest]; subst. cbn [snd] in Ht'.
    apply andb_true_iff in Hsub. destruct Hsub as [Hsub Hl].
    apply andb_true_iff in Hsub. destruct Hsub as [Hn Hrel'].
    apply in_app_or in Hin. destruct Hin as [Hin | Hin].
    + destruct (Ht' _ _ _ Hrel' Hin) as [Hroot Hfs]. split; [|exact Hfs].
      unfold path_join in Hroot. cbn [fold_left] in Hroot.
      eapply prefix_trans; [|exact Hroot].
      apply join2_under. now apply negb_true_iff.
    + now apply IHl.
Qed.

Lemma archive_paths_under walk top fp :
  (forall root files, In (root, files) walk ->
     startswith top root = true /\
     forallb (fun fn => negb (startswith "/" fn)) files = true) ->
  In fp (archive_paths walk) -> startswith top fp = true.
Proof.
  intros Hwalk Hin. apply archive_paths_in in Hin.
  destruct Hin as (root & files & fn & Hw & Hfn & -> & _).
  destruct (Hwalk _ _ Hw) as [Hroot Hfiles].
  rewrite forallb_forall in Hfiles. specialize (Hfiles _ Hfn).
  unfold path_join. cbn [fold_left].
  eapply prefix_trans; [exact Hroot|].
  apply join2_under. now apply negb_true_iff.
Qed.

(** When the names found under [out_dir] are names (none starts with
    "/"), every path the pruner asks the status of or removes starts
    with [out_dir]. *)
Theorem prune_stays_under_out_dir
        (fault : list event -> fs_op -> option exn) (st_mtime : string -> Q)
        (now : Q) (tree_at : string -> option tree)
        (out_dir : string) (retention_days : Z) (w : world) :
  (forall t, tree_at out_dir = Some t -> relative_names t = true) ->
  let run := prune_old_snapshots fault st_mtime now tree_at out_dir retention_days w in
  exists new,
    w_log (fst run) = w_log w ++ new /\
    (forall op res, In (op, res) new ->
       exists fp, (op = Stat fp \/ op = Remove fp) /\ startswith out_dir fp = true) /\
    (forall removed, snd run = Ok removed ->
       forall fp, In fp removed -> startswith out_dir fp = true).
Proof.
  intros Hrel. cbv zeta.
  destruct (prune_old_snapshots_log fault st_mtime now tree_at out_dir retention_days w)
    as (new & ps & Hrun & Hv & Hps & Hret).
  assert (Hunder : forall fp, In fp ps -> startswith out_dir fp = true).
  { intros fp Hin. apply Hps in Hin.
    apply (archive_paths_under (walk_of tree_at out_dir)); [|exact Hin].
    unfold walk_of. destruct (tree_at out_dir) as [t|] eqn:Et; [|intros ? ? []].
    intros root files Hw. exact (os_walk_under _ _ _ _ (Hrel t eq_refl) Hw). }
  exists new. rewrite Hrun. cbn [w_log].
  split; [reflexivity|]. split.
  - intros op res Hin.
    destruct (@visits_event_path _ _ _ _ _ _ Hv Hin) as (fp & Hfp & Hop).
    exists fp. split; [exact Hop | now apply Hunder].
  - intros removed Hok fp Hin. rewrite (Hret _ Hok) in Hin.
    destruct (@visits_removed_sound _ _ _ _ _ Hv Hin) as (Hfp & _).
    now apply Hunder.
Qed.

Lemma prune_stays_under_out_dir_witness :
  let run := prune_old_snapshots denied_fault sample_mtime sample_now sample_tree_at
                                 "data/odds" 90 new_world in
  exists new,
    w_log (fst run) = w_log new_world ++ new /\
    (forall op res, In (op, res) new ->
       exists fp, (op = Stat fp \/ op = Remove fp) /\ startswith "data/odds" fp = true) /\
    (forall removed, snd run = Ok removed ->
       forall fp, In fp removed -> startswith "data/odds" fp = true).
Proof.
  apply (@prune_stays_under_out_dir denied_fault sample_mtime sample_now
           sample_tree_at "data/odds" 90 new_world).
  intros t. unfold sample_tree_at. cbn. intros [= <-]. reflexivity.
Defined.
